(** * Universal Block CLI: the HTML <-> block-tree transcoders

    A shallow embedding of the core of the repository:

    - [tagConfig.js]    : [tagConfigs], [getTagConfig]
    - [htmlToBlocks.js] : [parseHTMLToBlocks], [nodeToBlock], [createBlock],
                          [generateClientId], [hasChildElements], [hasTextContent]
    - [blocksToHtml.js] : [parseBlocksToHTML], [blockToHTML], [isVoidElement],
                          [escapeAttribute], [escapeAttributeName]
    - [blocksToWpMarkup.js] : [parseBlocksToWPMarkup], [blockToWPMarkup]

    JavaScript values are embedded as the inductive type [jsval]; a function
    that can throw returns a [result]; the forward transcoder, which draws
    random identifiers, threads the position in the stream of [Math.random]
    draws.  The services of the platform that are not code of the repository
    (the jsdom HTML parser, [innerHTML], [JSON.stringify], [Math.random]) are
    section variables. *)

From Stdlib Require Import String Ascii List Bool Arith Lia ZArith Permutation DecimalString.
Import ListNotations.
Local Open Scope list_scope.
Local Open Scope string_scope.
Set Warnings "-register-all".

(* ===================================================================== *)
(** * JavaScript strings *)
(* ===================================================================== *)

(** A JavaScript string is modelled by a Rocq [string] whose characters are
    the code units 0..255 (the Latin-1 range).  Case mapping, [trim] and the
    character classes of the regular expressions are exact on that range,
    except that [toUpperCase] leaves the three letters whose capital lies
    outside of the range unchanged. *)
Module JsString.

Definition code (c : ascii) : nat := nat_of_ascii c.

Definition between (lo hi : nat) (c : ascii) : bool :=
  (lo <=? code c)%nat && (code c <=? hi)%nat.

Definition DQUOTE : ascii := ascii_of_nat 34.
Definition LF : ascii := ascii_of_nat 10.
Definition dquote : string := String DQUOTE "".
Definition newline : string := String LF "".

Definition is_upper (c : ascii) : bool :=
  between 65 90 c || between 192 214 c || between 216 222 c.

Definition is_lower (c : ascii) : bool :=
  between 97 122 c || between 224 246 c || between 248 254 c.

Definition lower_char (c : ascii) : ascii :=
  if is_upper c then ascii_of_nat (code c + 32) else c.

Definition upper_char (c : ascii) : ascii :=
  if is_lower c then ascii_of_nat (code c - 32) else c.

Fixpoint map (f : ascii -> ascii) (s : string) : string :=
  match s with
  | EmptyString => EmptyString
  | String c r => String (f c) (map f r)
  end.

(** [s.toLowerCase()] and [s.toUpperCase()] *)
Definition toLowerCase (s : string) : string := map lower_char s.
Definition toUpperCase (s : string) : string := map upper_char s.

(** [s.charAt(0)] and [s.slice(1)] *)
Definition charAt0 (s : string) : string :=
  match s with EmptyString => "" | String c _ => String c "" end.
Definition slice1 (s : string) : string :=
  match s with EmptyString => "" | String _ r => r end.

(** White space and line terminators, as [trim] strips them. *)
Definition is_space (c : ascii) : bool :=
  between 9 13 c || (code c =? 32)%nat || (code c =? 160)%nat.

Fixpoint trimStart (s : string) : string :=
  match s with
  | EmptyString => EmptyString
  | String c r => if is_space c then trimStart r else s
  end.

Fixpoint trimEnd (s : string) : string :=
  match s with
  | EmptyString => EmptyString
  | String c r =>
      match trimEnd r with
      | EmptyString => if is_space c then EmptyString else String c EmptyString
      | r' => String c r'
      end
  end.

(** [s.trim()] *)
Definition trim (s : string) : string := trimEnd (trimStart s).

(** [s.replace(/c/g, by)] for a one-character pattern. *)
Fixpoint replaceAll (c : ascii) (by_ : string) (s : string) : string :=
  match s with
  | EmptyString => EmptyString
  | String x r =>
      if Ascii.eqb x c then by_ ++ replaceAll c by_ r
      else String x (replaceAll c by_ r)
  end.

(** [s.replace(/[^...]/g, '')]: the characters of a class are kept. *)
Fixpoint keep (p : ascii -> bool) (s : string) : string :=
  match s with
  | EmptyString => EmptyString
  | String x r => if p x then String x (keep p r) else keep p r
  end.

(** [s.split(c)] for a one-character separator. *)
Fixpoint split (c : ascii) (s : string) : list string :=
  match s with
  | EmptyString => [EmptyString]
  | String x r =>
      if Ascii.eqb x c then EmptyString :: split c r
      else match split c r with
           | h :: t => String x h :: t
           | [] => [String x EmptyString]
           end
  end.

(** [parts.join(sep)] *)
Fixpoint join (sep : string) (parts : list string) : string :=
  match parts with
  | [] => ""
  | [p] => p
  | p :: rest => p ++ sep ++ join sep rest
  end.

(** [s.repeat(n)] *)
Fixpoint repeat (s : string) (n : nat) : string :=
  match n with
  | O => ""
  | S k => s ++ repeat s k
  end.

(** [\w] of a regular expression without flags. *)
Definition is_word (c : ascii) : bool :=
  between 65 90 c || between 97 122 c || between 48 57 c || (code c =? 95)%nat.

(** The characters of a string, one string each. *)
Fixpoint chars (s : string) : list string :=
  match s with
  | EmptyString => []
  | String c r => String c "" :: chars r
  end.

(** Decimal numerals of the natural numbers and of the integers. *)
Definition of_nat (n : nat) : string := NilZero.string_of_uint (Nat.to_uint n).
Definition of_Z (n : Z) : string := NilZero.string_of_int (Z.to_int n).

End JsString.

(* ===================================================================== *)
(** * JavaScript values *)
(* ===================================================================== *)

(** The values a block tree is made of: what [JSON.parse] returns, and
    [undefined].  An object is the list of its own enumerable properties in
    enumeration order (the order of [Object.entries]).  No field of a block
    is a number: a number only occurs in a malformed tree, and the model
    has the integers for that. *)
Inductive jsval : Type :=
| JUndefined
| JNull
| JBool (b : bool)
| JNum (n : Z)
| JStr (s : string)
| JArr (elems : list jsval)
| JObj (props : list (string * jsval)).

(** What a statement of the transcoders can throw. *)
Inductive error : Type :=
| TypeError (msg : string).

Inductive result (A : Type) : Type :=
| Ok (a : A)
| Throw (e : error).
Arguments Ok {A} a.
Arguments Throw {A} e.

Definition bind {A B : Type} (m : result A) (k : A -> result B) : result B :=
  match m with
  | Ok a => k a
  | Throw e => Throw e
  end.

Notation "'let*' x ':=' m 'in' k" := (bind m (fun x => k))
  (at level 10, x name, m at level 100, k at level 200).

(** [xs.map(f)] where [f] may throw: the first exception aborts the loop. *)
Fixpoint mapM {A B : Type} (f : A -> result B) (xs : list A) : result (list B) :=
  match xs with
  | [] => Ok []
  | x :: r =>
      let* y := f x in
      let* ys := mapM f r in
      Ok (y :: ys)
  end.

Module Js.

(** [ToBoolean] *)
Definition truthy (v : jsval) : bool :=
  match v with
  | JUndefined | JNull => false
  | JBool b => b
  | JNum n => negb (n =? 0)%Z
  | JStr s => negb (s =? "")
  | JArr _ | JObj _ => true
  end.

(** [String(v)], which is also what a template literal prints, for the
    values whose conversion runs no method of their own and prints a number
    digit by digit: [undefined], [null], the booleans, the strings, the
    integers up to 2^53 in magnitude, the objects without a [toString]
    property of their own and the arrays of such values.  For another
    object the source raises a TypeError, and it rounds a larger number; the
    fields of a block that the transcoders convert are strings in every
    block of the persisted shape, and what is proved about the absence of
    exceptions is proved for that shape. *)
Fixpoint ToString (v : jsval) : string :=
  match v with
  | JUndefined => "undefined"
  | JNull => "null"
  | JBool true => "true"
  | JBool false => "false"
  | JNum n => JsString.of_Z n
  | JStr s => s
  | JArr l =>
      JsString.join ","
        (List.map (fun e => match e with
                            | JUndefined | JNull => ""
                            | _ => ToString e
                            end) l)
  | JObj _ => "[object Object]"
  end.

(** Strict equality [v === 'literal']. *)
Definition is_str (lit : string) (v : jsval) : bool :=
  match v with
  | JStr s => s =? lit
  | _ => false
  end.

(** Own property of an object. *)
Fixpoint lookup (k : string) (ps : list (string * jsval)) : jsval :=
  match ps with
  | [] => JUndefined
  | (k', v) :: r => if k =? k' then v else lookup k r
  end.

Fixpoint has_key (k : string) (ps : list (string * jsval)) : bool :=
  match ps with
  | [] => false
  | (k', _) :: r => (k =? k') || has_key k r
  end.

(** The property read [v.k], for the property names the transcoders read:
    [name], [attributes], [innerBlocks], [tagName], [contentType],
    [content], [selfClosing], [globalAttrs], [className], [isDynamic],
    [elementType] and [length].  None of them is inherited from a built-in
    prototype; [length] is an own property of arrays and strings.  Reading
    a property of [null] or [undefined] throws. *)
Definition get (v : jsval) (k : string) : result jsval :=
  match v with
  | JUndefined | JNull => Throw (TypeError "Cannot read properties of null or undefined")
  | JObj ps => Ok (lookup k ps)
  | JArr l => Ok (if k =? "length" then JNum (Z.of_nat (List.length l)) else JUndefined)
  | JStr s => Ok (if k =? "length" then JNum (Z.of_nat (String.length s)) else JUndefined)
  | JBool _ | JNum _ => Ok JUndefined
  end.

(** [v?.k] *)
Definition get_opt (v : jsval) (k : string) : jsval :=
  match get v k with
  | Ok x => x
  | Throw _ => JUndefined
  end.

(** A default of a destructuring pattern applies to [undefined] only. *)
Definition default (d : jsval) (v : jsval) : jsval :=
  match v with
  | JUndefined => d
  | _ => v
  end.

(** Array indices: the canonical numerals of 0 .. 2^32 - 2.  An object
    enumerates the properties named by them first, in ascending order. *)
Definition is_digit (c : ascii) : bool := JsString.between 48 57 c.

Fixpoint all_digits (s : string) : bool :=
  match s with
  | EmptyString => true
  | String c r => is_digit c && all_digits r
  end.

Fixpoint digits_value (acc : N) (s : string) : N :=
  match s with
  | EmptyString => acc
  | String c r => digits_value (acc * 10 + N.of_nat (JsString.code c - 48)) r
  end.

Definition array_index (k : string) : option N :=
  match k with
  | EmptyString => None
  | String c r =>
      if all_digits k && (negb (Ascii.eqb c "0") || (r =? ""))
                      && (String.length k <=? 10)%nat
                      && (digits_value 0 k <=? 4294967294)%N
      then Some (digits_value 0 k)
      else None
  end.

Fixpoint replace_prop (k : string) (v : jsval) (ps : list (string * jsval)) :=
  match ps with
  | [] => []
  | (k', v') :: r => if k =? k' then (k', v) :: r else (k', v') :: replace_prop k v r
  end.

Fixpoint insert_index (n : N) (k : string) (v : jsval) (ps : list (string * jsval)) :=
  match ps with
  | [] => [(k, v)]
  | (k', v') :: r =>
      match array_index k' with
      | Some n' => if (n' <? n)%N then (k', v') :: insert_index n k v r
                   else (k, v) :: ps
      | None => (k, v) :: ps
      end
  end.

(** The assignment [obj[k] = v] on an ordinary object whose prototype is
    [Object.prototype], for a value [v] that is not an object: assigning
    to [__proto__] runs the inherited setter, which ignores such a value
    and creates no property; an existing property keeps its place; a new
    one is enumerated after the others, or among the array indices. *)
Definition set (k : string) (v : jsval) (ps : list (string * jsval)) :=
  if k =? "__proto__" then ps
  else if has_key k ps then replace_prop k v ps
  else match array_index k with
       | Some n => insert_index n k v ps
       | None => (ps ++ [(k, v)])%list
       end.

(** A list as the properties of an array: "0", "1", ... *)
Fixpoint indexed (i : nat) (l : list jsval) : list (string * jsval) :=
  match l with
  | [] => []
  | x :: r => (JsString.of_nat i, x) :: indexed (S i) r
  end.

(** Own enumerable string-keyed properties: [Object.entries(v)] for a
    value that is neither [null] nor [undefined], and the properties the
    spread [{...v}] copies. *)
Definition own_props (v : jsval) : list (string * jsval) :=
  match v with
  | JObj ps => ps
  | JArr l => indexed 0 l
  | JStr s => indexed 0 (List.map JStr (JsString.chars s))
  | _ => []
  end.

(** [Object.entries(v)] throws for [null] and [undefined]. *)
Definition entries (v : jsval) : result (list (string * jsval)) :=
  match v with
  | JUndefined | JNull => Throw (TypeError "Cannot convert undefined or null to object")
  | _ => Ok (own_props v)
  end.

Definition isArray (v : jsval) : bool :=
  match v with JArr _ => true | _ => false end.

End Js.

(* ===================================================================== *)
(** * tagConfig.js *)
(* ===================================================================== *)

Definition tagConfigs : list (string * jsval) :=
  [ ("set",  JObj [ ("label", JStr "Set");
                    ("category", JStr "dynamic");
                    ("description", JStr "Sets variables using raw Twig expressions");
                    ("contentType", JStr "empty");
                    ("selfClosing", JBool true) ]);
    ("loop", JObj [ ("label", JStr "Loop");
                    ("category", JStr "dynamic");
                    ("description", JStr "Repeats content based on dynamic data");
                    ("contentType", JStr "blocks");
                    ("selfClosing", JBool false) ]);
    ("if",   JObj [ ("label", JStr "If");
                    ("category", JStr "dynamic");
                    ("description", JStr "Conditionally displays content");
                    ("contentType", JStr "blocks");
                    ("selfClosing", JBool false) ]) ].

(** [tagConfigs] is an object literal, so the read [tagConfigs[k]] also finds
    what [Object.prototype] provides under a lower-case name: [constructor]
    (a function) and [__proto__] (the prototype itself).  Both are truthy
    objects with neither a [selfClosing] nor a [contentType] property, which
    is all the transcoders read of a configuration. *)
Definition inherited_member : jsval := JObj [].

(** [tagConfigs[tagName.toLowerCase()] || null] *)
Definition getTagConfig (tagName : string) : jsval :=
  let k := JsString.toLowerCase tagName in
  if Js.has_key k tagConfigs then Js.lookup k tagConfigs
  else if (k =? "constructor") || (k =? "__proto__") then inherited_member
  else JNull.

(* ===================================================================== *)
(** * The DOM *)
(* ===================================================================== *)

(** A node of the tree the HTML parser builds.  [tagName] is the name as the
    DOM reports it (upper case for an HTML element); [attributes] are the
    attributes in the order of the [NamedNodeMap].  [Comment] stands for
    every node that is neither a text node nor an element. *)
Inductive node : Type :=
| Text (data : string)
| Comment (data : string)
| Element (tagName : string) (attributes : list (string * string)) (childNodes : list node).

Module Dom.

Definition ELEMENT_NODE := 1.
Definition TEXT_NODE := 3.
Definition COMMENT_NODE := 8.

Definition nodeType (n : node) : nat :=
  match n with
  | Element _ _ _ => ELEMENT_NODE
  | Text _ => TEXT_NODE
  | Comment _ => COMMENT_NODE
  end.

Definition childNodes (n : node) : list node :=
  match n with
  | Element _ _ cs => cs
  | _ => []
  end.

(** [node.textContent]: the data of a text node or of a comment; for an
    element the data of its text descendants, in tree order. *)
Fixpoint textContent (n : node) : string :=
  match n with
  | Text d => d
  | Comment d => d
  | Element _ _ cs =>
      String.concat ""
        (List.map (fun c => match c with
                            | Comment _ => ""
                            | _ => textContent c
                            end) cs)
  end.

End Dom.

(* ===================================================================== *)
(** * htmlToBlocks.js *)
(* ===================================================================== *)

(** A computation that draws from [Math.random]: from the number of draws
    made so far to a value and the new number of draws. *)
Definition Rand (A : Type) : Type := nat -> A * nat.

Definition voidElements : list string :=
  ["img"; "br"; "hr"; "input"; "meta"; "link"; "area"; "base"; "col"; "embed";
   "source"; "track"; "wbr"].

Definition containerElements : list string :=
  ["div"; "section"; "article"; "header"; "footer"; "main"; "nav"; "aside";
   "ul"; "ol"; "li"; "form"; "fieldset"; "blockquote"; "figure"; "button"].

(** [list.includes(s)] *)
Definition includes (l : list string) (s : string) : bool :=
  existsb (String.eqb s) l.

(** [hasChildElements(element)] *)
Definition hasChildElements (element : node) : bool :=
  existsb (fun child => (Dom.nodeType child =? 1)%nat) (Dom.childNodes element).

(** [hasTextContent(element)] *)
Definition hasTextContent (element : node) : bool :=
  existsb (fun child => (Dom.nodeType child =? 3)%nat
                        && Js.truthy (JStr (JsString.trim (Dom.textContent child))))
          (Dom.childNodes element).

(** The body of the loop over [node.attributes], on the pair of
    [className] and [globalAttrs]. *)
Definition extractStep (acc : string * list (string * jsval)) (attr : string * string)
  : string * list (string * jsval) :=
  let (className, globalAttrs) := acc in
  let (name, value) := attr in
  if name =? "class" then (value, globalAttrs)
  else if name =? "style" then (className, Js.set "data-style" (JStr value) globalAttrs)
  else (className, Js.set name (JStr value) globalAttrs).

(** The loop over [node.attributes]: [className] and [globalAttrs]. *)
Definition extractAttributes (attrs : list (string * string))
  : string * list (string * jsval) :=
  fold_left extractStep attrs ("", []).

Definition uiState (tagName : string) (contentType : jsval) : jsval :=
  JObj [ ("tagCategory", JStr "custom");
         ("selectedTagName", JStr tagName);
         ("selectedContentType", contentType) ].

(** The [blockAttributes] of an element, with the two conditional
    assignments of [className] and [content]. *)
Definition blockAttributes (tagName : string) (contentType selfClosing : jsval)
    (globalAttrs : list (string * jsval)) (className content : string) : jsval :=
  let attrs0 :=
    [ ("blockName", JStr (JsString.toUpperCase (JsString.charAt0 tagName)
                          ++ JsString.slice1 tagName));
      ("tagName", JStr tagName);
      ("category", JStr "custom");
      ("contentType", contentType);
      ("selfClosing", selfClosing);
      ("globalAttrs", JObj globalAttrs);
      ("uiState", uiState tagName contentType) ] in
  let attrs1 :=
    if Js.truthy (JStr className) then Js.set "className" (JStr className) attrs0
    else attrs0 in
  let attrs2 :=
    if Js.is_str "text" contentType || Js.is_str "html" contentType
    then Js.set "content" (JStr content) attrs1
    else attrs1 in
  JObj attrs2.

(** The attributes of the paragraph that wraps a stray text node. *)
Definition textBlockAttributes (text : string) : jsval :=
  JObj [ ("blockName", JStr "P");
         ("tagName", JStr "p");
         ("category", JStr "custom");
         ("contentType", JStr "text");
         ("content", JStr text);
         ("selfClosing", JBool false);
         ("uiState", uiState "p" (JStr "text")) ].

(** The object literal that [createBlock] returns. *)
Definition blockObject (clientId name : string) (attributes : jsval)
    (innerBlocks : list jsval) : jsval :=
  JObj [ ("clientId", JStr clientId);
         ("name", JStr name);
         ("isValid", JBool true);
         ("attributes", attributes);
         ("innerBlocks", JArr innerBlocks) ].

Section Forward.

(** [element.innerHTML], the serializer of the DOM implementation. *)
Variable innerHTML : node -> string.

(** The value of [Math.random() * 16 | 0] at each call of [Math.random],
    by the number of calls made before it. *)
Variable random16 : nat -> nat.

Definition hexDigit (v : nat) : string :=
  match get v "0123456789abcdef" with
  | Some c => String c ""
  | None => ""
  end.

(** The callback of [generateClientId] over the template, left to right:
    an [x] becomes the digit drawn, a [y] the digit [r & 0x3 | 0x8]. *)
Fixpoint replaceXY (template : string) : Rand string :=
  fun n =>
    match template with
    | EmptyString => ("", n)
    | String c rest =>
        if Ascii.eqb c "x" || Ascii.eqb c "y" then
          let r := random16 n mod 16 in
          let v := if Ascii.eqb c "x" then r else Nat.lor (Nat.land r 3) 8 in
          let (out, n') := replaceXY rest (S n) in
          (hexDigit v ++ out, n')
        else
          let (out, n') := replaceXY rest n in
          (String c out, n')
    end.

Definition generateClientId : Rand string :=
  replaceXY "xxxxxxxx-xxxx-4xxx-yxxx-xxxxxxxxxxxx".

Definition createBlock (name : string) (attributes : jsval) (innerBlocks : list jsval)
  : Rand jsval :=
  fun n =>
    let (clientId, n') := generateClientId n in
    (blockObject clientId name attributes innerBlocks, n').

(** [for (const child of nodes) { const b = f(child); if (b) out.push(b); }] *)
Fixpoint pushBlocks (f : node -> Rand (option jsval)) (nodes : list node)
  : Rand (list jsval) :=
  fun n =>
    match nodes with
    | [] => ([], n)
    | child :: rest =>
        let (b, n1) := f child n in
        let (bs, n2) := pushBlocks f rest n1 in
        (match b with Some x => x :: bs | None => bs end, n2)
    end.

(** The content type detection of [nodeToBlock] for an element: the
    content type, the content and the inner blocks, given the loop over
    the child nodes that the container branch runs. *)
Definition detectContent (nd : node) (tagName : string) (config : jsval)
    (isVoidElement : bool) (childBlocks : Rand (list jsval))
  : Rand (jsval * string * list jsval) :=
  fun n =>
    let isDynamicTag :=
      match Js.get_opt config "selfClosing" with JBool true => true | _ => false end in
    if isDynamicTag then
      let ct := Js.get_opt config "contentType" in
      (if Js.truthy ct then ct else JStr "empty", "", [], n)
    else if isVoidElement then (JStr "empty", "", [], n)
    else if tagName =? "svg" then (JStr "html", innerHTML nd, [], n)
    else
      let hasElements := hasChildElements nd in
      let hasText := hasTextContent nd in
      let isContainer := includes containerElements tagName in
      if hasElements && isContainer then
        let (innerBlocks, n') := childBlocks n in
        (JStr "blocks", "", innerBlocks, n')
      else if hasElements then (JStr "html", innerHTML nd, [], n)
      else if hasText then (JStr "text", Dom.textContent nd, [], n)
      else (JStr "empty", "", [], n).

(** [config?.selfClosing !== undefined ? config.selfClosing : isVoidElement] *)
Definition finalSelfClosing (config : jsval) (isVoidElement : bool) : jsval :=
  match Js.get_opt config "selfClosing" with
  | JUndefined => JBool isVoidElement
  | sc => sc
  end.

(** [nodeToBlock(node)]; [None] is the [null] of the source. *)
Fixpoint nodeToBlock (nd : node) {struct nd} : Rand (option jsval) :=
  fun n =>
    match nd with
    | Text _ =>
        let text := JsString.trim (Dom.textContent nd) in
        if negb (Js.truthy (JStr text)) then (None, n)
        else
          let (b, n') := createBlock "universal/element" (textBlockAttributes text) [] n in
          (Some b, n')
    | Element tag attrs children =>
        let tagName := JsString.toLowerCase tag in
        let config := getTagConfig tagName in
        let (className, globalAttrs) := extractAttributes attrs in
        let isVoidElement := includes voidElements tagName in
        let '(contentType, content, innerBlocks, n1) :=
          detectContent nd tagName config isVoidElement
            (pushBlocks nodeToBlock children) n in
        let (b, n2) :=
          createBlock "universal/element"
            (blockAttributes tagName contentType (finalSelfClosing config isVoidElement)
               globalAttrs className content)
            innerBlocks n1 in
        (Some b, n2)
    | Comment _ => (None, n)
    end.

End Forward.

(** ** The rewriting of self-closing tags *)

(** The maximal run of [\w] characters at the head of a string, and the rest. *)
Fixpoint takeWord (s : string) : string * string :=
  match s with
  | EmptyString => ("", "")
  | String c r =>
      if JsString.is_word c then
        let (w, rest) := takeWord r in (String c w, rest)
      else ("", s)
  end.

(** [[^>]*?\/>]: the shortest run of characters other than [>] that is
    followed by [/>]; the run, and what follows the [/>]. *)
Fixpoint lazyUntilSlashGt (s : string) : option (string * string) :=
  match s with
  | EmptyString => None
  | String c r =>
      let here :=
        if Ascii.eqb c "/" then
          match r with
          | String d r' => if Ascii.eqb d ">" then Some r' else None
          | EmptyString => None
          end
        else None in
      match here with
      | Some r' => Some ("", r')
      | None =>
          if Ascii.eqb c ">" then None
          else match lazyUntilSlashGt r with
               | Some (run, rest) => Some (String c run, rest)
               | None => None
               end
      end
  end.

(** A match of [/<(\w+)([^>]*?)\/>/] at the head of a string: the two
    groups and what follows the match.  The greedy [\w+] takes the maximal
    run: a shorter one leaves the same characters to [[^>]*?]. *)
Definition matchSelfClosing (s : string) : option (string * string * string) :=
  match s with
  | String c r =>
      if Ascii.eqb c "<" then
        let (tagName, r1) := takeWord r in
        if tagName =? "" then None
        else match lazyUntilSlashGt r1 with
             | Some (attrs, rest) => Some (tagName, attrs, rest)
             | None => None
             end
      else None
  | EmptyString => None
  end.

(** The replacement callback of [parseHTMLToBlocks]. *)
Definition rewriteSelfClosing (tagName attrs : string) : string :=
  let config := getTagConfig (JsString.toLowerCase tagName) in
  match Js.get_opt config "selfClosing" with
  | JBool true => "<" ++ tagName ++ attrs ++ "></" ++ tagName ++ ">"
  | _ => "<" ++ tagName ++ attrs ++ "/>"
  end.

(** [html.replace(/<(\w+)([^>]*?)\/>/g, callback)]: the matches are taken
    from left to right and do not overlap.  [skip] counts the characters of
    the last match that are still to be passed over. *)
Fixpoint replaceSelfClosing (skip : nat) (s : string) : string :=
  match s with
  | EmptyString => EmptyString
  | String c r =>
      match skip with
      | S k => replaceSelfClosing k r
      | O =>
          match matchSelfClosing s with
          | Some (tagName, attrs, _) =>
              rewriteSelfClosing tagName attrs
              ++ replaceSelfClosing (String.length tagName + String.length attrs + 2) r
          | None => String c (replaceSelfClosing 0 r)
          end
      end
  end.

Section ParseHTML.

Variable innerHTML : node -> string.
Variable random16 : nat -> nat.

(** [new JSDOM(text).window.document.body.firstChild], [None] for [null]. *)
Variable bodyFirstChild : string -> option node.

Definition parseHTMLToBlocks (html : jsval) : Rand (list jsval) :=
  fun n =>
    match html with
    | JStr text =>
        if negb (Js.truthy html) then ([], n)
        else
          let processedHtml := replaceSelfClosing 0 text in
          match bodyFirstChild ("<div>" ++ processedHtml ++ "</div>") with
          | Some container =>
              pushBlocks (nodeToBlock innerHTML random16) (Dom.childNodes container) n
          | None => ([], n)
          end
    | _ => ([], n)
    end.

End ParseHTML.

(* ===================================================================== *)
(** * blocksToHtml.js *)
(* ===================================================================== *)

(** [isVoidElement(tagName)] *)
Definition isVoidElement (tagName : string) : bool :=
  includes voidElements (JsString.toLowerCase tagName).

(** [escapeAttribute(value)] *)
Definition escapeAttribute (value : jsval) : string :=
  let value := match value with JStr s => s | _ => Js.ToString value end in
  JsString.replaceAll ">" "&gt;"
    (JsString.replaceAll "<" "&lt;"
      (JsString.replaceAll "'" "&#x27;"
        (JsString.replaceAll JsString.DQUOTE "&quot;"
          (JsString.replaceAll "&" "&amp;" value)))).

(** The class [[a-zA-Z0-9\-_]]. *)
Definition is_name_char (c : ascii) : bool :=
  JsString.between 97 122 c || JsString.between 65 90 c || JsString.between 48 57 c
  || Ascii.eqb c "-" || Ascii.eqb c "_".

(** [escapeAttributeName(name)] *)
Definition escapeAttributeName (name : string) : string :=
  JsString.keep is_name_char name.

(** What the [class] step adds to [attributesString]. *)
Definition classAttribute (className : jsval) : string :=
  if Js.truthy className
  then " class=" ++ JsString.dquote ++ escapeAttribute className ++ JsString.dquote
  else "".

(** What the callback over [Object.entries(globalAttrs)] adds for an entry. *)
Definition globalAttribute (entry : string * jsval) : string :=
  let (name, value) := entry in
  if Js.truthy (JStr name)
     && negb (match value with JUndefined => true | _ => false end)
     && negb (Js.is_str "" value)
  then " " ++ escapeAttributeName name ++ "=" ++ JsString.dquote
           ++ escapeAttribute value ++ JsString.dquote
  else "".

Section Reverse.

(** [ToNumber(v) > 0] for a string, an array or an object [v]: the
    comparison converts such a value through its text. *)
Variable textGt0 : jsval -> bool.

(** [v > 0] *)
Definition gt0 (v : jsval) : bool :=
  match v with
  | JUndefined | JNull => false
  | JBool b => b
  | JNum n => (0 <? n)%Z
  | _ => textGt0 v
  end.

(** [innerBlocks && innerBlocks.length > 0] *)
Definition hasInnerBlocks (innerBlocks : jsval) : bool :=
  Js.truthy innerBlocks && gt0 (Js.get_opt innerBlocks "length").

(** The body of [blockToHTML] for a block that passed the guard, given
    what the call [parseBlocksToHTML(innerBlocks, { pretty, indent })]
    returns for each [indent]. *)
Definition elementToHTML (pretty : bool) (attributes innerBlocks : jsval)
    (parseInner : nat -> result string) (indent : nat) : result string :=
  let* tagName := Js.get attributes "tagName" in
  let tagName := Js.default (JStr "div") tagName in
  let contentType := Js.default (JStr "text") (Js.get_opt attributes "contentType") in
  let content := Js.default (JStr "") (Js.get_opt attributes "content") in
  let selfClosing := Js.default (JBool false) (Js.get_opt attributes "selfClosing") in
  let globalAttrs := Js.default (JObj []) (Js.get_opt attributes "globalAttrs") in
  let className := Js.default (JStr "") (Js.get_opt attributes "className") in
  let* entries := Js.entries globalAttrs in
  let attributesString :=
    classAttribute className ++ String.concat "" (List.map globalAttribute entries) in
  let* innerContent :=
    if Js.is_str "text" contentType || Js.is_str "html" contentType then
      Ok (if Js.truthy content then Js.ToString content else "")
    else if Js.is_str "blocks" contentType then
      if hasInnerBlocks innerBlocks then
        let* childHtml := parseInner (indent + 1) in
        if pretty && Js.truthy (JStr childHtml) then
          let indentStr := JsString.repeat "  " (indent + 1) in
          Ok (JsString.newline ++ indentStr
              ++ JsString.join (JsString.newline ++ indentStr)
                   (JsString.split JsString.LF childHtml)
              ++ JsString.newline ++ JsString.repeat "  " indent)
        else Ok childHtml
      else Ok ""
    else Ok "" in
  (* [getTagConfig(tagName)] calls [tagName.toLowerCase()] *)
  let* tag :=
    match tagName with
    | JStr t => Ok t
    | _ => Throw (TypeError "tagName.toLowerCase is not a function")
    end in
  let config := getTagConfig tag in
  let shouldBeSelfClosing :=
    match Js.get_opt config "selfClosing" with
    | JUndefined => if Js.truthy selfClosing then selfClosing else JBool (isVoidElement tag)
    | sc => sc
    end in
  let indentStr := if pretty then JsString.repeat "  " indent else "" in
  if Js.truthy shouldBeSelfClosing then
    Ok (indentStr ++ "<" ++ tag ++ attributesString ++ " />")
  else
    Ok (indentStr ++ "<" ++ tag ++ attributesString ++ ">" ++ innerContent
        ++ "</" ++ tag ++ ">").

(** [blocks.map(f).join(sep)] *)
Definition mapJoin (sep : string) (f : jsval -> result string) (blocks : list jsval)
  : result string :=
  let* parts := mapM f blocks in
  Ok (JsString.join sep parts).

Definition separator (pretty : bool) : string :=
  if pretty then JsString.newline else "".

(** [blockToHTML(block, { pretty, indent })].  Only an object can pass the
    guard: no other value has a [name].  The inner fixpoint is the call of
    [parseBlocksToHTML] on the [innerBlocks] property, written in place so
    that the recursion is structural. *)
Fixpoint blockToHTML (pretty : bool) (block : jsval) {struct block} : nat -> result string :=
  match block with
  | JObj props =>
      if Js.is_str "universal/element" (Js.lookup "name" props) then
        elementToHTML pretty (Js.lookup "attributes" props) (Js.lookup "innerBlocks" props)
          ((fix parseInner (ps : list (string * jsval)) : nat -> result string :=
              match ps with
              | [] => fun _ => Ok ""
              | (k, v) :: rest =>
                  if "innerBlocks" =? k then
                    match v with
                    | JArr blocks =>
                        fun indent =>
                          mapJoin (separator pretty)
                            (fun b => blockToHTML pretty b indent) blocks
                    | _ => fun _ => Ok ""
                    end
                  else parseInner rest
              end) props)
      else fun _ => Ok ""
  | _ => fun _ => Ok ""
  end.

(** [parseBlocksToHTML(blocks, { pretty, indent })] *)
Definition parseBlocksToHTML (pretty : bool) (blocks : jsval) (indent : nat)
  : result string :=
  match blocks with
  | JArr l => mapJoin (separator pretty) (fun b => blockToHTML pretty b indent) l
  | _ => Ok ""
  end.

End Reverse.

(* ===================================================================== *)
(** * blocksToWpMarkup.js *)
(* ===================================================================== *)

Section WPMarkup.

Variable textGt0 : jsval -> bool.

(** [JSON.stringify] on an object. *)
Variable JSON_stringify : jsval -> string.

(** [if (!obj[k]) obj[k] = d] *)
Definition setIfFalsy (k : string) (d : jsval) (ps : list (string * jsval)) :=
  if Js.truthy (Js.lookup k ps) then ps else Js.set k d ps.

(** The object that is serialized into the comment: the spread of
    [attributes] with the two legacy fields defaulted. *)
Definition blockAttrs (attributes : jsval) : jsval :=
  JObj (setIfFalsy "elementType" (JStr "text")
          (setIfFalsy "isDynamic" (JBool false) (Js.own_props attributes))).

(** [!innerBlocks || innerBlocks.length === 0] *)
Definition noInnerBlocks (innerBlocks : jsval) : bool :=
  negb (Js.truthy innerBlocks)
  || match Js.get_opt innerBlocks "length" with
     | JNum 0 => true
     | _ => false
     end.

(** The second conjunct of [isSelfClosing]; reading [attributes.contentType]
    throws when [attributes] is [null] or [undefined]. *)
Definition emptyPayload (attributes : jsval) : result bool :=
  let* contentType := Js.get attributes "contentType" in
  let content := Js.get_opt attributes "content" in
  Ok (Js.is_str "empty" contentType
      || (Js.is_str "text" contentType && negb (Js.truthy content))
      || (Js.is_str "html" contentType && negb (Js.truthy content))).

Definition wpOpen (attrsJson : string) : string :=
  "<!-- wp:universal/element " ++ attrsJson ++ " -->".
Definition wpSelfClosing (attrsJson : string) : string :=
  "<!-- wp:universal/element " ++ attrsJson ++ " /-->".
Definition wpClose : string := "<!-- /wp:universal/element -->".

(** The body of [blockToWPMarkup] for a block that passed the guard, given
    what [parseBlocksToWPMarkup(innerBlocks, { indent })] returns. *)
Definition elementToWPMarkup (attributes innerBlocks : jsval)
    (parseInner : nat -> result string) (indent : nat) : result string :=
  let indentStr := JsString.repeat "    " indent in
  let attrsJson := JSON_stringify (blockAttrs attributes) in
  let* isSelfClosing :=
    if noInnerBlocks innerBlocks then emptyPayload attributes else Ok false in
  if isSelfClosing then
    Ok (indentStr ++ wpSelfClosing attrsJson)
  else
    let output := indentStr ++ wpOpen attrsJson in
    if hasInnerBlocks textGt0 innerBlocks then
      let* inner := parseInner (indent + 1) in
      Ok (output ++ JsString.newline ++ inner ++ JsString.newline
          ++ indentStr ++ wpClose)
    else
      Ok (output ++ wpClose).

(** [blockToWPMarkup(block, { indent })]; the inner fixpoint is the call of
    [parseBlocksToWPMarkup] on the [innerBlocks] property. *)
Fixpoint blockToWPMarkup (block : jsval) {struct block} : nat -> result string :=
  match block with
  | JObj props =>
      if Js.is_str "universal/element" (Js.lookup "name" props) then
        elementToWPMarkup (Js.lookup "attributes" props) (Js.lookup "innerBlocks" props)
          ((fix parseInner (ps : list (string * jsval)) : nat -> result string :=
              match ps with
              | [] => fun _ => Ok ""
              | (k, v) :: rest =>
                  if "innerBlocks" =? k then
                    match v with
                    | JArr blocks =>
                        fun indent =>
                          mapJoin JsString.newline
                            (fun b => blockToWPMarkup b indent) blocks
                    | _ => fun _ => Ok ""
                    end
                  else parseInner rest
              end) props)
      else fun _ => Ok ""
  | _ => fun _ => Ok ""
  end.

(** [parseBlocksToWPMarkup(blocks, { indent })] *)
Definition parseBlocksToWPMarkup (blocks : jsval) (indent : nat) : result string :=
  match blocks with
  | JArr l => mapJoin JsString.newline (fun b => blockToWPMarkup b indent) l
  | _ => Ok ""
  end.

End WPMarkup.

(* ===================================================================== *)
(** * The command line: the names of the files written *)
(* ===================================================================== *)

(** [name.replace(/\.ext$/, by)] for a literal extension: without the
    multiline flag, [$] matches at the end of the name only, so the one
    possible match is the extension that ends the name. *)
Fixpoint replaceAtEnd (suffix by_ name : string) : string :=
  if name =? suffix then by_
  else match name with
       | EmptyString => EmptyString
       | String c rest => String c (replaceAtEnd suffix by_ rest)
       end.

(** [options.format === 'json' ? '.json' : '.html'] *)
Definition outputExt (format : string) : string :=
  if format =? "json" then ".json" else ".html".

(** The relative path of the file that [html-to-blocks] writes:
    [relativePath.replace(/\.html$/, outputExt)]. *)
Definition htmlToBlocksOutputFile (format relativePath : string) : string :=
  replaceAtEnd ".html" (outputExt format) relativePath.

(** The relative path of the file that [blocks-to-html] writes:
    [relativePath.replace(/\.json$/, '.html')]. *)
Definition blocksToHtmlOutputFile (relativePath : string) : string :=
  replaceAtEnd ".json" ".html" relativePath.

(* ===================================================================== *)
(** * The notions of the specification *)
(* ===================================================================== *)

Module Spec.



(** An element block: an object with that [name], and its two parts. *)
Definition element_block (block attributes innerBlocks : jsval) : Prop :=
  exists props,
    block = JObj props
    /\ Js.lookup "name" props = JStr "universal/element"
    /\ Js.lookup "attributes" props = attributes
    /\ Js.lookup "innerBlocks" props = innerBlocks.

(** The entity that stands for a character in an attribute value. *)
Definition html_entity (c : ascii) : string :=
  if Ascii.eqb c "&" then "&amp;"
  else if Ascii.eqb c JsString.DQUOTE then "&quot;"
  else if Ascii.eqb c "'" then "&#x27;"
  else if Ascii.eqb c "<" then "&lt;"
  else if Ascii.eqb c ">" then "&gt;"
  else String c "".

(** A value with each of the five characters replaced by its entity. *)
Fixpoint escaped (s : string) : string :=
  match s with
  | EmptyString => ""
  | String c r => html_entity c ++ escaped r
  end.

(** An attribute as the reverse transcoder writes it. *)
Definition written_attribute (name : string) (value : jsval) : string :=
  " " ++ JsString.keep is_name_char name ++ "=" ++ JsString.dquote
      ++ escaped (Js.ToString value) ++ JsString.dquote.

End Spec.


(** ** The persisted form of a block tree *)

(** The shape that the specification gives to a persisted block: an object
    named ['universal/element'] whose [attributes] is an object with a
    string (or absent) [tagName] and an object (or absent) [globalAttrs],
    and whose [innerBlocks] is an array of entries of the same shape. *)
Inductive block_schema : jsval -> Prop :=
| schema_block (props attrs : list (string * jsval)) (inner : list jsval) :
    Js.lookup "name" props = JStr "universal/element" ->
    Js.lookup "attributes" props = JObj attrs ->
    (Js.lookup "tagName" attrs = JUndefined \/ exists t, Js.lookup "tagName" attrs = JStr t) ->
    (Js.lookup "globalAttrs" attrs = JUndefined
     \/ exists g, Js.lookup "globalAttrs" attrs = JObj g) ->
    Js.lookup "innerBlocks" props = JArr inner ->
    blocks_schema inner ->
    block_schema (JObj props)
with blocks_schema : list jsval -> Prop :=
| schema_nil : blocks_schema []
| schema_cons (b : jsval) (rest : list jsval) :
    block_schema b -> blocks_schema rest -> blocks_schema (b :: rest).

Scheme block_schema_mut := Induction for block_schema Sort Prop
  with blocks_schema_mut := Induction for blocks_schema Sort Prop.


(** ** Attribute emission *)

Module Emission.

(** The [class] attribute, for a class name that is present. *)
Definition written_class (className : jsval) : string :=
  match className with
  | JStr EmptyString => ""
  | JStr s => " class=" ++ JsString.dquote ++ Spec.escaped s ++ JsString.dquote
  | _ => ""
  end.

(** Reading "every entry of the attributes map" literally. *)
Definition every_entry (className : jsval) (entries : list (string * jsval)) : string :=
  written_class className
  ++ String.concat "" (List.map (fun e => Spec.written_attribute (fst e) (snd e)) entries).

(** The entries that are written: a non-empty name, and a value that is
    neither [undefined] nor the empty string. *)
Definition emitted (entry : string * jsval) : bool :=
  negb (fst entry =? "")
  && match snd entry with
     | JUndefined => false
     | JStr EmptyString => false
     | _ => true
     end.

Definition emitted_entries (className : jsval) (entries : list (string * jsval)) : string :=
  every_entry className (List.filter emitted entries).

End Emission.


(** ** Sample blocks *)

Module Sample.

(** [<button disabled>] as a block: the attribute has the empty value. *)
Definition disabled_button : jsval :=
  JObj [ ("name", JStr "universal/element");
         ("attributes",
          JObj [ ("tagName", JStr "button");
                 ("contentType", JStr "empty");
                 ("selfClosing", JBool false);
                 ("globalAttrs", JObj [ ("disabled", JStr "") ]) ]);
         ("innerBlocks", JArr []) ].

(** A link whose class and attributes need escaping and filtering. *)
Definition escaped_link_attrs : list (string * jsval) :=
  [ ("tagName", JStr "a");
    ("contentType", JStr "text");
    ("content", JStr "go");
    ("selfClosing", JBool false);
    ("globalAttrs", JObj [ ("data x", JStr "1<2"); ("title", JStr ""); ("href", JStr "?a&b") ]);
    ("className", JStr "x&y") ].

Definition escaped_link : jsval :=
  JObj [ ("name", JStr "universal/element");
         ("attributes", JObj escaped_link_attrs);
         ("innerBlocks", JArr []) ].

(** An element block that lost its [attributes]. *)
Definition no_attributes : jsval :=
  JObj [ ("name", JStr "universal/element"); ("innerBlocks", JArr []) ].

(** A heading with text. *)
Definition heading_attrs : list (string * jsval) :=
  [ ("tagName", JStr "h1"); ("contentType", JStr "text"); ("content", JStr "Hi");
    ("selfClosing", JBool false); ("globalAttrs", JObj []) ].

Definition heading : jsval :=
  JObj [ ("name", JStr "universal/element");
         ("attributes", JObj heading_attrs);
         ("innerBlocks", JArr []) ].

End Sample.

(** ** The condition of the markup serializer *)

Module Markup.

Definition empty_content (content : jsval) : Prop :=
  content = JUndefined \/ content = JStr "".

(** No inner blocks, and a content type [empty], or [text] or [html] with
    empty content. *)
Definition self_closing_condition (inner : list jsval) (contentType : string)
    (content : jsval) : Prop :=
  inner = []
  /\ (contentType = "empty"
      \/ ((contentType = "text" \/ contentType = "html") /\ empty_content content)).

End Markup.


(** ** The fields of a Block Node *)

Module Block.

Definition attributes (block : jsval) : jsval := Js.get_opt block "attributes".
Definition innerBlocks (block : jsval) : jsval := Js.get_opt block "innerBlocks".
Definition tagName (block : jsval) : jsval := Js.get_opt (attributes block) "tagName".
Definition contentType (block : jsval) : jsval := Js.get_opt (attributes block) "contentType".
Definition content (block : jsval) : jsval := Js.get_opt (attributes block) "content".
Definition selfClosing (block : jsval) : jsval := Js.get_opt (attributes block) "selfClosing".
Definition globalAttrs (block : jsval) : jsval := Js.get_opt (attributes block) "globalAttrs".
Definition className (block : jsval) : jsval := Js.get_opt (attributes block) "className".

(** A property of every node of a block tree. *)
Inductive every_node (P : jsval -> Prop) : jsval -> Prop :=
| every_node_intro (block : jsval) (inner : list jsval) :
    P block ->
    innerBlocks block = JArr inner ->
    Forall (every_node P) inner ->
    every_node P block.

(** The content payload is not empty. *)
Definition has_content (block : jsval) : Prop :=
  content block <> JUndefined /\ content block <> JStr "".

(** There are child blocks. *)
Definition has_children (block : jsval) : Prop :=
  exists b rest, innerBlocks block = JArr (b :: rest).

(** Payload exclusivity. *)
Definition payload_exclusive (block : jsval) : Prop :=
  (has_content block -> contentType block = JStr "text" \/ contentType block = JStr "html")
  /\ (has_children block -> contentType block = JStr "blocks")
  /\ ~ (has_content block /\ has_children block).

(** Two trees that differ in the [clientId] of their nodes only. *)
Inductive same_but_id : jsval -> jsval -> Prop :=
| same_block (id1 id2 name : string) (attrs : jsval) (inner1 inner2 : list jsval) :
    same_but_id_list inner1 inner2 ->
    same_but_id (blockObject id1 name attrs inner1) (blockObject id2 name attrs inner2)
with same_but_id_list : list jsval -> list jsval -> Prop :=
| same_nil : same_but_id_list [] []
| same_cons (b1 b2 : jsval) (l1 l2 : list jsval) :
    same_but_id b1 b2 -> same_but_id_list l1 l2 ->
    same_but_id_list (b1 :: l1) (b2 :: l2).

Scheme same_but_id_mut := Induction for same_but_id Sort Prop
  with same_but_id_list_mut := Induction for same_but_id_list Sort Prop.

(** Two runs on the same node: both return no block, or two blocks that
    differ in their identifiers only. *)
Definition agree (o1 o2 : option jsval) : Prop :=
  match o1, o2 with
  | Some b1, Some b2 => same_but_id b1 b2
  | None, None => True
  | _, _ => False
  end.

(** The block of a node, if any, as a sequence. *)
Definition as_list (o : option jsval) : list jsval :=
  match o with Some b => [b] | None => [] end.

End Block.

(** ** The children of an element, as the specification classifies them *)

Module Children.

Definition is_element (n : node) : Prop :=
  exists tag attrs cs, n = Element tag attrs cs.

Definition has_element (children : list node) : Prop :=
  exists c, In c children /\ is_element c.

Definition has_text (children : list node) : Prop :=
  exists data, In (Text data) children /\ JsString.trim data <> "".

End Children.

(** The tags with an entry in the Tag Policy Table. *)
Definition policyTags : list string := ["set"; "loop"; "if"].

(** The first child of the body that an HTML parser builds for
    [<div><p></p></div>], as a parser that knows this document only. *)
Definition paragraph_document (text : string) : option node :=
  Some (Element "DIV" [] [Element "P" [] []]).


(** ** The self-closing form of a dynamic tag *)

Module SetTag.

(** [<set a="b" />], [<set a="b"></set>] and what the first is rewritten to. *)
Definition self_closing : string :=
  "<set a=" ++ JsString.dquote ++ "b" ++ JsString.dquote ++ " />".
Definition explicit : string :=
  "<set a=" ++ JsString.dquote ++ "b" ++ JsString.dquote ++ "></set>".
Definition rewritten : string :=
  "<set a=" ++ JsString.dquote ++ "b" ++ JsString.dquote ++ " ></set>".

(** The element that an HTML parser builds for the last two. *)
Definition element : node := Element "SET" [("a", "b")] [].

(** A parser that knows these documents only. *)
Definition parser (text : string) : option node :=
  Some (Element "DIV" [] [element]).

End SetTag.

Fixpoint all_chars (p : ascii -> bool) (s : string) : bool :=
  match s with
  | EmptyString => true
  | String c r => p c && all_chars p r
  end.

Definition no_char (c : ascii) (s : string) : bool :=
  all_chars (fun x => negb (Ascii.eqb x c)) s.

Definition starts_with_word (s : string) : bool :=
  match s with
  | EmptyString => false
  | String c _ => JsString.is_word c
  end.

(** The first [>] of a text is there, and does not end a [/>]. *)
Fixpoint plain_close (s : string) : bool :=
  match s with
  | EmptyString => false
  | String c r =>
      if Ascii.eqb c ">" then true
      else if Ascii.eqb c "/" && (match r with
                                  | String d _ => Ascii.eqb d ">"
                                  | EmptyString => false
                                  end)
           then false
           else plain_close r
  end.

(** A text in which every [<] opens a tag that is not in self-closing form. *)
Fixpoint tags_closed (s : string) : bool :=
  match s with
  | EmptyString => true
  | String c r => (if Ascii.eqb c "<" then plain_close r else true) && tags_closed r
  end.

(** ** Documents, and the text that denotes them *)

Module Doc.

(** The structure of an element-only document: tag names, attributes and
    nesting. *)
Inductive shape : Type :=
| Shape (tag : string) (attrs : list (string * string)) (children : list shape).

(** The same tag names, the same attribute sets and the same nesting. *)
Inductive same_structure : shape -> shape -> Prop :=
| same_shape (tag : string) (attrs1 attrs2 : list (string * string))
    (children1 children2 : list shape) :
    Permutation attrs1 attrs2 ->
    Forall2 same_structure children1 children2 ->
    same_structure (Shape tag attrs1 children1) (Shape tag attrs2 children2).

(** The structure of a DOM forest: its elements, under their lower-case
    names; text nodes and comments are left out. *)
Fixpoint structure (n : node) : list shape :=
  match n with
  | Element tag attrs cs =>
      [Shape (JsString.toLowerCase tag) attrs (List.flat_map structure cs)]
  | _ => []
  end.

Definition structures (nodes : list node) : list shape :=
  List.flat_map structure nodes.

(** An attribute name of the character class [[A-Za-z0-9_-]], other than
    [style]. *)
Definition plain_name (name : string) : Prop :=
  name <> "" /\ all_chars is_name_char name = true /\ name <> "style".

(** A plain attribute whose value is kept: the name is not [__proto__]
    either, and the value is not empty. *)
Definition kept_attribute (attr : string * string) : Prop :=
  plain_name (fst attr) /\ fst attr <> "__proto__" /\ snd attr <> "".

(** An element-only document built from container tags: container elements
    with attributes of distinct names that satisfy [P], white space
    between them, and nothing else. *)
Inductive simple (P : string * string -> Prop) : node -> Prop :=
| simple_space (data : string) :
    JsString.trim data = "" -> simple P (Text data)
| simple_element (tag : string) (attrs : list (string * string)) (cs : list node) :
    In (JsString.toLowerCase tag) containerElements ->
    Forall P attrs ->
    NoDup (List.map fst attrs) ->
    Forall (simple P) cs ->
    simple P (Element tag attrs cs).

(** *** Reading the text of an element-only document *)

Fixpoint span (p : ascii -> bool) (s : string) : string * string :=
  match s with
  | EmptyString => ("", "")
  | String c r =>
      if p c then let (taken, rest) := span p r in (String c taken, rest)
      else ("", s)
  end.

Fixpoint strip_prefix (p s : string) : option string :=
  match p with
  | EmptyString => Some s
  | String c p' =>
      match s with
      | String d s' => if Ascii.eqb c d then strip_prefix p' s' else None
      | EmptyString => None
      end
  end.

Definition starts_with (p s : string) : bool :=
  match strip_prefix p s with Some _ => true | None => false end.

(** The value that an escaped attribute value stands for: the five
    entities are decoded.  [skip] counts the characters of the entity at
    hand that are still to be passed over. *)
Fixpoint decode (skip : nat) (s : string) : string :=
  match s with
  | EmptyString => ""
  | String c r =>
      match skip with
      | S k => decode k r
      | O =>
          if starts_with "&amp;" s then String "&" (decode 4 r)
          else if starts_with "&quot;" s then String JsString.DQUOTE (decode 5 r)
          else if starts_with "&#x27;" s then String "'" (decode 5 r)
          else if starts_with "&lt;" s then String "<" (decode 3 r)
          else if starts_with "&gt;" s then String ">" (decode 3 r)
          else String c (decode 0 r)
      end
  end.

(** The attributes of a start tag, each written as a space, a name, an
    equals sign and a double-quoted value, up to the closing [>]. *)
Fixpoint read_attributes (fuel : nat) (s : string)
  : option (list (string * string) * string) :=
  match fuel with
  | O => None
  | S fuel' =>
      match s with
      | EmptyString => None
      | String c r =>
          if Ascii.eqb c ">" then Some ([], r)
          else if Ascii.eqb c " " then
            let (name, r1) := span is_name_char r in
            if name =? "" then None
            else match strip_prefix ("=" ++ JsString.dquote) r1 with
                 | Some r2 =>
                     let (raw, r3) :=
                       span (fun x => negb (Ascii.eqb x JsString.DQUOTE)) r2 in
                     match r3 with
                     | String _ r4 =>
                         match read_attributes fuel' r4 with
                         | Some (attrs, rest) => Some ((name, decode 0 raw) :: attrs, rest)
                         | None => None
                         end
                     | EmptyString => None
                     end
                 | None => None
                 end
          else None
      end
  end.

(** A sequence of elements, each a start tag, the elements within, and the
    matching end tag; up to the end of the text or to an end tag. *)
Fixpoint read_forest (fuel : nat) (s : string) : option (list shape * string) :=
  match fuel with
  | O => None
  | S fuel' =>
      match s with
      | EmptyString => Some ([], s)
      | String c r =>
          if negb (Ascii.eqb c "<") then None
          else if starts_with "/" r then Some ([], s)
          else
            let (name, r1) := span is_name_char r in
            if name =? "" then None
            else match read_attributes fuel' r1 with
                 | Some (attrs, r2) =>
                     match read_forest fuel' r2 with
                     | Some (children, r3) =>
                         match strip_prefix ("</" ++ name ++ ">") r3 with
                         | Some r4 =>
                             match read_forest fuel' r4 with
                             | Some (siblings, r5) =>
                                 Some (Shape name attrs children :: siblings, r5)
                             | None => None
                             end
                         | None => None
                         end
                     | None => None
                     end
                 | None => None
                 end
      end
  end.

(** The document that a text denotes, when it is a sequence of elements
    with double-quoted attributes and nothing else. *)
Definition readHTML (s : string) : option (list shape) :=
  match read_forest (S (String.length s)) s with
  | Some (forest, EmptyString) => Some forest
  | _ => None
  end.

(** *** Writing a document *)

Definition write_attribute (attr : string * string) : string :=
  " " ++ fst attr ++ "=" ++ JsString.dquote ++ Spec.escaped (snd attr) ++ JsString.dquote.

Fixpoint write (s : shape) : string :=
  match s with
  | Shape tag attrs children =>
      "<" ++ tag ++ String.concat "" (List.map write_attribute attrs) ++ ">"
          ++ String.concat "" (List.map write children)
          ++ "</" ++ tag ++ ">"
  end.

Definition write_forest (forest : list shape) : string :=
  String.concat "" (List.map write forest).

(** The attributes in the order in which the reverse transcoder writes
    them: the class first, then the entries of [globalAttrs]. *)
Definition attributes_of (className : string) (globalAttrs : list (string * jsval)) :=
  ((if className =? "" then [] else [("class", className)])
   ++ List.map (fun e => (fst e, Js.ToString (snd e))) globalAttrs)%list.

Definition written_attributes (attrs : list (string * string)) : list (string * string) :=
  attributes_of (fst (extractAttributes attrs)) (snd (extractAttributes attrs)).

(** An entry of [globalAttrs] that is written as it is. *)
Definition written_as_is (entry : string * jsval) : Prop :=
  fst entry <> "" /\ all_chars is_name_char (fst entry) = true
  /\ exists v, snd entry = JStr v /\ v <> "".

(** The structure of a DOM forest with the attributes in that order. *)
Fixpoint written_structure (n : node) : list shape :=
  match n with
  | Element tag attrs cs =>
      [Shape (JsString.toLowerCase tag) (written_attributes attrs)
         (List.flat_map written_structure cs)]
  | _ => []
  end.

(** Names and values that can be read back. *)
Inductive readable : shape -> Prop :=
| readable_shape (tag : string) (attrs : list (string * string)) (children : list shape) :
    tag <> "" -> all_chars is_name_char tag = true ->
    Forall (fun a => fst a <> "" /\ all_chars is_name_char (fst a) = true) attrs ->
    readable_forest children ->
    readable (Shape tag attrs children)
with readable_forest : list shape -> Prop :=
| readable_nil : readable_forest []
| readable_cons (s : shape) (rest : list shape) :
    readable s -> readable_forest rest -> readable_forest (s :: rest).

(** The text after the elements of a forest: nothing, or an end tag. *)
Definition at_end (rest : string) : Prop :=
  rest = "" \/ starts_with "</" rest = true.

(** [<button disabled>] *)
Definition disabled_button : node := Element "BUTTON" [("disabled", "")] [].

Definition disabled_button_parser (text : string) : option node :=
  Some (Element "DIV" [] [disabled_button]).

(** A section with a class and an attribute, around two nested lists. *)
Definition nested_lists : node :=
  Element "SECTION" [("id", "a<b"); ("class", "hero &co")]
    [ Text " ";
      Element "UL" [("data-n", "1")] [Element "LI" [] []; Element "LI" [] []];
      Element "UL" [] [] ].

Definition nested_lists_text : string :=
  "<section id=" ++ JsString.dquote ++ "a&lt;b" ++ JsString.dquote
  ++ " class=" ++ JsString.dquote ++ "hero &amp;co" ++ JsString.dquote
  ++ "> <ul data-n=" ++ JsString.dquote ++ "1" ++ JsString.dquote
  ++ "><li></li><li></li></ul><ul></ul></section>".

Definition nested_lists_parser (text : string) : option node :=
  Some (Element "DIV" [] [nested_lists]).

End Doc.

(* ===================================================================== *)
(** * Notions for the further properties *)
(* ===================================================================== *)

Module Uuid.

Definition is_hex (c : ascii) : bool :=
  JsString.between 48 57 c || JsString.between 97 102 c.

(** The digits [8], [9], [a] and [b]. *)
Definition is_variant (c : ascii) : bool :=
  Ascii.eqb c "8" || Ascii.eqb c "9" || Ascii.eqb c "a" || Ascii.eqb c "b".

(** A text that follows a template: a hexadecimal digit for each [x], a
    variant digit for each [y], and the character of the template elsewhere. *)
Fixpoint fits (template out : string) : bool :=
  match template, out with
  | EmptyString, EmptyString => true
  | String t template', String o out' =>
      (if Ascii.eqb t "x" then is_hex o
       else if Ascii.eqb t "y" then is_variant o
       else Ascii.eqb t o)
      && fits template' out'
  | _, _ => false
  end.

(** The number of draws that a template takes. *)
Fixpoint draws (template : string) : nat :=
  match template with
  | EmptyString => 0
  | String t template' =>
      (if Ascii.eqb t "x" || Ascii.eqb t "y" then 1 else 0) + draws template'
  end.

End Uuid.

Module Outline.

(** The tag names of the blocks of a sequence of nodes: the lower-case name
    of each element, [p] for each text that is not white space. *)
Definition block_tags (nodes : list node) : list jsval :=
  List.flat_map
    (fun c => match c with
              | Element tag _ _ => [JStr (JsString.toLowerCase tag)]
              | Text data => if JsString.trim data =? "" then [] else [JStr "p"]
              | Comment _ => []
              end) nodes.

End Outline.

Module Serial.

(** The tags that the reverse transcoder writes in self-closing form for a
    block of the forward transcoder: [set], by its policy, and the void
    elements. *)
Definition self_closing_tag (t : string) : bool :=
  (t =? "set") || includes voidElements t.

Section Serialize.

Variable innerHTML : node -> string.

(** The compact text of a DOM node after the two transcoders. *)
Fixpoint serialize (nd : node) : string :=
  match nd with
  | Text data =>
      if JsString.trim data =? "" then ""
      else "<p>" ++ JsString.trim data ++ "</p>"
  | Comment _ => ""
  | Element tag attrs cs =>
      let t := JsString.toLowerCase tag in
      let className := fst (extractAttributes attrs) in
      let written :=
        Emission.emitted_entries
          (if className =? "" then JUndefined else JStr className)
          (snd (extractAttributes attrs)) in
      if self_closing_tag t then "<" ++ t ++ written ++ " />"
      else
        "<" ++ t ++ written ++ ">"
        ++ (if t =? "svg" then innerHTML nd
            else if hasChildElements nd then
                   if includes containerElements t
                   then String.concat "" (List.map serialize cs)
                   else innerHTML nd
            else if hasTextContent nd then Dom.textContent nd
            else "")
        ++ "</" ++ t ++ ">"
  end.

End Serialize.

End Serial.

Module Chars.

(** The two characters of a text, somewhere in it. *)
Fixpoint contains2 (a b : ascii) (s : string) : bool :=
  match s with
  | EmptyString => false
  | String c r =>
      (Ascii.eqb c a && match r with
                        | String d _ => Ascii.eqb d b
                        | EmptyString => false
                        end)
      || contains2 a b r
  end.

(** The characters that end or open something inside an attribute value
    or in markup. *)
Definition delimiters : list ascii := [JsString.DQUOTE; "'"; "<"; ">"]%char.

End Chars.

Module Stamp.

Definition content_types : list jsval :=
  [JStr "empty"; JStr "text"; JStr "html"; JStr "blocks"].

Definition uiState (block : jsval) : jsval :=
  Js.get_opt (Block.attributes block) "uiState".

(** What every block that [createBlock] returns for a DOM node carries,
    besides its payload. *)
Definition well_formed (block : jsval) : Prop :=
  Js.get_opt block "name" = JStr "universal/element"
  /\ Js.get_opt block "isValid" = JBool true
  /\ (exists id,
        Js.get_opt block "clientId" = JStr id
        /\ Uuid.fits "xxxxxxxx-xxxx-4xxx-yxxx-xxxxxxxxxxxx" id = true)
  /\ (exists t,
        Block.tagName block = JStr t
        /\ JsString.toLowerCase t = t
        /\ Js.get_opt (Block.attributes block) "blockName"
           = JStr (JsString.toUpperCase (JsString.charAt0 t) ++ JsString.slice1 t)
        /\ Js.get_opt (uiState block) "selectedTagName" = JStr t)
  /\ Js.get_opt (Block.attributes block) "category" = JStr "custom"
  /\ Js.get_opt (uiState block) "tagCategory" = JStr "custom"
  /\ In (Block.contentType block) content_types
  /\ Js.get_opt (uiState block) "selectedContentType" = Block.contentType block
  /\ (exists b, Block.selfClosing block = JBool b).

End Stamp.

Module Resolve.

(** The form in which [blockToHTML] writes an element: the policy of the
    tag when it has one, else the stored flag or the void elements. *)
Definition self_closing (tag : string) (stored : jsval) : bool :=
  let name := JsString.toLowerCase tag in
  if name =? "set" then true
  else if (name =? "loop") || (name =? "if") then false
  else Js.truthy stored || includes voidElements name.

(** A [loop] block that is stored as self-closing. *)
Definition flagged_loop : jsval :=
  JObj [ ("name", JStr "universal/element");
         ("attributes",
          JObj [ ("tagName", JStr "Loop");
                 ("contentType", JStr "text");
                 ("content", JStr "x");
                 ("selfClosing", JBool true);
                 ("globalAttrs", JObj [("source", JStr "posts")]) ]);
         ("innerBlocks", JArr []) ].

End Resolve.

Module Normal.

Section Normal.

Variable innerHTML : node -> string.

(** The content type of the block of an element with the lower-case name
    [t], in closed form. *)
Definition content_type (nd : node) (t : string) : string :=
  if Serial.self_closing_tag t then "empty"
  else if t =? "svg" then "html"
  else if hasChildElements nd then
         if includes containerElements t then "blocks" else "html"
  else if hasTextContent nd then "text"
  else "empty".

(** The content that goes with it. *)
Definition content (nd : node) (t : string) : string :=
  if Serial.self_closing_tag t then ""
  else if t =? "svg" then innerHTML nd
  else if hasChildElements nd then
         if includes containerElements t then "" else innerHTML nd
  else if hasTextContent nd then Dom.textContent nd
  else "".

(** The attributes of the block of a node. *)
Definition attributes (nd : node) : jsval :=
  match nd with
  | Text data => textBlockAttributes (JsString.trim data)
  | Comment _ => JUndefined
  | Element tag attrs _ =>
      let t := JsString.toLowerCase tag in
      blockAttributes t (JStr (content_type nd t)) (JBool (Serial.self_closing_tag t))
        (snd (extractAttributes attrs)) (fst (extractAttributes attrs)) (content nd t)
  end.

Variable JSON_stringify : jsval -> string.

(** The block markup of a DOM node after the forward transcoder and the
    markup serializer: no text, or the text of one block. *)
Fixpoint markup (indent : nat) (nd : node) {struct nd} : list string :=
  let indentStr := JsString.repeat "    " indent in
  let json := JSON_stringify (blockAttrs (attributes nd)) in
  match nd with
  | Text data =>
      if JsString.trim data =? "" then []
      else [indentStr ++ wpOpen json ++ wpClose]
  | Comment _ => []
  | Element tag _ cs =>
      let t := JsString.toLowerCase tag in
      if content_type nd t =? "blocks" then
        [indentStr ++ wpOpen json ++ JsString.newline
         ++ JsString.join JsString.newline (List.flat_map (markup (indent + 1)) cs)
         ++ JsString.newline ++ indentStr ++ wpClose]
      else if (content_type nd t =? "empty") || (content nd t =? "") then
        [indentStr ++ wpSelfClosing json]
      else [indentStr ++ wpOpen json ++ wpClose]
  end.

End Normal.

End Normal.

(** ** The blocks of the child nodes, in document order *)

Module InOrder.

Section InOrder.

(** The transcoder of one node: no block or one block, and the state of the
    random source after it. *)
Variable transcode : node -> Rand (option jsval).

(** [blocks_of nodes n blocks n']: [blocks] holds the block of each node of
    [nodes] that has one, once each, in the order of the nodes; every node
    is transcoded in the state that the node before it left, from [n] to
    [n']. *)
Inductive blocks_of : list node -> nat -> list jsval -> nat -> Prop :=
| blocks_of_nil (n : nat) : blocks_of [] n [] n
| blocks_of_block (child : node) (rest : list node) (n n1 n2 : nat)
    (block : jsval) (blocks : list jsval) :
    transcode child n = (Some block, n1) ->
    blocks_of rest n1 blocks n2 ->
    blocks_of (child :: rest) n (block :: blocks) n2
| blocks_of_skip (child : node) (rest : list node) (n n1 n2 : nat)
    (blocks : list jsval) :
    transcode child n = (None, n1) ->
    blocks_of rest n1 blocks n2 ->
    blocks_of (child :: rest) n blocks n2.

End InOrder.

(** A list of two items with white space between them. *)
Definition two_items : list node :=
  [ Element "LI" [] [Text "a"];
    Text (String JsString.LF "  ");
    Element "LI" [("class", "last")] [Text "b"] ].

End InOrder.

(** ** The persisted shape of a block tree *)

Definition string_or_absent (v : jsval) : Prop :=
  v = JUndefined \/ exists s, v = JStr s.

(** An entry of an attribute map whose value is a string. *)
Definition string_valued (entry : string * jsval) : Prop :=
  exists s, snd entry = JStr s.

(** An element block as the specification persists it: the attributes are
    an object in which [tagName], [className] and [content] are strings or
    absent and [globalAttrs] is absent or maps names to strings, and the
    inner blocks are an array of such blocks. *)
Inductive block_shape : jsval -> Prop :=
| shape_block (props attrs : list (string * jsval)) (inner : list jsval) :
    Js.lookup "name" props = JStr "universal/element" ->
    Js.lookup "attributes" props = JObj attrs ->
    string_or_absent (Js.lookup "tagName" attrs) ->
    string_or_absent (Js.lookup "className" attrs) ->
    string_or_absent (Js.lookup "content" attrs) ->
    (Js.lookup "globalAttrs" attrs = JUndefined
     \/ exists g, Js.lookup "globalAttrs" attrs = JObj g /\ Forall string_valued g) ->
    Js.lookup "innerBlocks" props = JArr inner ->
    blocks_shape inner ->
    block_shape (JObj props)
with blocks_shape : list jsval -> Prop :=
| shape_nil : blocks_shape []
| shape_cons (b : jsval) (rest : list jsval) :
    block_shape b -> blocks_shape rest -> blocks_shape (b :: rest).

Scheme block_shape_mut := Induction for block_shape Sort Prop
  with blocks_shape_mut := Induction for blocks_shape Sort Prop.

(** ** A container block with an empty child *)

Module Nested.

Definition rule : jsval :=
  JObj [ ("name", JStr "universal/element");
         ("attributes",
          JObj [ ("tagName", JStr "hr");
                 ("contentType", JStr "empty");
                 ("selfClosing", JBool true);
                 ("globalAttrs", JObj []) ]);
         ("innerBlocks", JArr []) ].

Definition section_attrs : list (string * jsval) :=
  [ ("tagName", JStr "section");
    ("contentType", JStr "blocks");
    ("selfClosing", JBool false);
    ("globalAttrs", JObj []) ].

Definition section : jsval :=
  JObj [ ("name", JStr "universal/element");
         ("attributes", JObj section_attrs);
         ("innerBlocks", JArr [rule; rule]) ].

(** A serializer of the attributes that prints the tag name only. *)
Definition tag_only (attributes : jsval) : string :=
  Js.ToString (Js.get_opt attributes "tagName").

End Nested.

(** ** Tags that the rewriting of self-closing tags mistakes *)

Module Slip.

(** [<set-x a="b" />]: a custom element whose name starts with [set]. *)
Definition hyphenated : string :=
  "<set-x a=" ++ JsString.dquote ++ "b" ++ JsString.dquote ++ " />".

(** What it is rewritten to. *)
Definition hyphenated_rewritten : string :=
  "<set-x a=" ++ JsString.dquote ++ "b" ++ JsString.dquote ++ " ></set>".

(** [<set value="a > b" />]: a [set] tag with a greater-than sign in an
    attribute value. *)
Definition greater_than : string :=
  "<set value=" ++ JsString.dquote ++ "a > b" ++ JsString.dquote ++ " />".

End Slip.

(* ===================================================================== *)
(** * Basic facts *)
(* ===================================================================== *)

Lemma append_nil_r (s : string) : s ++ "" = s.
Proof. induction s as [|c s IH]; simpl; [reflexivity | now rewrite IH]. Qed.

Lemma append_assoc (a b c : string) : (a ++ b) ++ c = a ++ (b ++ c).
Proof. induction a as [|x a IH]; simpl; [reflexivity | now rewrite IH]. Qed.

Lemma append_length (a b : string) :
  String.length (a ++ b) = String.length a + String.length b.
Proof. induction a as [|x a IH]; simpl; [reflexivity | now rewrite IH]. Qed.

Lemma append_inv_head (a b c : string) : a ++ b = a ++ c -> b = c.
Proof.
  induction a as [|x a IH]; simpl; intro H; [exact H|].
  injection H as H. now apply IH.
Qed.

Lemma is_str_true (lit : string) (v : jsval) :
  Js.is_str lit v = true <-> v = JStr lit.
Proof.
  destruct v; simpl; split; intro H; try discriminate.
  - apply String.eqb_eq in H. now subst.
  - injection H as ->. apply String.eqb_refl.
Qed.


Lemma mapM_app {A B} (f : A -> result B) (l1 l2 : list A) :
  mapM f (l1 ++ l2)%list =
  let* r1 := mapM f l1 in
  let* r2 := mapM f l2 in
  Ok (r1 ++ r2)%list.
Proof.
  induction l1 as [|x l1 IH]; simpl.
  - destruct (mapM f l2); reflexivity.
  - destruct (f x); simpl; [|reflexivity].
    rewrite IH. destruct (mapM f l1); simpl; [|reflexivity].
    destruct (mapM f l2); reflexivity.
Qed.

(** ** Unfolding the two recursive renderers *)

Section Unfold.

Variable textGt0 : jsval -> bool.
Variable JSON_stringify : jsval -> string.

Lemma blockToHTML_JObj (pretty : bool) (props : list (string * jsval)) :
  blockToHTML textGt0 pretty (JObj props) =
  if Js.is_str "universal/element" (Js.lookup "name" props) then
    elementToHTML textGt0 pretty (Js.lookup "attributes" props)
      (Js.lookup "innerBlocks" props)
      (parseBlocksToHTML textGt0 pretty (Js.lookup "innerBlocks" props))
  else fun _ => Ok "".
Proof.
  cbn [blockToHTML].
  destruct (Js.is_str "universal/element" (Js.lookup "name" props)); [|reflexivity].
  f_equal.
  induction props as [|[k v] rest IH]; [reflexivity|].
  cbn [Js.lookup]. destruct ("innerBlocks" =? k); [|exact IH].
  destruct v; reflexivity.
Qed.

Lemma blockToWPMarkup_JObj (props : list (string * jsval)) :
  blockToWPMarkup textGt0 JSON_stringify (JObj props) =
  if Js.is_str "universal/element" (Js.lookup "name" props) then
    elementToWPMarkup textGt0 JSON_stringify (Js.lookup "attributes" props)
      (Js.lookup "innerBlocks" props)
      (parseBlocksToWPMarkup textGt0 JSON_stringify (Js.lookup "innerBlocks" props))
  else fun _ => Ok "".
Proof.
  cbn [blockToWPMarkup].
  destruct (Js.is_str "universal/element" (Js.lookup "name" props)); [|reflexivity].
  f_equal.
  induction props as [|[k v] rest IH]; [reflexivity|].
  cbn [Js.lookup]. destruct ("innerBlocks" =? k); [|exact IH].
  destruct v; reflexivity.
Qed.




End Unfold.


(* ===================================================================== *)
(** * C10: entries that are not element blocks *)
(* ===================================================================== *)




(* ===================================================================== *)
(** * Escaping *)
(* ===================================================================== *)

Lemma replaceAll_app (c : ascii) (by_ a b : string) :
  JsString.replaceAll c by_ (a ++ b) =
  JsString.replaceAll c by_ a ++ JsString.replaceAll c by_ b.
Proof.
  induction a as [|x a IH]; simpl; [reflexivity|].
  destruct (Ascii.eqb x c); simpl; rewrite IH; [|reflexivity].
  now rewrite append_assoc.
Qed.

Lemma replaceAll_cons_other (c x : ascii) (by_ s : string) :
  Ascii.eqb x c = false ->
  JsString.replaceAll c by_ (String x s) = String x (JsString.replaceAll c by_ s).
Proof. intro H. simpl. now rewrite H. Qed.

(** The five successive replacements of [escapeAttribute] amount to
    replacing each character by its entity: a replacement never touches the
    entities written by the replacements before it. *)
Lemma escapeAttribute_string (s : string) :
  escapeAttribute (JStr s) = Spec.escaped s.
Proof.
  unfold escapeAttribute.
  induction s as [|c s IH]; [reflexivity|].
  cbn [Spec.escaped]. unfold Spec.html_entity.
  destruct (Ascii.eqb c "&") eqn:E1.
  { apply Ascii.eqb_eq in E1; subst c.
    change (JsString.replaceAll "&" "&amp;" (String "&" s))
      with ("&amp;" ++ JsString.replaceAll "&" "&amp;" s).
    rewrite !replaceAll_app. rewrite IH. reflexivity. }
  rewrite (replaceAll_cons_other _ _ _ _ E1).
  destruct (Ascii.eqb c JsString.DQUOTE) eqn:E2.
  { apply Ascii.eqb_eq in E2; subst c.
    change (JsString.replaceAll JsString.DQUOTE "&quot;"
              (String JsString.DQUOTE (JsString.replaceAll "&" "&amp;" s)))
      with ("&quot;" ++ JsString.replaceAll JsString.DQUOTE "&quot;"
                          (JsString.replaceAll "&" "&amp;" s)).
    rewrite !replaceAll_app. rewrite IH. reflexivity. }
  rewrite (replaceAll_cons_other _ _ _ _ E2).
  destruct (Ascii.eqb c "'") eqn:E3.
  { apply Ascii.eqb_eq in E3; subst c.
    match goal with
    | |- context [JsString.replaceAll "'" "&#x27;" (String "'" ?r)] =>
        change (JsString.replaceAll "'" "&#x27;" (String "'" r))
          with ("&#x27;" ++ JsString.replaceAll "'" "&#x27;" r)
    end.
    rewrite !replaceAll_app. rewrite IH. reflexivity. }
  rewrite (replaceAll_cons_other _ _ _ _ E3).
  destruct (Ascii.eqb c "<") eqn:E4.
  { apply Ascii.eqb_eq in E4; subst c.
    match goal with
    | |- context [JsString.replaceAll "<" "&lt;" (String "<" ?r)] =>
        change (JsString.replaceAll "<" "&lt;" (String "<" r))
          with ("&lt;" ++ JsString.replaceAll "<" "&lt;" r)
    end.
    rewrite !replaceAll_app. rewrite IH. reflexivity. }
  rewrite (replaceAll_cons_other _ _ _ _ E4).
  destruct (Ascii.eqb c ">") eqn:E5.
  { apply Ascii.eqb_eq in E5; subst c.
    match goal with
    | |- context [JsString.replaceAll ">" "&gt;" (String ">" ?r)] =>
        change (JsString.replaceAll ">" "&gt;" (String ">" r))
          with ("&gt;" ++ JsString.replaceAll ">" "&gt;" r)
    end.
    rewrite IH. reflexivity. }
  rewrite (replaceAll_cons_other _ _ _ _ E5).
  rewrite IH. reflexivity.
Qed.

Lemma escapeAttribute_escaped (v : jsval) :
  escapeAttribute v = Spec.escaped (Js.ToString v).
Proof.
  rewrite <- escapeAttribute_string. destruct v; reflexivity.
Qed.


(* ===================================================================== *)
(** * C5: the attributes of the reverse transcoder *)
(* ===================================================================== *)

Lemma concat_empty_cons (x : string) (l : list string) :
  String.concat "" (x :: l) = x ++ String.concat "" l.
Proof. destruct l; simpl; [now rewrite append_nil_r | reflexivity]. Qed.

Lemma globalAttribute_emitted (entry : string * jsval) :
  globalAttribute entry =
  if Emission.emitted entry then Spec.written_attribute (fst entry) (snd entry) else "".
Proof.
  destruct entry as [name value]. unfold globalAttribute, Emission.emitted.
  cbn [fst snd Js.truthy]. destruct (name =? ""); [reflexivity|].
  unfold Spec.written_attribute, escapeAttributeName.
  rewrite escapeAttribute_escaped.
  destruct value as [| | | |s| |]; try reflexivity.
  destruct s; reflexivity.
Qed.

Lemma globalAttributes_emitted (entries : list (string * jsval)) :
  String.concat "" (List.map globalAttribute entries) =
  String.concat ""
    (List.map (fun e => Spec.written_attribute (fst e) (snd e))
       (List.filter Emission.emitted entries)).
Proof.
  induction entries as [|e entries IH]; [reflexivity|].
  cbn [List.map List.filter]. rewrite concat_empty_cons, IH, globalAttribute_emitted.
  destruct (Emission.emitted e); [|reflexivity].
  cbn [List.map]. now rewrite concat_empty_cons.
Qed.

Lemma classAttribute_written (className : jsval) :
  className = JUndefined \/ (exists s, className = JStr s) ->
  classAttribute (Js.default (JStr "") className) = Emission.written_class className.
Proof.
  intros [-> | [s ->]]; [reflexivity|].
  unfold classAttribute. rewrite escapeAttribute_escaped.
  destruct s; reflexivity.
Qed.

(** C5, as the code has it.  For an element block whose [tagName] is a
    string, whose [globalAttrs] is an object and whose [className] is a
    string or absent, [blockToHTML] either propagates an exception of an
    inner block, or writes, after the tag name, the [class] attribute when
    the class name is not empty and then, in mapping order, every entry of
    [globalAttrs] that has a non-empty name and a value other than
    [undefined] and the empty string; a value is written with each of the
    ampersand, the double quote, the apostrophe, the less-than and the
    greater-than sign replaced by its entity, and a name with the
    characters outside of [[A-Za-z0-9_-]] dropped. *)
Theorem C5_attributes_as_emitted
    (textGt0 : jsval -> bool) (pretty : bool) (indent : nat)
    (block attributes innerBlocks : jsval)
    (attrs globalAttrs : list (string * jsval)) (tag : string) :
  Spec.element_block block attributes innerBlocks ->
  attributes = JObj attrs ->
  Js.lookup "tagName" attrs = JStr tag ->
  Js.lookup "globalAttrs" attrs = JObj globalAttrs ->
  (Js.lookup "className" attrs = JUndefined
   \/ exists s, Js.lookup "className" attrs = JStr s) ->
  (exists e, blockToHTML textGt0 pretty block indent = Throw e)
  \/ exists rest,
       blockToHTML textGt0 pretty block indent =
       Ok ((if pretty then JsString.repeat "  " indent else "")
           ++ "<" ++ tag
           ++ Emission.emitted_entries (Js.lookup "className" attrs) globalAttrs
           ++ rest)
       /\ (rest = " />" \/ exists inner, rest = ">" ++ inner ++ "</" ++ tag ++ ">").
Proof.
  intros (props & -> & Hname & Hattrs & Hinner) -> Htag Hglobal Hclass.
  rewrite blockToHTML_JObj, Hname. cbn [Js.is_str]. rewrite String.eqb_refl.
  rewrite Hattrs, Hinner. unfold elementToHTML.
  cbn [Js.get Js.get_opt bind]. rewrite Htag, Hglobal.
  cbn [Js.default Js.entries Js.own_props bind].
  rewrite (classAttribute_written _ Hclass), globalAttributes_emitted.
  fold (Emission.every_entry (Js.lookup "className" attrs)
          (List.filter Emission.emitted globalAttrs)).
  fold (Emission.emitted_entries (Js.lookup "className" attrs) globalAttrs).
  match goal with
  | |- context [bind ?m _] => destruct m as [innerContent | e]
  end; [|left; now exists e].
  right. cbn [bind].
  match goal with
  | |- context [if Js.truthy ?sc then _ else _] => destruct (Js.truthy sc)
  end.
  - exists " />". split; [reflexivity | now left].
  - exists (">" ++ innerContent ++ "</" ++ tag ++ ">").
    split; [reflexivity | right; now exists innerContent].
Qed.

(** C5 as stated fails on an attribute with the empty value: the entry
    [disabled] of the attributes map of [<button disabled>] is not
    written, where the claim has every entry of the map written. *)
Lemma C5_counterexample :
  blockToHTML (fun _ => false) false Sample.disabled_button 0 = Ok "<button></button>"
  /\ Emission.every_entry JUndefined [("disabled", JStr "")]
     = " disabled=" ++ JsString.dquote ++ JsString.dquote
  /\ blockToHTML (fun _ => false) false Sample.disabled_button 0
     <> Ok ("<button" ++ Emission.every_entry JUndefined [("disabled", JStr "")]
            ++ "></button>").
Proof.
  split; [reflexivity|]. split; [reflexivity|].
  intro H. vm_compute in H. discriminate H.
Qed.

Lemma C5_witness :
  (exists e, blockToHTML (fun _ => false) false Sample.escaped_link 0 = Throw e)
  \/ exists rest,
       blockToHTML (fun _ => false) false Sample.escaped_link 0 =
       Ok ("" ++ "<" ++ "a"
           ++ Emission.emitted_entries (JStr "x&y")
                [ ("data x", JStr "1<2"); ("title", JStr ""); ("href", JStr "?a&b") ]
           ++ rest)
       /\ (rest = " />" \/ exists inner, rest = ">" ++ inner ++ "</" ++ "a" ++ ">").
Proof.
  refine (C5_attributes_as_emitted (fun _ => false) false 0 Sample.escaped_link
            (JObj Sample.escaped_link_attrs) (JArr []) Sample.escaped_link_attrs
            [ ("data x", JStr "1<2"); ("title", JStr ""); ("href", JStr "?a&b") ] "a"
            _ eq_refl eq_refl eq_refl _).
  - eexists. repeat split; reflexivity.
  - right. eexists. reflexivity.
Defined.

(* ===================================================================== *)
(** * C8: the self-closing comment of the markup serializer *)
(* ===================================================================== *)

Lemma wp_forms_differ (prefix json rest : string) :
  @Ok string (prefix ++ ("<!-- wp:universal/element " ++ json ++ " -->") ++ rest)
  <> Ok (prefix ++ "<!-- wp:universal/element " ++ json ++ " /-->").
Proof.
  intro H.
  assert (H' : prefix ++ ("<!-- wp:universal/element " ++ json ++ " -->") ++ rest
               = prefix ++ "<!-- wp:universal/element " ++ json ++ " /-->")
    by congruence.
  clear H. rename H' into H. apply append_inv_head in H.
  rewrite append_assoc in H.
  apply (append_inv_head "<!-- wp:universal/element ") in H.
  rewrite append_assoc in H.
  apply append_inv_head in H. simpl in H. discriminate H.
Qed.

Lemma self_closing_condition_dec inner contentType content :
  (content = JUndefined \/ exists s, content = JStr s) ->
  Markup.self_closing_condition inner contentType content
  \/ ~ Markup.self_closing_condition inner contentType content.
Proof.
  intros Hc. unfold Markup.self_closing_condition, Markup.empty_content.
  destruct inner as [|b inner]; [|right; intros [H _]; discriminate H].
  destruct (string_dec contentType "empty") as [->|He]; [left; auto|].
  assert (Hcontent : (content = JUndefined \/ content = JStr "")
                     \/ ~ (content = JUndefined \/ content = JStr "")).
  { destruct Hc as [-> | [s ->]]; [left; now left|].
    destruct s; [left; now right|].
    right. intros [H | H]; discriminate H. }
  destruct (string_dec contentType "text") as [->|Ht];
    [destruct Hcontent as [H | H]; [left; auto | right; intros [_ [H' | [_ H']]];
       [discriminate H' | contradiction]]|].
  destruct (string_dec contentType "html") as [->|Hh];
    [destruct Hcontent as [H | H]; [left; auto | right; intros [_ [H' | [_ H']]];
       [discriminate H' | contradiction]]|].
  right. intros [_ [H | [[H | H] _]]]; contradiction.
Qed.

Lemma emptyPayload_spec (attrs : list (string * jsval)) (contentType : string)
    (content : jsval) :
  Js.lookup "contentType" attrs = JStr contentType ->
  Js.lookup "content" attrs = content ->
  (content = JUndefined \/ exists s, content = JStr s) ->
  exists b, emptyPayload (JObj attrs) = Ok b
            /\ (b = true <-> Markup.self_closing_condition [] contentType content).
Proof.
  intros Hct Hcontent Hc. unfold emptyPayload.
  cbn [Js.get Js.get_opt bind]. rewrite Hct, Hcontent. eexists. split; [reflexivity|].
  unfold Markup.self_closing_condition, Markup.empty_content. cbn [Js.is_str].
  assert (Ht : negb (Js.truthy content) = true <-> (content = JUndefined \/ content = JStr "")).
  { destruct Hc as [-> | [s ->]]; simpl.
    - split; auto.
    - destruct s; simpl; split; intro H; auto; try discriminate H.
      destruct H as [H | H]; discriminate H. }
  rewrite !orb_true_iff, !andb_true_iff, !String.eqb_eq, Ht.
  intuition congruence.
Qed.

(** C8. The markup serializer writes an element block as the single comment
    [<!-- wp:universal/element {json} /-->] if and only if the block has no
    inner blocks and its content type is [empty], or [text] or [html] with
    empty content.  Otherwise it writes the opening comment and the closing
    comment: with nothing between them when there is no inner block, and
    else with, between two line feeds, the texts that [blockToWPMarkup]
    returns for the inner blocks one level deeper, each once, in their
    order, joined by line feeds; an exception of an inner block is the
    exception of the block. *)
Theorem C8_self_closing_comment_iff
    (textGt0 : jsval -> bool) (JSON_stringify : jsval -> string) (indent : nat)
    (block : jsval) (attrs : list (string * jsval)) (inner : list jsval)
    (contentType : string) (content : jsval) :
  Spec.element_block block (JObj attrs) (JArr inner) ->
  Js.lookup "contentType" attrs = JStr contentType ->
  Js.lookup "content" attrs = content ->
  (content = JUndefined \/ exists s, content = JStr s) ->
  let json := JSON_stringify (blockAttrs (JObj attrs)) in
  let indentStr := JsString.repeat "    " indent in
  let opening := "<!-- wp:universal/element " ++ json ++ " -->" in
  let closing := "<!-- /wp:universal/element -->" in
  let single := "<!-- wp:universal/element " ++ json ++ " /-->" in
  let out := blockToWPMarkup textGt0 JSON_stringify block indent in
  (Markup.self_closing_condition inner contentType content ->
   out = Ok (indentStr ++ single))
  /\ (~ Markup.self_closing_condition inner contentType content ->
      out = match inner with
            | [] => Ok (indentStr ++ opening ++ closing)
            | _ =>
                let* children :=
                  mapM (fun child =>
                          blockToWPMarkup textGt0 JSON_stringify child (indent + 1))
                       inner in
                Ok (indentStr ++ opening ++ JsString.newline
                    ++ JsString.join JsString.newline children
                    ++ JsString.newline ++ indentStr ++ closing)
            end)
  /\ (out = Ok (indentStr ++ single)
      <-> Markup.self_closing_condition inner contentType content).
Proof.
  intros (props & -> & Hname & Hattrs & Hinner) Hct Hcontent Hc.
  intros json indentStr opening closing single out.
  assert (Hout : out =
                 elementToWPMarkup textGt0 JSON_stringify (JObj attrs) (JArr inner)
                   (parseBlocksToWPMarkup textGt0 JSON_stringify (JArr inner)) indent).
  { unfold out. rewrite blockToWPMarkup_JObj, Hname. cbn [Js.is_str].
    rewrite String.eqb_refl, Hattrs, Hinner. reflexivity. }
  destruct (emptyPayload_spec attrs contentType content Hct Hcontent Hc)
    as (b & Hb & Hbspec).
  assert (Hyes : Markup.self_closing_condition inner contentType content ->
                 out = Ok (indentStr ++ single)).
  { intros Hcond. pose proof Hcond as [-> _].
    rewrite Hout. unfold elementToWPMarkup. cbn [noInnerBlocks Js.truthy negb orb
      Js.get_opt Js.get String.eqb Ascii.eqb Bool.eqb List.length Z.of_nat].
    rewrite Hb. apply Hbspec in Hcond. subst b. reflexivity. }
  assert (Hno : ~ Markup.self_closing_condition inner contentType content ->
      out = match inner with
            | [] => Ok (indentStr ++ opening ++ closing)
            | _ =>
                let* children :=
                  mapM (fun child =>
                          blockToWPMarkup textGt0 JSON_stringify child (indent + 1))
                       inner in
                Ok (indentStr ++ opening ++ JsString.newline
                    ++ JsString.join JsString.newline children
                    ++ JsString.newline ++ indentStr ++ closing)
            end).
  { intros Hcond. rewrite Hout. unfold elementToWPMarkup.
    destruct inner as [|x inner].
    - cbn [noInnerBlocks Js.truthy negb orb
        Js.get_opt Js.get String.eqb Ascii.eqb Bool.eqb List.length Z.of_nat].
      rewrite Hb. destruct b.
      + exfalso. apply Hcond, Hbspec. reflexivity.
      + cbn [bind]. unfold hasInnerBlocks. simpl. unfold wpOpen, wpClose.
        now rewrite !append_assoc.
    - assert (Hnone : noInnerBlocks (JArr (x :: inner)) = false).
      { unfold noInnerBlocks. cbn [Js.truthy negb orb Js.get_opt Js.get].
        rewrite ?String.eqb_refl. cbn [List.length].
        destruct (Z.of_nat (S (List.length inner))) eqn:E; try reflexivity. lia. }
      assert (Hsome : hasInnerBlocks textGt0 (JArr (x :: inner)) = true).
      { unfold hasInnerBlocks, gt0. cbn [Js.truthy andb Js.get_opt Js.get].
        rewrite ?String.eqb_refl. apply Z.ltb_lt. cbn [List.length]. lia. }
      rewrite Hnone, Hsome. unfold parseBlocksToWPMarkup, mapJoin.
      remember (x :: inner) as children eqn:Echildren.
      destruct (mapM _ children) as [texts|e]; [|reflexivity].
      cbn [bind]. unfold wpOpen, wpClose. rewrite append_assoc. reflexivity. }
  split; [exact Hyes|]. split; [exact Hno|].
  split; [|exact Hyes].
  intro Hsingle.
  destruct (self_closing_condition_dec inner contentType content Hc) as [H | H];
    [exact H|].
  exfalso. rewrite (Hno H) in Hsingle.
  destruct inner as [|x inner].
  - exact (wp_forms_differ indentStr json closing Hsingle).
  - remember (x :: inner) as children eqn:Echildren.
    destruct (mapM _ children) as [texts|e]; [|discriminate Hsingle].
    exact (wp_forms_differ indentStr json _ Hsingle).
Qed.

Lemma C8_witness :
  blockToWPMarkup (fun _ => false) Nested.tag_only Nested.section 0
  = Ok ("<!-- wp:universal/element section -->" ++ JsString.newline
        ++ "    <!-- wp:universal/element hr /-->" ++ JsString.newline
        ++ "    <!-- wp:universal/element hr /-->" ++ JsString.newline
        ++ "<!-- /wp:universal/element -->")
  /\ blockToWPMarkup (fun _ => false) Nested.tag_only Nested.rule 1
     = Ok "    <!-- wp:universal/element hr /-->".
Proof.
  assert (Hsection : Spec.element_block Nested.section (JObj Nested.section_attrs)
                       (JArr [Nested.rule; Nested.rule]))
    by (eexists; repeat split; reflexivity).
  assert (Habsent : JUndefined = JUndefined \/ exists s, JUndefined = JStr s)
    by (now left).
  destruct (C8_self_closing_comment_iff (fun _ => false) Nested.tag_only 0
              Nested.section Nested.section_attrs [Nested.rule; Nested.rule]
              "blocks" JUndefined Hsection eq_refl eq_refl Habsent) as (_ & Hno & _).
  assert (Hrule : Spec.element_block Nested.rule
                    (JObj [ ("tagName", JStr "hr"); ("contentType", JStr "empty");
                            ("selfClosing", JBool true); ("globalAttrs", JObj []) ])
                    (JArr []))
    by (eexists; repeat split; reflexivity).
  destruct (C8_self_closing_comment_iff (fun _ => false) Nested.tag_only 1
              Nested.rule _ [] "empty" JUndefined Hrule eq_refl eq_refl Habsent)
    as (Hyes & _ & _).
  assert (Hsingle : blockToWPMarkup (fun _ => false) Nested.tag_only Nested.rule 1
                    = Ok "    <!-- wp:universal/element hr /-->")
    by (apply Hyes; split; [reflexivity | now left]).
  split; [|exact Hsingle].
  rewrite Hno by (intros [H _]; discriminate H).
  cbn [mapM Nat.add]. rewrite Hsingle. reflexivity.
Defined.

(* ===================================================================== *)
(** * Blocks of the persisted shape are rendered without an exception *)
(* ===================================================================== *)

Section NoThrow.

Variable textGt0 : jsval -> bool.
Variable JSON_stringify : jsval -> string.

Ltac split_ifs :=
  repeat match goal with
         | |- context [if ?c then _ else _] => destruct c
         end.

Lemma elementToHTML_schema (pretty : bool) (attrs : list (string * jsval))
    (innerBlocks : jsval) (parseInner : nat -> result string) (indent : nat) :
  (Js.lookup "tagName" attrs = JUndefined \/ exists t, Js.lookup "tagName" attrs = JStr t) ->
  (Js.lookup "globalAttrs" attrs = JUndefined
   \/ exists g, Js.lookup "globalAttrs" attrs = JObj g) ->
  (exists inner, parseInner (indent + 1) = Ok inner) ->
  exists out, elementToHTML textGt0 pretty (JObj attrs) innerBlocks parseInner indent = Ok out.
Proof.
  intros Htag Hglobal [inner Hinner]. unfold elementToHTML.
  cbn [Js.get Js.get_opt bind].
  assert (Hg : exists es, Js.entries (Js.default (JObj []) (Js.lookup "globalAttrs" attrs)) = Ok es).
  { destruct Hglobal as [-> | [g ->]]; eexists; reflexivity. }
  destruct Hg as [es ->]. cbn [bind].
  assert (Ht : exists t, Js.default (JStr "div") (Js.lookup "tagName" attrs) = JStr t).
  { destruct Htag as [-> | [t ->]]; eexists; reflexivity. }
  destruct Ht as [t ->]. rewrite Hinner. cbn [bind].
  split_ifs; cbn [bind]; split_ifs; eexists; reflexivity.
Qed.

Lemma schema_renders_HTML (pretty : bool) (block : jsval) :
  block_schema block ->
  forall indent, exists out, blockToHTML textGt0 pretty block indent = Ok out.
Proof.
  intro H.
  induction H using block_schema_mut
    with (P0 := fun l _ => forall indent,
                  exists outs, mapM (fun b => blockToHTML textGt0 pretty b indent) l = Ok outs).
  - intro indent. rewrite blockToHTML_JObj.
    match goal with H : Js.lookup "name" props = _ |- _ => rewrite H end.
    cbn [Js.is_str]. rewrite String.eqb_refl.
    match goal with H : Js.lookup "attributes" props = _ |- _ => rewrite H end.
    apply elementToHTML_schema; try assumption.
    match goal with H : Js.lookup "innerBlocks" props = _ |- _ => rewrite H end.
    unfold parseBlocksToHTML, mapJoin.
    destruct (IHblock_schema (indent + 1)) as [outs ->]. eexists. reflexivity.
  - intro indent. exists []. reflexivity.
  - intro indent. cbn [mapM].
    destruct (IHblock_schema indent) as [out ->].
    destruct (IHblock_schema0 indent) as [outs ->].
    eexists. reflexivity.
Qed.

Lemma elementToWPMarkup_schema (attrs : list (string * jsval))
    (innerBlocks : jsval) (parseInner : nat -> result string) (indent : nat) :
  (exists inner, parseInner (indent + 1) = Ok inner) ->
  exists out, elementToWPMarkup textGt0 JSON_stringify (JObj attrs) innerBlocks
                parseInner indent = Ok out.
Proof.
  intros [inner Hinner]. unfold elementToWPMarkup, emptyPayload.
  cbn [Js.get Js.get_opt bind]. rewrite Hinner.
  split_ifs; cbn [bind]; split_ifs; eexists; reflexivity.
Qed.

Lemma schema_renders_WPMarkup (block : jsval) :
  block_schema block ->
  forall indent, exists out, blockToWPMarkup textGt0 JSON_stringify block indent = Ok out.
Proof.
  intro H.
  induction H using block_schema_mut
    with (P0 := fun l _ => forall indent,
                  exists outs,
                    mapM (fun b => blockToWPMarkup textGt0 JSON_stringify b indent) l = Ok outs).
  - intro indent. rewrite blockToWPMarkup_JObj.
    match goal with H : Js.lookup "name" props = _ |- _ => rewrite H end.
    cbn [Js.is_str]. rewrite String.eqb_refl.
    match goal with H : Js.lookup "attributes" props = _ |- _ => rewrite H end.
    apply elementToWPMarkup_schema.
    match goal with H : Js.lookup "innerBlocks" props = _ |- _ => rewrite H end.
    unfold parseBlocksToWPMarkup, mapJoin.
    destruct (IHblock_schema (indent + 1)) as [outs ->]. eexists. reflexivity.
  - intro indent. exists []. reflexivity.
  - intro indent. cbn [mapM].
    destruct (IHblock_schema indent) as [out ->].
    destruct (IHblock_schema0 indent) as [outs ->].
    eexists. reflexivity.
Qed.

Lemma blocks_schema_Forall (l : list jsval) :
  blocks_schema l <-> Forall block_schema l.
Proof.
  split; induction 1; constructor; auto.
Qed.

Lemma schema_list_renders_HTML (pretty : bool) (l : list jsval) (indent : nat) :
  Forall block_schema l ->
  exists out, parseBlocksToHTML textGt0 pretty (JArr l) indent = Ok out.
Proof.
  intro H. unfold parseBlocksToHTML, mapJoin.
  assert (exists outs, mapM (fun b => blockToHTML textGt0 pretty b indent) l = Ok outs)
    as [outs ->].
  { induction H as [|b l Hb _ [outs IH]]; [exists []; reflexivity|].
    cbn [mapM]. destruct (schema_renders_HTML pretty b Hb indent) as [out ->].
    rewrite IH. eexists. reflexivity. }
  eexists. reflexivity.
Qed.

Lemma schema_list_renders_WPMarkup (l : list jsval) (indent : nat) :
  Forall block_schema l ->
  exists out, parseBlocksToWPMarkup textGt0 JSON_stringify (JArr l) indent = Ok out.
Proof.
  intro H. unfold parseBlocksToWPMarkup, mapJoin.
  assert (exists outs,
             mapM (fun b => blockToWPMarkup textGt0 JSON_stringify b indent) l = Ok outs)
    as [outs ->].
  { induction H as [|b l Hb _ [outs IH]]; [exists []; reflexivity|].
    cbn [mapM]. destruct (schema_renders_WPMarkup b Hb indent) as [out ->].
    rewrite IH. eexists. reflexivity. }
  eexists. reflexivity.
Qed.

End NoThrow.

(* ===================================================================== *)
(** * The forward transcoder *)
(* ===================================================================== *)

(** Induction on a DOM tree, with the property for all the children. *)
Lemma node_induction (P : node -> Prop) :
  (forall d, P (Text d)) ->
  (forall d, P (Comment d)) ->
  (forall tag attrs cs, Forall P cs -> P (Element tag attrs cs)) ->
  forall n, P n.
Proof.
  intros Ht Hc He.
  exact (fix go (n : node) : P n :=
           match n with
           | Text d => Ht d
           | Comment d => Hc d
           | Element tag attrs cs =>
               He tag attrs cs
                 ((fix all (l : list node) : Forall P l :=
                     match l with
                     | [] => Forall_nil P
                     | c :: r => Forall_cons c (go c) (all r)
                     end) cs)
           end).
Qed.

Lemma lower_char_idem (c : ascii) :
  JsString.lower_char (JsString.lower_char c) = JsString.lower_char c.
Proof. destruct c as [[] [] [] [] [] [] [] []]; reflexivity. Qed.

Lemma toLowerCase_idem (s : string) :
  JsString.toLowerCase (JsString.toLowerCase s) = JsString.toLowerCase s.
Proof.
  unfold JsString.toLowerCase.
  induction s as [|c s IH]; simpl; [reflexivity|].
  now rewrite lower_char_idem, IH.
Qed.

(** A tag without a policy entry has no [selfClosing] policy, whatever
    [tagConfigs[tag]] finds. *)
Lemma getTagConfig_no_policy (tagName : string) :
  ~ In (JsString.toLowerCase tagName) policyTags ->
  Js.get_opt (getTagConfig tagName) "selfClosing" = JUndefined.
Proof.
  intro H. unfold getTagConfig.
  set (k := JsString.toLowerCase tagName) in *.
  assert (Hk : Js.has_key k tagConfigs = false).
  { unfold tagConfigs. cbn [Js.has_key].
    destruct (String.eqb_spec k "set") as [E|_]; [exfalso; apply H; rewrite E; simpl; auto|].
    destruct (String.eqb_spec k "loop") as [E|_]; [exfalso; apply H; rewrite E; simpl; auto|].
    destruct (String.eqb_spec k "if") as [E|_]; [exfalso; apply H; rewrite E; simpl; auto|].
    reflexivity. }
  rewrite Hk. destruct ((k =? "constructor") || (k =? "__proto__")); reflexivity.
Qed.

Lemma getTagConfig_lower (tagName : string) :
  getTagConfig (JsString.toLowerCase tagName) = getTagConfig tagName.
Proof. unfold getTagConfig. now rewrite toLowerCase_idem. Qed.

Lemma includes_In (l : list string) (s : string) :
  includes l s = true <-> In s l.
Proof.
  unfold includes. rewrite existsb_exists. split.
  - intros (x & Hx & E). apply String.eqb_eq in E. now subst.
  - intro H. exists s. split; [exact H | apply String.eqb_refl].
Qed.

Lemma hasChildElements_spec (tag : string) (attrs : list (string * string))
    (cs : list node) :
  hasChildElements (Element tag attrs cs) = true <-> Children.has_element cs.
Proof.
  unfold hasChildElements, Children.has_element, Children.is_element.
  cbn [Dom.childNodes]. rewrite existsb_exists. split.
  - intros (c & Hc & E). exists c. split; [exact Hc|].
    destruct c; try discriminate E. eauto.
  - intros (c & Hc & (t & a & l & ->)). eexists. split; [exact Hc | reflexivity].
Qed.

Lemma hasTextContent_spec (tag : string) (attrs : list (string * string))
    (cs : list node) :
  hasTextContent (Element tag attrs cs) = true <-> Children.has_text cs.
Proof.
  unfold hasTextContent, Children.has_text.
  cbn [Dom.childNodes]. rewrite existsb_exists. split.
  - intros (c & Hc & E). destruct c as [d| |]; try discriminate E.
    exists d. split; [exact Hc|]. cbn [Dom.nodeType Dom.textContent andb Nat.eqb Js.truthy] in E.
    destruct (String.eqb_spec (JsString.trim d) ""); [discriminate E | assumption].
  - intros (d & Hd & Hne). exists (Text d). split; [exact Hd|].
    cbn [Dom.nodeType Dom.textContent andb Nat.eqb Js.truthy].
    destruct (String.eqb_spec (JsString.trim d) ""); [contradiction | reflexivity].
Qed.

(** The fields of the attributes object of an element. *)
Section BlockAttributes.

Variables (tagName : string) (contentType selfClosing : jsval)
          (globalAttrs : list (string * jsval)) (className content : string).

Let attrs := blockAttributes tagName contentType selfClosing globalAttrs className content.

Ltac by_cases :=
  unfold attrs, blockAttributes;
  destruct (Js.truthy (JStr className));
  destruct (Js.is_str "text" contentType || Js.is_str "html" contentType);
  reflexivity.

Lemma blockAttributes_tagName : Js.get_opt attrs "tagName" = JStr tagName.
Proof. by_cases. Qed.

Lemma blockAttributes_contentType : Js.get_opt attrs "contentType" = contentType.
Proof. by_cases. Qed.

Lemma blockAttributes_selfClosing : Js.get_opt attrs "selfClosing" = selfClosing.
Proof. by_cases. Qed.

Lemma blockAttributes_globalAttrs : Js.get_opt attrs "globalAttrs" = JObj globalAttrs.
Proof. by_cases. Qed.

Lemma blockAttributes_className :
  Js.get_opt attrs "className" = if className =? "" then JUndefined else JStr className.
Proof.
  unfold attrs, blockAttributes. cbn [Js.truthy].
  destruct (className =? "");
  destruct (Js.is_str "text" contentType || Js.is_str "html" contentType);
  reflexivity.
Qed.

Lemma blockAttributes_content :
  Js.get_opt attrs "content" =
  if Js.is_str "text" contentType || Js.is_str "html" contentType
  then JStr content else JUndefined.
Proof. by_cases. Qed.

Lemma blockAttributes_is_object : exists ps, attrs = JObj ps.
Proof. unfold attrs, blockAttributes. eexists. reflexivity. Qed.

End BlockAttributes.

Section ForwardFacts.

Variable innerHTML : node -> string.
Variable random16 : nat -> nat.

Lemma createBlock_eq (name : string) (attributes : jsval) (inner : list jsval) (n : nat) :
  createBlock random16 name attributes inner n =
  (blockObject (fst (generateClientId random16 n)) name attributes inner,
   snd (generateClientId random16 n)).
Proof. unfold createBlock. destruct (generateClientId random16 n). reflexivity. Qed.

(** The block of an element, from the outcome of the content type detection. *)
Lemma nodeToBlock_element (tag : string) (attrs : list (string * string))
    (cs : list node) (n : nat) :
  let element := Element tag attrs cs in
  let tagName := JsString.toLowerCase tag in
  let config := getTagConfig tagName in
  let isVoid := includes voidElements tagName in
  let detected :=
    detectContent innerHTML element tagName config isVoid
      (pushBlocks (nodeToBlock innerHTML random16) cs) n in
  nodeToBlock innerHTML random16 element n =
  (Some (blockObject (fst (generateClientId random16 (snd detected)))
           "universal/element"
           (blockAttributes tagName (fst (fst (fst detected)))
              (finalSelfClosing config isVoid)
              (snd (extractAttributes attrs)) (fst (extractAttributes attrs))
              (snd (fst (fst detected))))
           (snd (fst detected))),
   snd (generateClientId random16 (snd detected))).
Proof.
  cbn zeta. cbn [nodeToBlock].
  destruct (extractAttributes attrs) as [className globalAttrs].
  destruct (detectContent _ _ _ _ _ _ _) as [[[ct content] inner] n1].
  rewrite createBlock_eq. reflexivity.
Qed.

Lemma nodeToBlock_text (data : string) (n : nat) :
  nodeToBlock innerHTML random16 (Text data) n =
  if JsString.trim data =? "" then (None, n)
  else (Some (blockObject (fst (generateClientId random16 n)) "universal/element"
                (textBlockAttributes (JsString.trim data)) []),
        snd (generateClientId random16 n)).
Proof.
  cbn [nodeToBlock Dom.textContent Js.truthy].
  destruct (JsString.trim data =? ""); cbn [negb]; [reflexivity|].
  rewrite createBlock_eq. reflexivity.
Qed.

(** Without a self-closing policy the detection is structural. *)
Lemma detectContent_structural (nd : node) (tagName : string) (config : jsval)
    (isVoid : bool) (childBlocks : Rand (list jsval)) (n : nat) :
  Js.get_opt config "selfClosing" <> JBool true ->
  detectContent innerHTML nd tagName config isVoid childBlocks n =
  if isVoid then (JStr "empty", "", [], n)
  else if tagName =? "svg" then (JStr "html", innerHTML nd, [], n)
  else if hasChildElements nd && includes containerElements tagName then
         (JStr "blocks", "", fst (childBlocks n), snd (childBlocks n))
  else if hasChildElements nd then (JStr "html", innerHTML nd, [], n)
  else if hasTextContent nd then (JStr "text", Dom.textContent nd, [], n)
  else (JStr "empty", "", [], n).
Proof.
  intro H. unfold detectContent.
  destruct (Js.get_opt config "selfClosing") as [| |[]| | | |]; try reflexivity;
    try (destruct (childBlocks n); reflexivity).
  contradiction H; reflexivity.
Qed.

End ForwardFacts.

Lemma Block_attributes_blockObject id name attrs inner :
  Block.attributes (blockObject id name attrs inner) = attrs.
Proof. reflexivity. Qed.

Lemma Block_innerBlocks_blockObject id name attrs inner :
  Block.innerBlocks (blockObject id name attrs inner) = JArr inner.
Proof. reflexivity. Qed.

(* ===================================================================== *)
(** * C3: structural classification *)
(* ===================================================================== *)

Lemma pushBlocks_in_order (transcode : node -> Rand (option jsval)) (nodes : list node) :
  forall n,
    InOrder.blocks_of transcode nodes n
      (fst (pushBlocks transcode nodes n)) (snd (pushBlocks transcode nodes n)).
Proof.
  induction nodes as [|c nodes IH]; intro n; [constructor|].
  cbn [pushBlocks]. destruct (transcode c n) as [o n1] eqn:E.
  specialize (IH n1). destruct (pushBlocks transcode nodes n1) as [bs n2].
  cbn [fst snd] in *.
  destruct o as [b|].
  - now apply InOrder.blocks_of_block with (n1 := n1).
  - now apply InOrder.blocks_of_skip with (n1 := n1).
Qed.

Lemma pushBlocks_outline (innerHTML : node -> string) (random16 : nat -> nat)
    (nodes : list node) :
  forall n,
    List.map Block.tagName (fst (pushBlocks (nodeToBlock innerHTML random16) nodes n))
    = Outline.block_tags nodes.
Proof.
  induction nodes as [|c nodes IH]; intro n; [reflexivity|].
  cbn [pushBlocks]. unfold Outline.block_tags. cbn [List.flat_map].
  fold (Outline.block_tags nodes).
  destruct c as [d | d | tag attrs cs].
  - rewrite nodeToBlock_text. destruct (JsString.trim d =? "").
    + specialize (IH n). destruct (pushBlocks _ nodes n) as [bs n2]. exact IH.
    + specialize (IH (snd (generateClientId random16 n))).
      destruct (pushBlocks _ nodes _) as [bs n2]. cbn [fst List.map app] in *.
      now rewrite IH.
  - cbn [nodeToBlock]. specialize (IH n).
    destruct (pushBlocks _ nodes n) as [bs n2]. exact IH.
  - rewrite nodeToBlock_element.
    match goal with
    | |- context [pushBlocks _ nodes ?m] =>
        specialize (IH m); destruct (pushBlocks (nodeToBlock innerHTML random16) nodes m)
          as [bs n2]
    end.
    cbn [fst List.map app] in *. rewrite IH. unfold Block.tagName at 1.
    now rewrite Block_attributes_blockObject, blockAttributes_tagName.
Qed.

(** C3. For an element whose tag has no policy entry: a void element gets
    the content type [empty]; an [svg] element gets [html] with its inner
    markup; any other element gets [blocks] when it has element children and
    its tag is a container, and its inner blocks are then the blocks of its
    child nodes: the block of each child that has one (the elements, and the
    texts that are not white space, under the tag names of the outline), once
    each and in document order, every child transcoded by [nodeToBlock] in
    turn; [html] with the inner markup when it has element children and its
    tag is not a container; [text] with its full text content when it has no
    element child but a text child that is not white space; and [empty]
    otherwise. *)
Theorem C3_structural_classification
    (innerHTML : node -> string) (random16 : nat -> nat)
    (tag : string) (attrs : list (string * string)) (children : list node) (n : nat) :
  let element := Element tag attrs children in
  let tagName := JsString.toLowerCase tag in
  ~ In tagName policyTags ->
  exists block n',
    nodeToBlock innerHTML random16 element n = (Some block, n')
    /\ Block.tagName block = JStr tagName
    /\ (In tagName voidElements -> Block.contentType block = JStr "empty")
    /\ (tagName = "svg" ->
        Block.contentType block = JStr "html"
        /\ Block.content block = JStr (innerHTML element))
    /\ (~ In tagName voidElements -> tagName <> "svg" ->
        (Children.has_element children -> In tagName containerElements ->
         Block.contentType block = JStr "blocks"
         /\ exists inner n1,
              Block.innerBlocks block = JArr inner
              /\ InOrder.blocks_of (nodeToBlock innerHTML random16) children n inner n1
              /\ List.map Block.tagName inner = Outline.block_tags children)
        /\ (Children.has_element children -> ~ In tagName containerElements ->
            Block.contentType block = JStr "html"
            /\ Block.content block = JStr (innerHTML element))
        /\ (~ Children.has_element children -> Children.has_text children ->
            Block.contentType block = JStr "text"
            /\ Block.content block = JStr (Dom.textContent element))
        /\ (~ Children.has_element children -> ~ Children.has_text children ->
            Block.contentType block = JStr "empty")).
Proof.
  intros element tagName Hpolicy.
  pose proof (nodeToBlock_element innerHTML random16 tag attrs children n) as Hblock.
  cbn zeta in Hblock. fold element tagName in Hblock.
  rewrite detectContent_structural in Hblock
    by (unfold tagName; rewrite getTagConfig_lower, (getTagConfig_no_policy tag Hpolicy);
        discriminate).
  eexists. eexists. split; [exact Hblock|]. clear Hblock.
  unfold Block.tagName, Block.contentType, Block.content.
  rewrite !Block_attributes_blockObject, !Block_innerBlocks_blockObject.
  rewrite blockAttributes_tagName, blockAttributes_contentType, blockAttributes_content.
  pose proof (includes_In voidElements tagName) as Hvoid.
  pose proof (includes_In containerElements tagName) as Hcont.
  pose proof (hasChildElements_spec tag attrs children) as Hel.
  pose proof (hasTextContent_spec tag attrs children) as Htx.
  fold element in Hel, Htx.
  destruct (includes voidElements tagName).
  { cbn [fst snd]. split; [reflexivity|]. split; [reflexivity|]. split.
    - intros ->. destruct Hvoid as [Hvoid _]. specialize (Hvoid eq_refl).
      simpl in Hvoid. intuition discriminate.
    - intros Hnv. exfalso. apply Hnv, Hvoid. reflexivity. }
  destruct (String.eqb_spec tagName "svg") as [Hsvg|Hsvg].
  { cbn [fst snd]. split; [reflexivity|]. split.
    - intro Hv. apply Hvoid in Hv. discriminate Hv.
    - split; [intros _; split; reflexivity|]. intros _ Hne. contradiction. }
  split; [destruct (hasChildElements element && includes containerElements tagName);
          [|destruct (hasChildElements element); [|destruct (hasTextContent element)]];
          reflexivity|].
  split; [intro Hv; apply Hvoid in Hv; discriminate Hv|].
  split; [intro; contradiction|]. intros _ _.
  split.
  { intros Hhas Hin. apply Hel in Hhas. apply Hcont in Hin. rewrite Hhas, Hin.
    cbn [andb fst snd]. split; [reflexivity|].
    exists (fst (pushBlocks (nodeToBlock innerHTML random16) children n)),
           (snd (pushBlocks (nodeToBlock innerHTML random16) children n)).
    split; [reflexivity|]. split; [apply pushBlocks_in_order | apply pushBlocks_outline]. }
  destruct (hasChildElements element); destruct (includes containerElements tagName);
    cbn [andb fst snd];
    try (destruct (hasTextContent element); cbn [fst snd]);
    repeat split; intros; try reflexivity;
    try (exfalso; intuition congruence).
Qed.

Lemma C3_witness :
  exists block n' inner,
    nodeToBlock (fun _ => "") (fun _ => 0) (Element "UL" [] InOrder.two_items) 0
    = (Some block, n')
    /\ Block.contentType block = JStr "blocks"
    /\ Block.innerBlocks block = JArr inner
    /\ List.map Block.tagName inner = [JStr "li"; JStr "li"]
    /\ List.map Block.className inner = [JUndefined; JStr "last"]
    /\ List.map Block.content inner = [JStr "a"; JStr "b"].
Proof.
  destruct (C3_structural_classification (fun _ => "") (fun _ => 0)
              "UL" [] InOrder.two_items 0)
    as (block & n' & Hrun & _ & _ & _ & Hstruct).
  { vm_compute. intuition discriminate. }
  destruct Hstruct as [Hblocks _].
  { vm_compute. intuition discriminate. }
  { discriminate. }
  destruct Hblocks as (Hct & inner & n1 & Hinner & Horder & Htags).
  { exists (Element "LI" [] [Text "a"]). split; [now left|].
    exists "LI", [], [Text "a"]. reflexivity. }
  { vm_compute. do 8 right. left. reflexivity. }
  exists block, n', inner.
  split; [exact Hrun|]. split; [exact Hct|]. split; [exact Hinner|].
  split; [exact Htags|].
  unfold InOrder.two_items in Horder.
  inversion Horder as [| c r m m1 m2 b1 bs1 H1 Hrest1 | c r m m1 m2 bs1 H1 Hrest1];
    subst; [|discriminate H1].
  inversion Hrest1 as [| c r m m1' m2' b2 bs2 H2 Hrest2 | c r m m1' m2' bs2 H2 Hrest2];
    subst; [discriminate H2|].
  inversion Hrest2 as [| c r m m1'' m2'' b3 bs3 H3 Hrest3 | c r m m1'' m2'' bs3 H3 Hrest3];
    subst; [|discriminate H3].
  inversion Hrest3; subst.
  injection H1 as <- _. injection H3 as <- _.
  split; reflexivity.
Defined.

(* ===================================================================== *)
(** * C2: the policy entries in the forward transcoder *)
(* ===================================================================== *)

(** C2, at the elements [loop] and [if].  The policy of both tags has the
    content type [blocks], and their self-closing flag does come from the
    policy; but the content type of the block never is [blocks] and the
    children are not transcoded: the element is classified structurally,
    as [html] with its inner markup when it has element children, as [text]
    or [empty] when it has none.  Only a policy that marks the tag
    self-closing ([set]) decides the content type. *)
Theorem C2_loop_and_if_classified_structurally
    (innerHTML : node -> string) (random16 : nat -> nat)
    (isLoop : bool) (attrs : list (string * string)) (children : list node) (n : nat) :
  let tag := if isLoop then "LOOP" else "IF" in
  let element := Element tag attrs children in
  Js.get_opt (getTagConfig tag) "contentType" = JStr "blocks"
  /\ exists block n',
       nodeToBlock innerHTML random16 element n = (Some block, n')
       /\ Block.selfClosing block = Js.get_opt (getTagConfig tag) "selfClosing"
       /\ Block.contentType block <> JStr "blocks"
       /\ Block.contentType block =
          JStr (if hasChildElements element then "html"
                else if hasTextContent element then "text" else "empty")
       /\ Block.innerBlocks block = JArr []
       /\ (if hasChildElements element
           then Block.content block = JStr (innerHTML element)
           else True).
Proof.
  intros tag element.
  split; [destruct isLoop; reflexivity|].
  pose proof (nodeToBlock_element innerHTML random16 tag attrs children n) as Hblock.
  cbn zeta in Hblock. fold element in Hblock.
  rewrite detectContent_structural in Hblock by (destruct isLoop; discriminate).
  eexists. eexists. split; [exact Hblock|]. clear Hblock.
  unfold Block.selfClosing, Block.contentType, Block.content.
  rewrite !Block_attributes_blockObject, !Block_innerBlocks_blockObject.
  rewrite blockAttributes_selfClosing, blockAttributes_contentType, blockAttributes_content.
  assert (Hv : includes voidElements (JsString.toLowerCase tag) = false)
    by (destruct isLoop; reflexivity).
  assert (Hs : (JsString.toLowerCase tag =? "svg") = false)
    by (destruct isLoop; reflexivity).
  assert (Hc : includes containerElements (JsString.toLowerCase tag) = false)
    by (destruct isLoop; reflexivity).
  rewrite Hv, Hs, Hc, andb_false_r.
  split; [destruct isLoop; reflexivity|].
  destruct (hasChildElements element); [|destruct (hasTextContent element)];
    cbn [fst snd]; repeat split; try reflexivity; discriminate.
Qed.

(** The set element: the one tag whose policy decides the content type. *)
Lemma set_follows_policy
    (innerHTML : node -> string) (random16 : nat -> nat)
    (attrs : list (string * string)) (children : list node) (n : nat) :
  exists block n',
    nodeToBlock innerHTML random16 (Element "SET" attrs children) n = (Some block, n')
    /\ Block.contentType block = JStr "empty"
    /\ Block.selfClosing block = JBool true
    /\ Block.content block = JUndefined
    /\ Block.innerBlocks block = JArr []
    /\ Block.globalAttrs block = JObj (snd (extractAttributes attrs)).
Proof.
  pose proof (nodeToBlock_element innerHTML random16 "SET" attrs children n) as Hblock.
  cbn zeta in Hblock.
  eexists. eexists. split; [exact Hblock|].
  unfold Block.selfClosing, Block.contentType, Block.content, Block.globalAttrs.
  rewrite !Block_attributes_blockObject, !Block_innerBlocks_blockObject.
  rewrite blockAttributes_selfClosing, blockAttributes_contentType,
    blockAttributes_content, blockAttributes_globalAttrs.
  repeat split; reflexivity.
Qed.

(* ===================================================================== *)
(** * The shape of the trees of the forward transcoder *)
(* ===================================================================== *)

Section ForwardShape.

Variable innerHTML : node -> string.

(** Whether the children are transcoded, the content type and the content
    depend neither on the random draws nor on the blocks of the children. *)
Lemma detectContent_shape (nd : node) (tagName : string) (config : jsval) (isVoid : bool) :
  exists (isBlocks : bool) (ct : jsval) (content : string),
    (isBlocks = true -> ct = JStr "blocks" /\ content = "")
    /\ forall (childBlocks : Rand (list jsval)) (n : nat),
         detectContent innerHTML nd tagName config isVoid childBlocks n =
         (ct, content,
          if isBlocks then fst (childBlocks n) else [],
          if isBlocks then snd (childBlocks n) else n).
Proof.
  unfold detectContent.
  destruct (match Js.get_opt config "selfClosing" with JBool true => true | _ => false end).
  { exists false. eexists. eexists. split; [discriminate|]. reflexivity. }
  destruct isVoid.
  { exists false. eexists. eexists. split; [discriminate|]. reflexivity. }
  destruct (tagName =? "svg").
  { exists false. eexists. eexists. split; [discriminate|]. reflexivity. }
  destruct (hasChildElements nd && includes containerElements tagName).
  { exists true. eexists. eexists. split; [split; reflexivity|].
    intros childBlocks n. destruct (childBlocks n). reflexivity. }
  destruct (hasChildElements nd).
  { exists false. eexists. eexists. split; [discriminate|]. reflexivity. }
  destruct (hasTextContent nd);
    exists false; eexists; eexists; (split; [discriminate|]); reflexivity.
Qed.

Lemma pushBlocks_Forall (Q : jsval -> Prop) (f : node -> Rand (option jsval))
    (cs : list node) :
  Forall (fun c => forall n b, fst (f c n) = Some b -> Q b) cs ->
  forall n, Forall Q (fst (pushBlocks f cs n)).
Proof.
  induction 1 as [|c cs Hc _ IH]; intro n; cbn [pushBlocks]; [constructor|].
  specialize (Hc n). destruct (f c n) as [b n1]. specialize (IH n1).
  destruct (pushBlocks f cs n1) as [bs n2]. cbn [fst] in *.
  destruct b as [b|]; [constructor; auto | exact IH].
Qed.

End ForwardShape.

(* ===================================================================== *)
(** * C9: payload exclusivity *)
(* ===================================================================== *)

Section Payload.

Variable innerHTML : node -> string.
Variable random16 : nat -> nat.

Lemma payload_exclusive_blockObject (id : string) (tagName : string)
    (ct sc : jsval) (g : list (string * jsval)) (cls content : string)
    (inner : list jsval) :
  (inner <> [] -> ct = JStr "blocks") ->
  Block.payload_exclusive
    (blockObject id "universal/element" (blockAttributes tagName ct sc g cls content) inner).
Proof.
  intro Hinner.
  assert (Hc : Block.has_content
                 (blockObject id "universal/element"
                    (blockAttributes tagName ct sc g cls content) inner) ->
               ct = JStr "text" \/ ct = JStr "html").
  { unfold Block.has_content, Block.content.
    rewrite Block_attributes_blockObject, blockAttributes_content.
    destruct (Js.is_str "text" ct) eqn:Et; [intros _; left; now apply is_str_true|].
    destruct (Js.is_str "html" ct) eqn:Eh; [intros _; right; now apply is_str_true|].
    cbn [orb]. intros [H _]. contradiction H; reflexivity. }
  assert (Hk : Block.has_children
                 (blockObject id "universal/element"
                    (blockAttributes tagName ct sc g cls content) inner) ->
               ct = JStr "blocks").
  { unfold Block.has_children. rewrite Block_innerBlocks_blockObject.
    intros (b & rest & E). apply Hinner. injection E as ->. discriminate. }
  unfold Block.payload_exclusive, Block.contentType.
  rewrite Block_attributes_blockObject, blockAttributes_contentType.
  split; [exact Hc|]. split; [exact Hk|].
  intros [H1 H2]. apply Hk in H2. apply Hc in H1. subst ct.
  destruct H1 as [H1 | H1]; discriminate H1.
Qed.

Lemma payload_exclusive_text (id text : string) :
  Block.payload_exclusive
    (blockObject id "universal/element" (textBlockAttributes text) []).
Proof.
  unfold Block.payload_exclusive, Block.has_children.
  rewrite Block_innerBlocks_blockObject.
  split; [intros _; left; reflexivity|].
  split; [intros (b & rest & E); discriminate E|].
  intros [_ (b & rest & E)]. discriminate E.
Qed.

(** Every node of the tree of a DOM node has an exclusive payload. *)
Lemma nodeToBlock_payload (nd : node) :
  forall n b, fst (nodeToBlock innerHTML random16 nd n) = Some b ->
              Block.every_node Block.payload_exclusive b.
Proof.
  induction nd as [d | d | tag attrs cs IH] using node_induction; intros n b Hb.
  - rewrite nodeToBlock_text in Hb.
    destruct (JsString.trim d =? ""); [discriminate Hb|].
    injection Hb as <-. apply Block.every_node_intro with (inner := []).
    + apply payload_exclusive_text.
    + reflexivity.
    + constructor.
  - discriminate Hb.
  - rewrite nodeToBlock_element in Hb. cbn [fst] in Hb. injection Hb as <-.
    destruct (detectContent_shape innerHTML (Element tag attrs cs)
                (JsString.toLowerCase tag) (getTagConfig (JsString.toLowerCase tag))
                (includes voidElements (JsString.toLowerCase tag)))
      as (isBlocks & ct & content & Hshape & ->).
    cbn [fst snd].
    eapply Block.every_node_intro.
    + apply payload_exclusive_blockObject.
      destruct isBlocks; [intros _; now apply Hshape | intro H; contradiction H; reflexivity].
    + apply Block_innerBlocks_blockObject.
    + destruct isBlocks; [|constructor].
      apply pushBlocks_Forall. exact IH.
Qed.

End Payload.

(** C9. Every node of every tree that the forward transcoder produces has
    a content payload that is not empty only when its content type is
    [text] or [html], child blocks only when its content type is [blocks],
    and never both. *)
Theorem C9_payload_exclusivity
    (innerHTML : node -> string) (random16 : nat -> nat)
    (bodyFirstChild : string -> option node) (html : jsval) (n : nat) :
  Forall (Block.every_node Block.payload_exclusive)
    (fst (parseHTMLToBlocks innerHTML random16 bodyFirstChild html n)).
Proof.
  unfold parseHTMLToBlocks.
  destruct html as [| | | |text| |]; try constructor.
  destruct (negb (Js.truthy (JStr text))); [constructor|].
  destruct (bodyFirstChild _) as [container|]; [|constructor].
  apply pushBlocks_Forall. apply Forall_forall. intros c _.
  apply nodeToBlock_payload.
Qed.

(* ===================================================================== *)
(** * The trees of the forward transcoder have the persisted shape *)
(* ===================================================================== *)

Section ForwardSchema.

Variable innerHTML : node -> string.
Variable random16 : nat -> nat.

Lemma nodeToBlock_schema (nd : node) :
  forall n b, fst (nodeToBlock innerHTML random16 nd n) = Some b -> block_schema b.
Proof.
  induction nd as [d | d | tag attrs cs IH] using node_induction; intros n b Hb.
  - rewrite nodeToBlock_text in Hb.
    destruct (JsString.trim d =? ""); [discriminate Hb|].
    injection Hb as <-.
    eapply schema_block with (inner := []); try reflexivity.
    + right. eexists. reflexivity.
    + left. reflexivity.
    + constructor.
  - discriminate Hb.
  - rewrite nodeToBlock_element in Hb. cbn [fst] in Hb. injection Hb as <-.
    match goal with
    | |- block_schema (blockObject _ _ (blockAttributes ?t ?ct ?sc ?g ?cls ?content) ?inner) =>
        destruct (blockAttributes_is_object t ct sc g cls content) as [ps Hps];
        pose proof (blockAttributes_tagName t ct sc g cls content) as Ht;
        pose proof (blockAttributes_globalAttrs t ct sc g cls content) as Hg;
        rewrite Hps in Ht, Hg |- *
    end.
    eapply schema_block; try reflexivity.
    + right. eexists. exact Ht.
    + right. eexists. exact Hg.
    + apply blocks_schema_Forall.
      destruct (detectContent_shape innerHTML (Element tag attrs cs)
                  (JsString.toLowerCase tag) (getTagConfig (JsString.toLowerCase tag))
                  (includes voidElements (JsString.toLowerCase tag)))
        as (isBlocks & ct & content & _ & ->).
      cbn [fst snd]. destruct isBlocks; [|constructor].
      apply pushBlocks_Forall. exact IH.
Qed.

Lemma parseHTMLToBlocks_schema (bodyFirstChild : string -> option node)
    (html : jsval) (n : nat) :
  Forall block_schema (fst (parseHTMLToBlocks innerHTML random16 bodyFirstChild html n)).
Proof.
  unfold parseHTMLToBlocks.
  destruct html as [| | | |text| |]; try constructor.
  destruct (negb (Js.truthy (JStr text))); [constructor|].
  destruct (bodyFirstChild _) as [container|]; [|constructor].
  apply pushBlocks_Forall. apply Forall_forall. intros c _.
  apply nodeToBlock_schema.
Qed.

End ForwardSchema.

(* ===================================================================== *)
(** * C6: exceptions and guards *)
(* ===================================================================== *)

(** C6 as stated fails: a reverse transcoder that is given a value that is
    not an array does not raise; it returns the empty string. *)
Lemma C6_counterexample :
  parseBlocksToHTML (fun _ => false) false (JStr "not a block sequence") 0 = Ok ""
  /\ ~ (exists e, parseBlocksToHTML (fun _ => false) false
                    (JStr "not a block sequence") 0 = Throw e)
  /\ parseBlocksToWPMarkup (fun _ => false) (fun _ => "{}") (JObj []) 0 = Ok ""
  /\ ~ (exists e, parseBlocksToWPMarkup (fun _ => false) (fun _ => "{}")
                    (JObj []) 0 = Throw e).
Proof.
  repeat split; try reflexivity; intros [e H]; discriminate H.
Qed.

Lemma heading_schema : block_schema Sample.heading.
Proof.
  eapply schema_block with (attrs := Sample.heading_attrs) (inner := []);
    try reflexivity.
  - right. eexists. reflexivity.
  - right. eexists. reflexivity.
  - constructor.
Qed.

(** ** Blocks of the persisted shape *)

Lemma block_shape_schema (block : jsval) : block_shape block -> block_schema block.
Proof.
  intro H.
  induction H using block_shape_mut with (P0 := fun l _ => blocks_schema l).
  - eapply schema_block with (attrs := attrs) (inner := inner); try assumption.
    + match goal with
      | Hg : _ \/ (exists g, _ /\ _) |- _ =>
          destruct Hg as [Hg | (g & Hg & _)]; [now left | right; now exists g]
      end.
  - constructor.
  - now constructor.
Qed.

Lemma blocks_shape_Forall (l : list jsval) : blocks_shape l <-> Forall block_shape l.
Proof.
  split; induction 1; constructor; auto.
Qed.

Lemma replace_prop_strings (k s : string) (ps : list (string * jsval)) :
  Forall string_valued ps -> Forall string_valued (Js.replace_prop k (JStr s) ps).
Proof.
  induction 1 as [|[k' v'] r Hx Hr IH]; cbn [Js.replace_prop]; [constructor|].
  destruct (k =? k'); constructor; try assumption. now exists s.
Qed.

Lemma insert_index_strings (i : N) (k s : string) (ps : list (string * jsval)) :
  Forall string_valued ps -> Forall string_valued (Js.insert_index i k (JStr s) ps).
Proof.
  assert (Hnew : string_valued (k, JStr s)) by (now exists s).
  induction 1 as [|[k' v'] r Hx Hr IH]; cbn [Js.insert_index]; [now constructor|].
  destruct (Js.array_index k') as [i'|].
  - destruct (i' <? i)%N;
      [constructor; [exact Hx | exact IH]
      | constructor; [exact Hnew | constructor; assumption]].
  - constructor; [exact Hnew | constructor; assumption].
Qed.

Lemma set_strings (k s : string) (ps : list (string * jsval)) :
  Forall string_valued ps -> Forall string_valued (Js.set k (JStr s) ps).
Proof.
  intro H. unfold Js.set. destruct (k =? "__proto__"); [exact H|].
  destruct (Js.has_key k ps); [now apply replace_prop_strings|].
  destruct (Js.array_index k); [now apply insert_index_strings|].
  apply Forall_app. split; [exact H|]. constructor; [now exists s | constructor].
Qed.

Lemma extractAttributes_strings (attrs : list (string * string)) :
  Forall string_valued (snd (extractAttributes attrs)).
Proof.
  unfold extractAttributes.
  assert (H : forall acc, Forall string_valued (snd acc) ->
                          Forall string_valued (snd (fold_left extractStep attrs acc))).
  { induction attrs as [|[name value] attrs IH]; intros [cls g] Hg; [exact Hg|].
    cbn [fold_left]. apply IH. unfold extractStep. cbn [snd] in Hg.
    destruct (name =? "class"); [exact Hg|].
    destruct (name =? "style"); cbn [snd]; now apply set_strings. }
  apply H. constructor.
Qed.

Section Shape.

Variable innerHTML : node -> string.
Variable random16 : nat -> nat.

Lemma shape_blockObject (id t : string) (ct sc : jsval) (g : list (string * jsval))
    (cls content : string) (inner : list jsval) :
  Forall string_valued g ->
  blocks_shape inner ->
  block_shape (blockObject id "universal/element"
                 (blockAttributes t ct sc g cls content) inner).
Proof.
  intros Hg Hinner.
  destruct (blockAttributes_is_object t ct sc g cls content) as [ps Hps].
  pose proof (blockAttributes_tagName t ct sc g cls content) as Htag.
  pose proof (blockAttributes_className t ct sc g cls content) as Hcls.
  pose proof (blockAttributes_content t ct sc g cls content) as Hcontent.
  pose proof (blockAttributes_globalAttrs t ct sc g cls content) as Hglobal.
  rewrite Hps in *. cbn [Js.get_opt Js.get] in Htag, Hcls, Hcontent, Hglobal.
  unfold blockObject.
  eapply shape_block with (attrs := ps) (inner := inner);
    try reflexivity; try assumption.
  - right. now exists t.
  - rewrite Hcls. destruct (cls =? ""); [now left | right; now exists cls].
  - rewrite Hcontent.
    destruct (Js.is_str "text" ct || Js.is_str "html" ct);
      [right; now exists content | now left].
  - right. exists g. split; assumption.
Qed.

Lemma shape_text (id text : string) :
  block_shape (blockObject id "universal/element" (textBlockAttributes text) []).
Proof.
  unfold blockObject, textBlockAttributes.
  eapply shape_block with (inner := []); try reflexivity.
  - right. now exists "p".
  - now left.
  - right. now exists text.
  - now left.
  - constructor.
Qed.

Lemma nodeToBlock_shape (nd : node) :
  forall n b, fst (nodeToBlock innerHTML random16 nd n) = Some b -> block_shape b.
Proof.
  induction nd as [d | d | tag attrs cs IH] using node_induction; intros n b Hb.
  - rewrite nodeToBlock_text in Hb.
    destruct (JsString.trim d =? ""); [discriminate Hb|].
    injection Hb as <-. apply shape_text.
  - discriminate Hb.
  - rewrite nodeToBlock_element in Hb.
    match type of Hb with
    | fst (Some ?x, _) = Some b =>
        assert (Hx : b = x) by (change (Some x = Some b) in Hb; congruence)
    end.
    clear Hb. subst b.
    destruct (detectContent_shape innerHTML (Element tag attrs cs)
                (JsString.toLowerCase tag) (getTagConfig (JsString.toLowerCase tag))
                (includes voidElements (JsString.toLowerCase tag)))
      as (isBlocks & ct & content & _ & Hd).
    rewrite Hd. cbn [fst snd].
    apply shape_blockObject; [apply extractAttributes_strings|].
    destruct isBlocks; [|constructor].
    apply blocks_shape_Forall, pushBlocks_Forall. exact IH.
Qed.

Lemma parseHTMLToBlocks_shape (bodyFirstChild : string -> option node)
    (html : jsval) (n : nat) :
  Forall block_shape (fst (parseHTMLToBlocks innerHTML random16 bodyFirstChild html n)).
Proof.
  unfold parseHTMLToBlocks.
  destruct html as [| | | |text| |]; try constructor.
  destruct (negb (Js.truthy (JStr text))); [constructor|].
  destruct (bodyFirstChild _) as [container|]; [|constructor].
  apply pushBlocks_Forall. apply Forall_forall. intros c _.
  apply nodeToBlock_shape.
Qed.

End Shape.

Lemma shape_list_schema (blocks : list jsval) :
  Forall block_shape blocks -> Forall block_schema blocks.
Proof. apply Forall_impl. exact block_shape_schema. Qed.

(** C6, as the code has it.  A reverse transcoder returns the empty string
    for an argument that is not an array; the forward transcoder returns no
    block for an input that is not a string, or is the empty string.  A
    sequence of blocks of the persisted shape (attributes that are an object
    with a string or absent tag name, class name and content and an absent
    or string-valued [globalAttrs], inner blocks that are an array of such
    blocks) is rendered without an exception; the blocks that the forward
    transcoder returns for a document have that shape, so that they are
    rendered without an exception too.  A reverse transcoder raises only
    for a block that violates the shape, such as an element block without
    [attributes]. *)
Theorem C6_guards_and_exceptions
    (textGt0 : jsval -> bool) (JSON_stringify : jsval -> string)
    (innerHTML : node -> string) (random16 : nat -> nat)
    (bodyFirstChild : string -> option node)
    (pretty : bool) (indent n : nat)
    (notArray notText document : jsval) (blocks : list jsval) :
  Js.isArray notArray = false ->
  (forall text, notText = JStr text -> text = "") ->
  Forall block_shape blocks ->
  (parseBlocksToHTML textGt0 pretty notArray indent = Ok ""
   /\ parseBlocksToWPMarkup textGt0 JSON_stringify notArray indent = Ok "")
  /\ parseHTMLToBlocks innerHTML random16 bodyFirstChild notText n = ([], n)
  /\ (exists out, parseBlocksToHTML textGt0 pretty (JArr blocks) indent = Ok out)
  /\ (exists out, parseBlocksToWPMarkup textGt0 JSON_stringify (JArr blocks) indent = Ok out)
  /\ Forall block_shape
       (fst (parseHTMLToBlocks innerHTML random16 bodyFirstChild document n))
  /\ (exists out,
        parseBlocksToHTML textGt0 pretty
          (JArr (fst (parseHTMLToBlocks innerHTML random16 bodyFirstChild document n)))
          indent = Ok out)
  /\ (exists out,
        parseBlocksToWPMarkup textGt0 JSON_stringify
          (JArr (fst (parseHTMLToBlocks innerHTML random16 bodyFirstChild document n)))
          indent = Ok out)
  /\ (exists e, blockToHTML textGt0 pretty Sample.no_attributes indent = Throw e).
Proof.
  intros Harr Htext Hshape.
  pose proof (parseHTMLToBlocks_shape innerHTML random16 bodyFirstChild document n)
    as Hforward.
  split; [destruct notArray; try discriminate Harr; split; reflexivity|].
  split.
  { unfold parseHTMLToBlocks. destruct notText as [| | | |text| |]; try reflexivity.
    rewrite (Htext text eq_refl). reflexivity. }
  split; [now apply schema_list_renders_HTML, shape_list_schema|].
  split; [now apply schema_list_renders_WPMarkup, shape_list_schema|].
  split; [exact Hforward|].
  split; [now apply schema_list_renders_HTML, shape_list_schema|].
  split; [now apply schema_list_renders_WPMarkup, shape_list_schema|].
  eexists. reflexivity.
Qed.

Lemma heading_shape : block_shape Sample.heading.
Proof.
  eapply shape_block with (attrs := Sample.heading_attrs) (inner := []);
    try reflexivity.
  - right. now exists "h1".
  - now left.
  - right. now exists "Hi".
  - right. exists []. split; [reflexivity | constructor].
  - constructor.
Qed.

Lemma C6_witness :
  parseBlocksToHTML (fun _ => false) true (JNum 42) 0 = Ok ""
  /\ parseHTMLToBlocks (fun _ => "") (fun _ => 0) paragraph_document JNull 0 = ([], 0)
  /\ exists out, parseBlocksToHTML (fun _ => false) true (JArr [Sample.heading]) 0 = Ok out.
Proof.
  assert (Hs : Forall block_shape [Sample.heading])
    by (constructor; [exact heading_shape | constructor]).
  assert (Ht : forall text, JNull = JStr text -> text = "")
    by (intros text H; discriminate H).
  destruct (C6_guards_and_exceptions (fun _ => false) (fun _ => "{}") (fun _ => "")
              (fun _ => 0) paragraph_document true 0 0 (JNum 42) JNull (JStr "<p></p>")
              [Sample.heading] eq_refl Ht Hs)
    as ((H1 & _) & H2 & H3 & _).
  exact (conj H1 (conj H2 H3)).
Defined.

(* ===================================================================== *)
(** * C7: determinism *)
(* ===================================================================== *)

Section ReverseIgnoresIds.

Variable textGt0 : jsval -> bool.
Variable JSON_stringify : jsval -> string.

Lemma same_but_id_list_length (l1 l2 : list jsval) :
  Block.same_but_id_list l1 l2 -> List.length l1 = List.length l2.
Proof. induction 1; simpl; congruence. Qed.

Lemma elementToHTML_ext (pretty : bool) (attributes : jsval) (l1 l2 : list jsval)
    (p1 p2 : nat -> result string) (indent : nat) :
  List.length l1 = List.length l2 ->
  (forall i, p1 i = p2 i) ->
  elementToHTML textGt0 pretty attributes (JArr l1) p1 indent =
  elementToHTML textGt0 pretty attributes (JArr l2) p2 indent.
Proof.
  intros Hlen Hp. unfold elementToHTML, hasInnerBlocks.
  cbn [Js.get_opt Js.get String.eqb Ascii.eqb Bool.eqb]. rewrite Hlen, Hp. reflexivity.
Qed.

Lemma elementToWPMarkup_ext (attributes : jsval) (l1 l2 : list jsval)
    (p1 p2 : nat -> result string) (indent : nat) :
  List.length l1 = List.length l2 ->
  (forall i, p1 i = p2 i) ->
  elementToWPMarkup textGt0 JSON_stringify attributes (JArr l1) p1 indent =
  elementToWPMarkup textGt0 JSON_stringify attributes (JArr l2) p2 indent.
Proof.
  intros Hlen Hp. unfold elementToWPMarkup, hasInnerBlocks, noInnerBlocks.
  cbn [Js.get_opt Js.get String.eqb Ascii.eqb Bool.eqb]. rewrite Hlen, Hp. reflexivity.
Qed.

Lemma blockToHTML_same_but_id (pretty : bool) (b1 b2 : jsval) :
  Block.same_but_id b1 b2 ->
  forall indent, blockToHTML textGt0 pretty b1 indent = blockToHTML textGt0 pretty b2 indent.
Proof.
  intro H.
  induction H using Block.same_but_id_mut
    with (P0 := fun l1 l2 _ => forall indent,
                  mapM (fun b => blockToHTML textGt0 pretty b indent) l1 =
                  mapM (fun b => blockToHTML textGt0 pretty b indent) l2).
  - intro indent. unfold blockObject. rewrite !blockToHTML_JObj.
    cbn [Js.lookup String.eqb Ascii.eqb Bool.eqb].
    destruct (Js.is_str "universal/element" (JStr name)); [|reflexivity].
    apply elementToHTML_ext; [now apply same_but_id_list_length|].
    intro i. unfold parseBlocksToHTML, mapJoin. now rewrite IHsame_but_id.
  - reflexivity.
  - intro indent. cbn [mapM]. now rewrite IHsame_but_id, IHsame_but_id0.
Qed.

Lemma blockToWPMarkup_same_but_id (b1 b2 : jsval) :
  Block.same_but_id b1 b2 ->
  forall indent, blockToWPMarkup textGt0 JSON_stringify b1 indent =
                 blockToWPMarkup textGt0 JSON_stringify b2 indent.
Proof.
  intro H.
  induction H using Block.same_but_id_mut
    with (P0 := fun l1 l2 _ => forall indent,
                  mapM (fun b => blockToWPMarkup textGt0 JSON_stringify b indent) l1 =
                  mapM (fun b => blockToWPMarkup textGt0 JSON_stringify b indent) l2).
  - intro indent. unfold blockObject. rewrite !blockToWPMarkup_JObj.
    cbn [Js.lookup String.eqb Ascii.eqb Bool.eqb].
    destruct (Js.is_str "universal/element" (JStr name)); [|reflexivity].
    apply elementToWPMarkup_ext; [now apply same_but_id_list_length|].
    intro i. unfold parseBlocksToWPMarkup, mapJoin. now rewrite IHsame_but_id.
  - reflexivity.
  - intro indent. cbn [mapM]. now rewrite IHsame_but_id, IHsame_but_id0.
Qed.

Lemma mapM_same_but_id (f : jsval -> result string) (l1 l2 : list jsval) :
  (forall b1 b2, Block.same_but_id b1 b2 -> f b1 = f b2) ->
  Block.same_but_id_list l1 l2 -> mapM f l1 = mapM f l2.
Proof.
  intros Hf H. induction H as [|b1 b2 l1 l2 Hb _ IH]; [reflexivity|].
  cbn [mapM]. now rewrite (Hf _ _ Hb), IH.
Qed.

End ReverseIgnoresIds.

Section ForwardUpToIds.

Variable innerHTML : node -> string.

Lemma pushBlocks_agree (f1 f2 : node -> Rand (option jsval)) (cs : list node) :
  Forall (fun c => forall n1 n2, Block.agree (fst (f1 c n1)) (fst (f2 c n2))) cs ->
  forall n1 n2,
    Block.same_but_id_list (fst (pushBlocks f1 cs n1)) (fst (pushBlocks f2 cs n2)).
Proof.
  induction 1 as [|c cs Hc _ IH]; intros n1 n2; cbn [pushBlocks]; [constructor|].
  specialize (Hc n1 n2).
  destruct (f1 c n1) as [o1 m1], (f2 c n2) as [o2 m2].
  specialize (IH m1 m2).
  destruct (pushBlocks f1 cs m1) as [bs1 k1], (pushBlocks f2 cs m2) as [bs2 k2].
  cbn [fst] in *. unfold Block.agree in Hc.
  destruct o1, o2; try contradiction; [constructor; assumption | assumption].
Qed.

Lemma nodeToBlock_agree (r1 r2 : nat -> nat) (nd : node) :
  forall n1 n2,
    Block.agree (fst (nodeToBlock innerHTML r1 nd n1)) (fst (nodeToBlock innerHTML r2 nd n2)).
Proof.
  induction nd as [d | d | tag attrs cs IH] using node_induction; intros n1 n2.
  - rewrite !nodeToBlock_text. destruct (JsString.trim d =? ""); [exact I|].
    cbn [fst Block.agree]. constructor. constructor.
  - exact I.
  - rewrite !nodeToBlock_element. cbn [fst Block.agree].
    destruct (detectContent_shape innerHTML (Element tag attrs cs)
                (JsString.toLowerCase tag) (getTagConfig (JsString.toLowerCase tag))
                (includes voidElements (JsString.toLowerCase tag)))
      as (isBlocks & ct & content & _ & Hd).
    rewrite !Hd. cbn [fst snd]. constructor.
    destruct isBlocks; [|constructor].
    now apply pushBlocks_agree.
Qed.

End ForwardUpToIds.

(** C7 as stated fails for the forward direction: it draws the identifiers
    from [Math.random], so a second run on the same document, in the same
    process, returns a different tree. *)
Lemma C7_counterexample :
  let run := parseHTMLToBlocks (fun _ => "") (fun n => n) paragraph_document
               (JStr "<p></p>") in
  snd (run 0) = 31 /\ fst (run 0) <> fst (run 31).
Proof.
  split; [reflexivity|]. intro H. vm_compute in H. discriminate H.
Qed.

(** C7, as the code has it.  Two runs of the forward transcoder on the same
    input return trees that differ in the identifiers of their nodes only,
    whatever [Math.random] returns in each; the reverse transcoder and the
    markup serializer are functions of their arguments that do not read the
    identifiers, so that they map both trees to the same text. *)
Theorem C7_deterministic_up_to_identifiers
    (textGt0 : jsval -> bool) (JSON_stringify : jsval -> string)
    (innerHTML : node -> string) (bodyFirstChild : string -> option node)
    (random1 random2 : nat -> nat) (n1 n2 : nat)
    (html : jsval) (pretty : bool) (indent : nat) :
  let tree1 := fst (parseHTMLToBlocks innerHTML random1 bodyFirstChild html n1) in
  let tree2 := fst (parseHTMLToBlocks innerHTML random2 bodyFirstChild html n2) in
  Block.same_but_id_list tree1 tree2
  /\ parseBlocksToHTML textGt0 pretty (JArr tree1) indent
     = parseBlocksToHTML textGt0 pretty (JArr tree2) indent
  /\ parseBlocksToWPMarkup textGt0 JSON_stringify (JArr tree1) indent
     = parseBlocksToWPMarkup textGt0 JSON_stringify (JArr tree2) indent.
Proof.
  intros tree1 tree2.
  assert (H : Block.same_but_id_list tree1 tree2).
  { unfold tree1, tree2, parseHTMLToBlocks.
    destruct html as [| | | |text| |]; try constructor.
    destruct (negb (Js.truthy (JStr text))); [constructor|].
    destruct (bodyFirstChild _) as [container|]; [|constructor].
    apply pushBlocks_agree. apply Forall_forall. intros c _.
    apply nodeToBlock_agree. }
  split; [exact H|]. split.
  - unfold parseBlocksToHTML, mapJoin.
    rewrite (mapM_same_but_id _ tree1 tree2); [reflexivity | | exact H].
    intros b1 b2 Hb. now apply blockToHTML_same_but_id.
  - unfold parseBlocksToWPMarkup, mapJoin.
    rewrite (mapM_same_but_id _ tree1 tree2); [reflexivity | | exact H].
    intros b1 b2 Hb. now apply blockToWPMarkup_same_but_id.
Qed.

(* ===================================================================== *)
(** * C4: the self-closing form of a dynamic tag *)
(* ===================================================================== *)

Lemma takeWord_app (w rest : string) :
  all_chars JsString.is_word w = true ->
  starts_with_word rest = false ->
  takeWord (w ++ rest) = (w, rest).
Proof.
  intros Hw Hrest. induction w as [|c w IH]; cbn [append].
  - destruct rest as [|c r]; [reflexivity|]. cbn in Hrest |- *. now rewrite Hrest.
  - cbn [all_chars] in Hw. apply andb_true_iff in Hw as [Hc Hw].
    cbn [takeWord]. rewrite Hc, (IH Hw). reflexivity.
Qed.

Lemma lazyUntilSlashGt_cons (c : ascii) (r : string) :
  Ascii.eqb c ">" = false ->
  (Ascii.eqb c "/" = true -> match r with String d _ => Ascii.eqb d ">" = false
                                   | EmptyString => True end) ->
  lazyUntilSlashGt (String c r) =
  match lazyUntilSlashGt r with
  | Some (run, rest) => Some (String c run, rest)
  | None => None
  end.
Proof.
  intros Hc Hnext. cbn [lazyUntilSlashGt]. rewrite Hc.
  destruct (Ascii.eqb c "/"); [|reflexivity].
  specialize (Hnext eq_refl). destruct r as [|d r]; [reflexivity|].
  now rewrite Hnext.
Qed.

Lemma lazyUntilSlashGt_app (attrs post : string) :
  no_char ">" attrs = true ->
  lazyUntilSlashGt (attrs ++ "/>" ++ post) = Some (attrs, post).
Proof.
  intro H. induction attrs as [|c attrs IH]; [reflexivity|].
  cbn [no_char all_chars] in H. apply andb_true_iff in H as [Hc H].
  apply negb_true_iff in Hc. fold (no_char ">" attrs) in H.
  change (String c attrs ++ "/>" ++ post) with (String c (attrs ++ "/>" ++ post)).
  rewrite lazyUntilSlashGt_cons; [now rewrite (IH H) | exact Hc |].
  intros _. destruct attrs as [|d attrs]; [reflexivity|].
  cbn [append]. cbn [no_char all_chars] in H. apply andb_true_iff in H as [Hd _].
  now apply negb_true_iff in Hd.
Qed.

Lemma matchSelfClosing_tag (name attrs post : string) :
  name <> "" ->
  all_chars JsString.is_word name = true ->
  no_char ">" attrs = true ->
  starts_with_word attrs = false ->
  matchSelfClosing ("<" ++ name ++ attrs ++ "/>" ++ post) = Some (name, attrs, post).
Proof.
  intros Hne Hw Hgt Hstart.
  change ("<" ++ name ++ attrs ++ "/>" ++ post)
    with (String "<" (name ++ attrs ++ "/>" ++ post)).
  cbn [matchSelfClosing]. rewrite Ascii.eqb_refl.
  rewrite takeWord_app; [| exact Hw |].
  - destruct (String.eqb_spec name ""); [contradiction|].
    now rewrite lazyUntilSlashGt_app.
  - destruct attrs as [|c attrs]; [reflexivity | exact Hstart].
Qed.

Lemma replaceSelfClosing_skip (x y : string) (k : nat) :
  replaceSelfClosing (String.length x + k) (x ++ y) =
  match y with
  | EmptyString => ""
  | _ => replaceSelfClosing k y
  end.
Proof.
  induction x as [|c x IH]; cbn [String.length append Nat.add].
  - destruct y; [destruct k|]; reflexivity.
  - cbn [replaceSelfClosing]. exact IH.
Qed.

Lemma replaceSelfClosing_skip0 (x y : string) :
  replaceSelfClosing (String.length x) (x ++ y) = replaceSelfClosing 0 y.
Proof.
  rewrite <- (Nat.add_0_r (String.length x)), replaceSelfClosing_skip.
  destruct y; reflexivity.
Qed.

Lemma plain_close_lazy (r s : string) :
  plain_close r = true -> lazyUntilSlashGt (r ++ s) = None.
Proof.
  induction r as [|c r IH]; [discriminate|].
  cbn [plain_close]. intro H.
  change (String c r ++ s) with (String c (r ++ s)).
  destruct (Ascii.eqb c ">") eqn:Egt.
  - cbn [lazyUntilSlashGt]. rewrite Egt.
    apply Ascii.eqb_eq in Egt. subst c. reflexivity.
  - rewrite lazyUntilSlashGt_cons; [| exact Egt |].
    + destruct (Ascii.eqb c "/" && _) eqn:E; [discriminate H|]. now rewrite (IH H).
    + intro Hslash. rewrite Hslash in H. cbn [andb] in H.
      destruct r as [|d r]; [discriminate H|].
      change (String d r ++ s) with (String d (r ++ s)). cbv beta iota.
      destruct (Ascii.eqb d ">") eqn:Ed; [discriminate H | reflexivity].
Qed.

Lemma is_word_not_delimiter (c : ascii) :
  JsString.is_word c = true -> Ascii.eqb c ">" = false /\ Ascii.eqb c "/" = false.
Proof. destruct c as [[] [] [] [] [] [] [] []]; intro H; try discriminate H; split; reflexivity. Qed.

Lemma plain_close_takeWord (r s : string) :
  plain_close r = true ->
  exists w r1, takeWord (r ++ s) = (w, r1 ++ s) /\ plain_close r1 = true.
Proof.
  induction r as [|c r IH]; [discriminate|]. intro H.
  change (String c r ++ s) with (String c (r ++ s)). cbn [takeWord].
  destruct (JsString.is_word c) eqn:Ew.
  - destruct (is_word_not_delimiter c Ew) as [Egt Esl].
    cbn [plain_close] in H. rewrite Egt, Esl in H. cbn [andb] in H.
    destruct (IH H) as (w & r1 & -> & Hr1). exists (String c w), r1. auto.
  - exists "", (String c r). auto.
Qed.

Lemma plain_close_no_match (r s : string) :
  plain_close r = true -> matchSelfClosing (String "<" (r ++ s)) = None.
Proof.
  intro H. cbn [matchSelfClosing]. rewrite Ascii.eqb_refl.
  destruct (plain_close_takeWord r s H) as (w & r1 & -> & Hr1).
  destruct (w =? ""); [reflexivity|].
  now rewrite (plain_close_lazy r1 s Hr1).
Qed.

Lemma replaceSelfClosing_plain (pre s : string) :
  tags_closed pre = true ->
  replaceSelfClosing 0 (pre ++ s) = pre ++ replaceSelfClosing 0 s.
Proof.
  intro H. induction pre as [|c pre IH]; [reflexivity|].
  cbn [tags_closed] in H. apply andb_true_iff in H as [Hc H].
  change (String c pre ++ s) with (String c (pre ++ s)).
  cbn [replaceSelfClosing].
  assert (Hm : matchSelfClosing (String c (pre ++ s)) = None).
  { destruct (Ascii.eqb c "<") eqn:E.
    - apply Ascii.eqb_eq in E. subst c. now apply plain_close_no_match.
    - cbn [matchSelfClosing]. now rewrite E. }
  rewrite Hm, (IH H). reflexivity.
Qed.

(** The self-closing form of a tag, after a text without self-closing
    tags, is rewritten by the callback; the rewriting goes on after it. *)
Lemma replaceSelfClosing_tag (pre name attrs post : string) :
  tags_closed pre = true ->
  name <> "" ->
  all_chars JsString.is_word name = true ->
  no_char ">" attrs = true ->
  starts_with_word attrs = false ->
  replaceSelfClosing 0 (pre ++ "<" ++ name ++ attrs ++ "/>" ++ post) =
  pre ++ rewriteSelfClosing name attrs ++ replaceSelfClosing 0 post.
Proof.
  intros Hpre Hne Hw Hgt Hstart.
  rewrite (replaceSelfClosing_plain _ _ Hpre). f_equal.
  pose proof (matchSelfClosing_tag name attrs post Hne Hw Hgt Hstart) as Hm.
  change ("<" ++ name ++ attrs ++ "/>" ++ post)
    with (String "<" (name ++ attrs ++ "/>" ++ post)) in *.
  cbn [replaceSelfClosing]. rewrite Hm. f_equal.
  replace (name ++ attrs ++ "/>" ++ post) with ((name ++ attrs ++ "/>") ++ post)
    by (now rewrite !append_assoc).
  replace (String.length name + String.length attrs + 2)
    with (String.length (name ++ attrs ++ "/>"))
    by (rewrite !append_length; simpl; lia).
  apply replaceSelfClosing_skip0.
Qed.

(** [set] is the one tag whose policy marks it self-closing. *)
Lemma selfClosing_policy_set (tagName : string) :
  Js.get_opt (getTagConfig tagName) "selfClosing" = JBool true
  <-> JsString.toLowerCase tagName = "set".
Proof.
  unfold getTagConfig. set (k := JsString.toLowerCase tagName).
  unfold tagConfigs. cbn [Js.has_key Js.lookup].
  rewrite (String.eqb_sym k "set"), (String.eqb_sym k "loop"), (String.eqb_sym k "if").
  destruct (String.eqb_spec "set" k) as [<-|Hs]; [split; reflexivity|].
  destruct (String.eqb_spec "loop" k) as [<-|Hl]; [split; discriminate|].
  destruct (String.eqb_spec "if" k) as [<-|Hi]; [split; discriminate|].
  cbn [orb]. split; [|intro H; now contradiction Hs].
  destruct ((k =? "constructor") || (k =? "__proto__")); discriminate.
Qed.

Lemma rewriteSelfClosing_policy (name attrs : string) :
  rewriteSelfClosing name attrs =
  if JsString.toLowerCase name =? "set"
  then "<" ++ name ++ attrs ++ "></" ++ name ++ ">"
  else "<" ++ name ++ attrs ++ "/>".
Proof.
  unfold rewriteSelfClosing. rewrite getTagConfig_lower.
  pose proof (selfClosing_policy_set name) as H.
  destruct (String.eqb_spec (JsString.toLowerCase name) "set") as [E|E].
  - destruct H as [_ H]. now rewrite (H E).
  - destruct (Js.get_opt (getTagConfig name) "selfClosing") as [| |[]| | | |];
      try reflexivity.
    exfalso. apply E, H. reflexivity.
Qed.

(** Before the DOM is built, a tag in self-closing form whose name is a run of
    word characters and whose attributes hold no greater-than sign (the first one
    of the text, and in turn each one after it) is rewritten to the explicit
    empty-element form when the policy of its name marks it self-closing,
    which is the case of [set] only, and is left as it is otherwise.  So
    the two inputs [SetTag.self_closing] and [SetTag.explicit] reach the
    parser as an explicit empty element, and both yield the same single
    block, with the content type [empty] and the self-closing flag [true]. *)
Lemma self_closing_normalization_of_word_tags
    (innerHTML : node -> string) (random16 : nat -> nat)
    (bodyFirstChild : string -> option node) (n : nat)
    (pre name attrs post : string) :
  tags_closed pre = true ->
  name <> "" ->
  all_chars JsString.is_word name = true ->
  no_char ">" attrs = true ->
  starts_with_word attrs = false ->
  bodyFirstChild ("<div>" ++ SetTag.rewritten ++ "</div>")
    = Some (Element "DIV" [] [SetTag.element]) ->
  bodyFirstChild ("<div>" ++ SetTag.explicit ++ "</div>")
    = Some (Element "DIV" [] [SetTag.element]) ->
  replaceSelfClosing 0 (pre ++ "<" ++ name ++ attrs ++ "/>" ++ post) =
    pre ++ (if JsString.toLowerCase name =? "set"
            then "<" ++ name ++ attrs ++ "></" ++ name ++ ">"
            else "<" ++ name ++ attrs ++ "/>")
        ++ replaceSelfClosing 0 post
  /\ (Js.get_opt (getTagConfig name) "selfClosing" = JBool true
      <-> JsString.toLowerCase name = "set")
  /\ replaceSelfClosing 0 SetTag.self_closing = SetTag.rewritten
  /\ replaceSelfClosing 0 SetTag.explicit = SetTag.explicit
  /\ exists block n',
       parseHTMLToBlocks innerHTML random16 bodyFirstChild (JStr SetTag.self_closing) n
         = ([block], n')
       /\ parseHTMLToBlocks innerHTML random16 bodyFirstChild (JStr SetTag.explicit) n
         = ([block], n')
       /\ Block.tagName block = JStr "set"
       /\ Block.contentType block = JStr "empty"
       /\ Block.selfClosing block = JBool true
       /\ Block.globalAttrs block = JObj [("a", JStr "b")]
       /\ Block.innerBlocks block = JArr [].
Proof.
  intros Hpre Hne Hw Hgt Hstart Hp1 Hp2.
  split; [rewrite <- rewriteSelfClosing_policy; now apply replaceSelfClosing_tag|].
  split; [apply selfClosing_policy_set|].
  split; [reflexivity|]. split; [reflexivity|].
  assert (H1 : replaceSelfClosing 0 SetTag.self_closing = SetTag.rewritten) by reflexivity.
  assert (H2 : replaceSelfClosing 0 SetTag.explicit = SetTag.explicit) by reflexivity.
  assert (Hrun : forall text,
             bodyFirstChild ("<div>" ++ replaceSelfClosing 0 text ++ "</div>")
               = Some (Element "DIV" [] [SetTag.element]) ->
             Js.truthy (JStr text) = true ->
             parseHTMLToBlocks innerHTML random16 bodyFirstChild (JStr text) n =
             pushBlocks (nodeToBlock innerHTML random16) [SetTag.element] n).
  { intros text Hp Ht. unfold parseHTMLToBlocks. rewrite Ht, Hp. reflexivity. }
  rewrite (Hrun SetTag.self_closing) by (rewrite ?H1; auto).
  rewrite (Hrun SetTag.explicit) by (rewrite ?H2; auto).
  cbn [pushBlocks]. unfold SetTag.element. rewrite nodeToBlock_element.
  eexists. eexists. split; [reflexivity|]. split; [reflexivity|].
  unfold Block.tagName, Block.selfClosing, Block.contentType, Block.globalAttrs.
  rewrite !Block_attributes_blockObject, !Block_innerBlocks_blockObject.
  rewrite blockAttributes_tagName, blockAttributes_selfClosing,
    blockAttributes_contentType, blockAttributes_globalAttrs.
  repeat split; reflexivity.
Qed.

(** C4. The rewriting does what the claim says on its two inputs, but not
    on every tag.  It takes for the name of a tag the run of letters,
    digits and underscores after the less-than sign, so that a custom
    element whose name goes on after [set] with a hyphen, and which has no
    policy, is rewritten, and closed under the name [set]; and it takes the
    first greater-than sign for the end of the tag, so that a [set] tag in
    self-closing form with a greater-than sign in an attribute value, whose
    policy marks it self-closing, is left in self-closing form. *)
Theorem C4_self_closing_rewrite_slips (name rest post : string) :
  no_char ">" rest = true ->
  (replaceSelfClosing 0 SetTag.self_closing = SetTag.rewritten
   /\ replaceSelfClosing 0 SetTag.explicit = SetTag.explicit)
  /\ (getTagConfig ("set-" ++ name) = JNull
      /\ replaceSelfClosing 0 ("<set-" ++ rest ++ "/>" ++ post)
         = "<set-" ++ rest ++ "></set>" ++ replaceSelfClosing 0 post
      /\ replaceSelfClosing 0 Slip.hyphenated = Slip.hyphenated_rewritten
      /\ Slip.hyphenated_rewritten <> Slip.hyphenated)
  /\ (Js.get_opt (getTagConfig "set") "selfClosing" = JBool true
      /\ replaceSelfClosing 0 Slip.greater_than = Slip.greater_than).
Proof.
  intro Hrest.
  split; [split; reflexivity|].
  split; [|split; reflexivity].
  split.
  { unfold getTagConfig.
    assert (Hlower : JsString.toLowerCase ("set-" ++ name)
                     = "set-" ++ JsString.toLowerCase name) by reflexivity.
    rewrite Hlower. reflexivity. }
  split; [|split; [reflexivity | discriminate]].
  assert (H : replaceSelfClosing 0 ("" ++ "<" ++ "set" ++ ("-" ++ rest) ++ "/>" ++ post)
              = "" ++ rewriteSelfClosing "set" ("-" ++ rest) ++ replaceSelfClosing 0 post).
  { apply replaceSelfClosing_tag; try reflexivity; [discriminate | exact Hrest]. }
  change (replaceSelfClosing 0 ("<set-" ++ rest ++ "/>" ++ post)
          = rewriteSelfClosing "set" ("-" ++ rest) ++ replaceSelfClosing 0 post) in H.
  rewrite H.
  change (rewriteSelfClosing "set" ("-" ++ rest)) with ("<set-" ++ (rest ++ "></set>")).
  now rewrite !append_assoc.
Qed.

Lemma C4_witness :
  no_char ">" "x " = true
  /\ replaceSelfClosing 0 "<set-x /><br/>" = "<set-x ></set><br/>".
Proof.
  split; [reflexivity|].
  destruct (C4_self_closing_rewrite_slips "x" "x " "<br/>" eq_refl)
    as (_ & (_ & Hrewrite & _) & _).
  exact Hrewrite.
Defined.

(* ===================================================================== *)
(** * C1: the round trip *)
(* ===================================================================== *)

(** ** Reading back what was written *)

Lemma span_app (p : ascii -> bool) (x rest : string) :
  all_chars p x = true ->
  match rest with String d _ => p d = false | EmptyString => True end ->
  Doc.span p (x ++ rest) = (x, rest).
Proof.
  intros Hx Hrest. induction x as [|c x IH].
  - destruct rest as [|d r]; [reflexivity|]. cbn [append Doc.span]. now rewrite Hrest.
  - cbn [all_chars] in Hx. apply andb_true_iff in Hx as [Hc Hx].
    change (String c x ++ rest) with (String c (x ++ rest)).
    cbn [Doc.span]. now rewrite Hc, (IH Hx).
Qed.

Lemma strip_prefix_app (p s : string) : Doc.strip_prefix p (p ++ s) = Some s.
Proof.
  induction p as [|c p IH]; [reflexivity|].
  change (String c p ++ s) with (String c (p ++ s)).
  cbn [Doc.strip_prefix]. now rewrite Ascii.eqb_refl.
Qed.

Lemma starts_with_other (p : string) (c d : ascii) (s : string) :
  Ascii.eqb c d = false -> Doc.starts_with (String c p) (String d s) = false.
Proof. intro H. unfold Doc.starts_with. cbn [Doc.strip_prefix]. now rewrite H. Qed.

Lemma decode_escaped (v : string) : Doc.decode 0 (Spec.escaped v) = v.
Proof.
  induction v as [|c v IH]; [reflexivity|].
  cbn [Spec.escaped]. unfold Spec.html_entity.
  destruct (Ascii.eqb c "&") eqn:E1;
    [apply Ascii.eqb_eq in E1; subst c|
     destruct (Ascii.eqb c JsString.DQUOTE) eqn:E2;
       [apply Ascii.eqb_eq in E2; subst c|
        destruct (Ascii.eqb c "'") eqn:E3;
          [apply Ascii.eqb_eq in E3; subst c|
           destruct (Ascii.eqb c "<") eqn:E4;
             [apply Ascii.eqb_eq in E4; subst c|
              destruct (Ascii.eqb c ">") eqn:E5;
                [apply Ascii.eqb_eq in E5; subst c|]]]]].
  1-5: (simpl; rewrite IH; reflexivity).
  change (String c "" ++ Spec.escaped v) with (String c (Spec.escaped v)).
  cbn [Doc.decode].
  assert (Hamp : Ascii.eqb "&" c = false) by (now rewrite Ascii.eqb_sym).
  rewrite !(starts_with_other _ _ _ _ Hamp). now rewrite IH.
Qed.

Lemma html_entity_no_dquote (c : ascii) :
  all_chars (fun x => negb (Ascii.eqb x JsString.DQUOTE)) (Spec.html_entity c) = true.
Proof.
  unfold Spec.html_entity.
  destruct (Ascii.eqb c "&"); [reflexivity|].
  destruct (Ascii.eqb c JsString.DQUOTE) eqn:E; [reflexivity|].
  destruct (Ascii.eqb c "'"); [reflexivity|].
  destruct (Ascii.eqb c "<"); [reflexivity|].
  destruct (Ascii.eqb c ">"); [reflexivity|].
  cbn [all_chars]. now rewrite E.
Qed.

Lemma all_chars_app (p : ascii -> bool) (a b : string) :
  all_chars p (a ++ b) = all_chars p a && all_chars p b.
Proof.
  induction a as [|c a IH]; [reflexivity|].
  change (String c a ++ b) with (String c (a ++ b)).
  cbn [all_chars]. now rewrite IH, andb_assoc.
Qed.

Lemma escaped_no_dquote (v : string) :
  all_chars (fun x => negb (Ascii.eqb x JsString.DQUOTE)) (Spec.escaped v) = true.
Proof.
  induction v as [|c v IH]; [reflexivity|].
  cbn [Spec.escaped]. now rewrite all_chars_app, html_entity_no_dquote, IH.
Qed.

Lemma write_attribute_app (k v tail : string) :
  Doc.write_attribute (k, v) ++ tail =
  String " " (k ++ ("=" ++ JsString.dquote) ++ Spec.escaped v
                ++ String JsString.DQUOTE tail).
Proof.
  unfold Doc.write_attribute. cbn [fst snd]. rewrite !append_assoc. reflexivity.
Qed.

Lemma read_attributes_written (attrs : list (string * string)) :
  Forall (fun a => fst a <> "" /\ all_chars is_name_char (fst a) = true) attrs ->
  forall (rest : string) (fuel : nat),
    String.length (String.concat "" (List.map Doc.write_attribute attrs) ++ ">" ++ rest)
      < fuel ->
    Doc.read_attributes fuel
      (String.concat "" (List.map Doc.write_attribute attrs) ++ ">" ++ rest)
    = Some (attrs, rest).
Proof.
  induction 1 as [|[k v] attrs [Hne Hk] _ IH]; intros rest fuel Hfuel.
  - destruct fuel as [|fuel]; [inversion Hfuel|]. reflexivity.
  - destruct fuel as [|fuel]; [inversion Hfuel|].
    cbn [List.map fst] in *.
    rewrite concat_empty_cons, append_assoc, write_attribute_app in Hfuel |- *.
    cbn [Doc.read_attributes Ascii.eqb Bool.eqb].
    rewrite span_app; [| exact Hk | reflexivity].
    destruct (String.eqb_spec k ""); [contradiction|].
    rewrite strip_prefix_app.
    rewrite span_app;
      [| apply escaped_no_dquote | cbn [negb]; now rewrite Ascii.eqb_refl].
    rewrite IH, decode_escaped; [reflexivity|].
    cbn [String.length] in Hfuel. rewrite !append_length in Hfuel.
    cbn [String.length] in Hfuel. lia.
Qed.

Lemma write_app (tag : string) (attrs : list (string * string))
    (children : list Doc.shape) (tail : string) :
  Doc.write (Doc.Shape tag attrs children) ++ tail =
  String "<" (tag ++ (String.concat "" (List.map Doc.write_attribute attrs) ++ ">"
                      ++ Doc.write_forest children ++ ("</" ++ tag ++ ">") ++ tail)).
Proof.
  cbn [Doc.write]. fold (Doc.write_forest children).
  rewrite !append_assoc. reflexivity.
Qed.

Lemma written_attributes_head (attrs : list (string * string)) (tail : string) :
  match String.concat "" (List.map Doc.write_attribute attrs) ++ ">" ++ tail with
  | String d _ => is_name_char d = false
  | EmptyString => True
  end.
Proof.
  destruct attrs as [|[k v] attrs]; [reflexivity|].
  cbn [List.map]. rewrite concat_empty_cons, append_assoc, write_attribute_app.
  reflexivity.
Qed.

Lemma name_not_slash (tag rest : string) :
  tag <> "" -> all_chars is_name_char tag = true ->
  Doc.starts_with "/" (tag ++ rest) = false.
Proof.
  intros Hne Hname. destruct tag as [|c tag]; [contradiction|].
  cbn [all_chars] in Hname. apply andb_true_iff in Hname as [Hc _].
  change (String c tag ++ rest) with (String c (tag ++ rest)).
  apply starts_with_other.
  destruct (Ascii.eqb "/" c) eqn:E; [|reflexivity].
  apply Ascii.eqb_eq in E. subst c. discriminate Hc.
Qed.

Lemma read_forest_at_end (fuel : nat) (rest : string) :
  Doc.at_end rest -> Doc.read_forest (S fuel) rest = Some ([], rest).
Proof.
  intros [-> | H]; [reflexivity|].
  destruct rest as [|c r]; [reflexivity|].
  unfold Doc.starts_with in H. cbn [Doc.strip_prefix] in H.
  destruct (Ascii.eqb "<" c) eqn:E; [|discriminate H].
  apply Ascii.eqb_eq in E. subst c.
  cbn [Doc.read_forest Ascii.eqb Bool.eqb negb].
  unfold Doc.starts_with. cbn [Doc.strip_prefix].
  destruct r as [|d r]; [discriminate H|].
  destruct (Ascii.eqb "/" d); [reflexivity | discriminate H].
Qed.

Ltac string_length :=
  repeat first [rewrite append_length | progress simpl String.length]; lia.

(** Reading inverts writing, with enough fuel for the length of the text. *)
Lemma read_forest_written (fuel : nat) :
  forall (forest : list Doc.shape) (rest : string),
    Doc.readable_forest forest ->
    Doc.at_end rest ->
    String.length (Doc.write_forest forest ++ rest) < fuel ->
    Doc.read_forest fuel (Doc.write_forest forest ++ rest) = Some (forest, rest).
Proof.
  induction fuel as [|fuel IH]; intros forest rest Hr Hend Hlen; [inversion Hlen|].
  destruct Hr as [|s forest Hs Hforest].
  - now apply read_forest_at_end.
  - destruct Hs as [tag attrs children Hne Hname Hattrs Hchildren].
    unfold Doc.write_forest in Hlen |- *. cbn [List.map] in Hlen |- *.
    rewrite concat_empty_cons, append_assoc, write_app in Hlen |- *.
    fold (Doc.write_forest forest) in Hlen |- *.
    cbn [String.length] in Hlen. rewrite !append_length in Hlen.
    cbn [String.length] in Hlen.
    cbn [Doc.read_forest Ascii.eqb Bool.eqb negb].
    rewrite (name_not_slash _ _ Hne Hname).
    rewrite span_app; [| exact Hname | apply written_attributes_head].
    destruct (String.eqb_spec tag ""); [contradiction|].
    rewrite read_attributes_written; [| exact Hattrs | string_length].
    rewrite IH; [| exact Hchildren | right; reflexivity | string_length].
    rewrite strip_prefix_app.
    rewrite IH; [reflexivity | exact Hforest | exact Hend | string_length].
Qed.

Lemma readHTML_written (forest : list Doc.shape) :
  Doc.readable_forest forest ->
  Doc.readHTML (Doc.write_forest forest) = Some forest.
Proof.
  intro H. unfold Doc.readHTML.
  rewrite <- (append_nil_r (Doc.write_forest forest)) at 2.
  rewrite read_forest_written; [reflexivity | exact H | now left |].
  rewrite append_nil_r. lia.
Qed.

(** ** The attributes that the forward transcoder keeps *)

Lemma has_key_In (k : string) (ps : list (string * jsval)) :
  Js.has_key k ps = true <-> In k (List.map fst ps).
Proof.
  induction ps as [|[k' v] ps IH]; cbn [Js.has_key List.map fst In].
  - split; [discriminate | contradiction].
  - rewrite orb_true_iff, IH, String.eqb_eq. intuition congruence.
Qed.

Lemma insert_index_perm (n : N) (k : string) (v : jsval) (ps : list (string * jsval)) :
  Permutation (Js.insert_index n k v ps) ((k, v) :: ps).
Proof.
  induction ps as [|[k' v'] ps IH]; cbn [Js.insert_index]; [reflexivity|].
  destruct (Js.array_index k') as [n'|]; [|reflexivity].
  destruct (n' <? n)%N; [|reflexivity].
  rewrite IH. apply perm_swap.
Qed.

(** A new property joins the others, at some place. *)
Lemma set_new_perm (k : string) (v : jsval) (ps : list (string * jsval)) :
  k <> "__proto__" -> ~ In k (List.map fst ps) ->
  Permutation (Js.set k v ps) ((k, v) :: ps).
Proof.
  intros Hproto Hnew. unfold Js.set.
  destruct (String.eqb_spec k "__proto__"); [contradiction|].
  destruct (Js.has_key k ps) eqn:E; [apply has_key_In in E; contradiction|].
  destruct (Js.array_index k).
  - apply insert_index_perm.
  - symmetry. apply Permutation_cons_append.
Qed.

Lemma extract_fold (attrs : list (string * string)) :
  forall (className : string) (globalAttrs : list (string * jsval)),
    Forall Doc.kept_attribute attrs ->
    NoDup (List.map fst attrs) ->
    (className <> "" -> ~ In "class" (List.map fst attrs)) ->
    (forall k, In k (List.map fst attrs) -> ~ In k (List.map fst globalAttrs)) ->
    Forall Doc.written_as_is globalAttrs ->
    Forall Doc.written_as_is (snd (fold_left extractStep attrs (className, globalAttrs)))
    /\ Permutation
         (Doc.attributes_of (fst (fold_left extractStep attrs (className, globalAttrs)))
                        (snd (fold_left extractStep attrs (className, globalAttrs))))
         (Doc.attributes_of className globalAttrs ++ attrs)%list.
Proof.
  induction attrs as [|[name value] attrs IH];
    intros className globalAttrs Hkept Hnodup Hclass Hfresh Hok.
  - cbn [fold_left fst snd]. rewrite app_nil_r. split; [exact Hok | reflexivity].
  - inversion Hkept as [|? ? [[Hne [Hchars Hstyle]] [Hproto Hvalue]] Hkept']; subst.
    cbn [fst snd] in Hne, Hchars, Hstyle, Hproto, Hvalue.
    inversion Hnodup as [|? ? Hhead Hnodup']; subst.
    cbn [fold_left extractStep].
    destruct (String.eqb_spec name "class") as [->|Hnc].
    + assert (Hcls : className = "").
      { destruct (string_dec className "") as [E|E]; [exact E|].
        exfalso. apply (Hclass E). now left. }
      subst className.
      destruct (IH value globalAttrs Hkept' Hnodup') as [IH1 IH2]; auto.
      { intros k Hk. apply Hfresh. now right. }
      split; [exact IH1|]. rewrite IH2. unfold Doc.attributes_of.
      destruct (String.eqb_spec value ""); [contradiction|].
      cbn [String.eqb app]. apply Permutation_middle.
    + destruct (String.eqb_spec name "style") as [->|_]; [contradiction Hstyle; reflexivity|].
      assert (Hnew : ~ In name (List.map fst globalAttrs)) by (apply Hfresh; now left).
      pose proof (set_new_perm name (JStr value) globalAttrs Hproto Hnew) as Hperm.
      destruct (IH className (Js.set name (JStr value) globalAttrs) Hkept' Hnodup')
        as [IH1 IH2].
      * intros Hc Hin. apply (Hclass Hc). now right.
      * intros k Hk Hin.
        apply (Permutation_in _ (Permutation_map fst Hperm)) in Hin.
        destruct Hin as [<- | Hin]; [contradiction|].
        apply (Hfresh k); [now right | exact Hin].
      * apply (Permutation_Forall (Permutation_sym Hperm)).
        constructor; [|exact Hok].
        repeat split; auto. exists value. auto.
      * split; [exact IH1|]. rewrite IH2. unfold Doc.attributes_of.
        rewrite (Permutation_map (fun e => (fst e, Js.ToString (snd e))) Hperm).
        cbn [List.map fst snd Js.ToString].
        rewrite <- !app_assoc. apply Permutation_app_head.
        cbn [app]. apply Permutation_middle.
Qed.

Lemma extractAttributes_fold (attrs : list (string * string)) :
  extractAttributes attrs = fold_left extractStep attrs ("", []).
Proof. reflexivity. Qed.

Lemma written_attributes_eq (attrs : list (string * string)) :
  Doc.written_attributes attrs =
  Doc.attributes_of (fst (extractAttributes attrs)) (snd (extractAttributes attrs)).
Proof. reflexivity. Qed.

Lemma extractAttributes_kept (attrs : list (string * string)) :
  Forall Doc.kept_attribute attrs ->
  NoDup (List.map fst attrs) ->
  Forall Doc.written_as_is (snd (extractAttributes attrs))
  /\ Permutation (Doc.written_attributes attrs) attrs.
Proof.
  intros Hkept Hnodup. rewrite written_attributes_eq, extractAttributes_fold.
  apply (extract_fold attrs "" [] Hkept Hnodup).
  - intro H; contradiction H; reflexivity.
  - intros k _ H. exact H.
  - constructor.
Qed.

(** ** From the DOM to the text *)

Lemma container_facts (t : string) :
  In t containerElements ->
  includes voidElements t = false
  /\ (t =? "svg") = false
  /\ includes containerElements t = true
  /\ ~ In t policyTags
  /\ t <> ""
  /\ all_chars is_name_char t = true
  /\ JsString.toLowerCase t = t.
Proof.
  intro H. cbn [containerElements In] in H.
  repeat (destruct H as [<- | H];
          [repeat split; try reflexivity; try discriminate;
           cbn [policyTags In]; intuition discriminate|]).
  contradiction.
Qed.

Lemma simple_no_text (P : string * string -> Prop) (tag : string)
    (attrs : list (string * string)) (cs : list node) :
  Forall (Doc.simple P) cs -> hasTextContent (Element tag attrs cs) = false.
Proof.
  intro H. unfold hasTextContent. cbn [Dom.childNodes].
  induction H as [|c cs Hc _ IH]; [reflexivity|].
  cbn [existsb]. rewrite IH, orb_false_r.
  destruct Hc as [d Hd|]; [|reflexivity].
  cbn [Dom.nodeType Dom.textContent Js.truthy]. rewrite Hd. reflexivity.
Qed.

Lemma simple_no_elements (P : string * string -> Prop) (tag : string)
    (attrs : list (string * string)) (cs : list node) :
  Forall (Doc.simple P) cs ->
  hasChildElements (Element tag attrs cs) = false ->
  List.flat_map Doc.written_structure cs = [].
Proof.
  intros H. unfold hasChildElements. cbn [Dom.childNodes].
  induction H as [|c cs Hc _ IH]; [reflexivity|].
  cbn [existsb List.flat_map]. intro E. apply orb_false_iff in E as [Ec E].
  rewrite (IH E). destruct Hc; [reflexivity | discriminate Ec].
Qed.

Lemma keep_all (p : ascii -> bool) (s : string) :
  all_chars p s = true -> JsString.keep p s = s.
Proof.
  induction s as [|c s IH]; [reflexivity|]. cbn [all_chars JsString.keep].
  intro H. apply andb_true_iff in H as [Hc H]. now rewrite Hc, (IH H).
Qed.

Lemma globalAttribute_written (entry : string * jsval) :
  Doc.written_as_is entry ->
  globalAttribute entry = Doc.write_attribute (fst entry, Js.ToString (snd entry)).
Proof.
  destruct entry as [k v]. intros (Hne & Hchars & value & Hv & Hvalue).
  cbn [fst snd] in *. subst v. rewrite globalAttribute_emitted.
  unfold Emission.emitted. cbn [fst snd].
  destruct (String.eqb_spec k ""); [contradiction|].
  destruct value; [contradiction Hvalue; reflexivity|].
  cbn [negb andb]. unfold Spec.written_attribute, Doc.write_attribute.
  cbn [fst snd Js.ToString]. now rewrite (keep_all _ _ Hchars).
Qed.

(** The attributes string of [blockToHTML] is the written form of the
    attributes, the class first. *)
Lemma attributesString_written (className : string) (globalAttrs : list (string * jsval)) :
  Forall Doc.written_as_is globalAttrs ->
  classAttribute (Js.default (JStr "")
                    (if className =? "" then JUndefined else JStr className))
  ++ String.concat "" (List.map globalAttribute globalAttrs)
  = String.concat "" (List.map Doc.write_attribute (Doc.attributes_of className globalAttrs)).
Proof.
  intro H. unfold Doc.attributes_of.
  assert (Hg : String.concat "" (List.map globalAttribute globalAttrs) =
               String.concat ""
                 (List.map Doc.write_attribute
                    (List.map (fun e => (fst e, Js.ToString (snd e))) globalAttrs))).
  { induction H as [|e g He _ IH]; [reflexivity|].
    cbn [List.map]. rewrite !concat_empty_cons, IH, (globalAttribute_written e He).
    reflexivity. }
  rewrite Hg. destruct (String.eqb_spec className "") as [->|Hne]; [reflexivity|].
  cbn [Js.default app List.map]. rewrite concat_empty_cons. f_equal.
  unfold classAttribute, Doc.write_attribute. cbn [fst snd Js.truthy].
  destruct (String.eqb_spec className ""); [contradiction|].
  cbn [negb]. now rewrite escapeAttribute_string.
Qed.

Lemma join_empty_cons (x : string) (l : list string) :
  JsString.join "" (x :: l) = x ++ JsString.join "" l.
Proof. destruct l; simpl; [now rewrite append_nil_r | reflexivity]. Qed.

Lemma write_forest_app (f1 f2 : list Doc.shape) :
  Doc.write_forest (f1 ++ f2)%list = Doc.write_forest f1 ++ Doc.write_forest f2.
Proof.
  unfold Doc.write_forest. induction f1 as [|s f1 IH]; [reflexivity|].
  cbn [app List.map]. now rewrite !concat_empty_cons, IH, append_assoc.
Qed.

Lemma get_of_object (v : jsval) (k : string) :
  (exists ps, v = JObj ps) -> Js.get v k = Ok (Js.get_opt v k).
Proof. intros [ps ->]. reflexivity. Qed.

Section RoundTrip.

Variable textGt0 : jsval -> bool.
Variable innerHTML : node -> string.
Variable random16 : nat -> nat.

(** The text of a container element without a policy, in compact mode. *)
Lemma elementToHTML_container (tagName : string) (isBlocks : bool)
    (globalAttrs : list (string * jsval)) (className : string)
    (inner : list jsval) (parseInner : nat -> result string) (indent : nat)
    (html : string) :
  In tagName containerElements ->
  Forall Doc.written_as_is globalAttrs ->
  (if isBlocks then inner <> [] /\ parseInner (indent + 1) = Ok html
   else html = "") ->
  elementToHTML textGt0 false
    (blockAttributes tagName (JStr (if isBlocks then "blocks" else "empty"))
       (JBool false) globalAttrs className "")
    (JArr inner) parseInner indent
  = Ok ("<" ++ tagName
        ++ String.concat ""
             (List.map Doc.write_attribute (Doc.attributes_of className globalAttrs))
        ++ ">" ++ html ++ "</" ++ tagName ++ ">").
Proof.
  intros Hc Hg Hinner.
  destruct (container_facts tagName Hc) as (Hvoid & _ & _ & Hpolicy & _ & _ & Hlower).
  unfold elementToHTML.
  rewrite (get_of_object _ _ (blockAttributes_is_object _ _ _ _ _ _)).
  rewrite blockAttributes_tagName, blockAttributes_contentType, blockAttributes_content,
    blockAttributes_selfClosing, blockAttributes_globalAttrs, blockAttributes_className.
  cbn [bind Js.default Js.entries Js.own_props].
  rewrite (attributesString_written className globalAttrs Hg).
  assert (Hsc : Js.get_opt (getTagConfig tagName) "selfClosing" = JUndefined).
  { apply getTagConfig_no_policy. now rewrite Hlower. }
  rewrite Hsc. cbn [Js.truthy].
  unfold isVoidElement. rewrite Hlower, Hvoid.
  destruct isBlocks.
  - destruct Hinner as [Hne Hparse].
    assert (Hhas : hasInnerBlocks textGt0 (JArr inner) = true).
    { destruct inner as [|b inner]; [contradiction Hne; reflexivity|]. reflexivity. }
    cbn [Js.is_str String.eqb Ascii.eqb Bool.eqb orb].
    rewrite Hhas, Hparse. reflexivity.
  - subst html. reflexivity.
Qed.

Lemma mapJoin_cons (f : jsval -> result string) (b : jsval) (l : list jsval) :
  mapJoin "" f (b :: l) =
  let* x := f b in
  let* rest := mapJoin "" f l in
  Ok (x ++ rest).
Proof.
  unfold mapJoin. cbn [mapM]. destruct (f b); [|reflexivity]. cbn [bind].
  destruct (mapM f l); [|reflexivity]. cbn [bind]. now rewrite join_empty_cons.
Qed.

Lemma mapJoin_as_list_app (f : jsval -> result string) (o : option jsval)
    (l : list jsval) (x y : string) :
  mapJoin "" f (Block.as_list o) = Ok x ->
  mapJoin "" f l = Ok y ->
  mapJoin "" f (match o with Some b => b :: l | None => l end) = Ok (x ++ y).
Proof.
  intros Hx Hy. destruct o as [b|].
  - cbn [Block.as_list] in Hx. rewrite mapJoin_cons in Hx |- *.
    destruct (f b) as [a|]; [|discriminate Hx]. cbn [bind] in Hx |- *.
    rewrite Hy. cbn in Hx |- *. injection Hx as <-. now rewrite append_nil_r.
  - cbn in Hx. injection Hx as <-. exact Hy.
Qed.

Lemma pushBlocks_written (f : node -> Rand (option jsval)) (cs : list node) :
  Forall (fun c => forall n indent,
            mapJoin "" (fun b => blockToHTML textGt0 false b indent) (Block.as_list (fst (f c n)))
            = Ok (Doc.write_forest (Doc.written_structure c))) cs ->
  forall n indent,
    mapJoin "" (fun b => blockToHTML textGt0 false b indent) (fst (pushBlocks f cs n))
    = Ok (Doc.write_forest (List.flat_map Doc.written_structure cs)).
Proof.
  induction 1 as [|c cs Hc _ IH]; intros n indent; [reflexivity|].
  cbn [pushBlocks List.flat_map]. specialize (Hc n indent).
  destruct (f c n) as [o n1]. specialize (IH n1 indent).
  destruct (pushBlocks f cs n1) as [bs n2]. cbn [fst] in *.
  rewrite write_forest_app. now apply mapJoin_as_list_app.
Qed.

Lemma pushBlocks_nonempty (cs : list node) (tag : string)
    (attrs : list (string * string)) (n : nat) :
  hasChildElements (Element tag attrs cs) = true ->
  fst (pushBlocks (nodeToBlock innerHTML random16) cs n) <> [].
Proof.
  unfold hasChildElements. cbn [Dom.childNodes]. revert n.
  induction cs as [|c cs IH]; intros n H; [discriminate H|].
  cbn [existsb] in H. cbn [pushBlocks].
  destruct c as [d | d | t a k].
  - cbn [Dom.nodeType Nat.eqb orb] in H.
    destruct (nodeToBlock innerHTML random16 (Text d) n) as [o n1].
    specialize (IH n1 H).
    destruct (pushBlocks _ cs n1) as [bs n2]. cbn [fst] in *.
    destruct o; [discriminate | exact IH].
  - cbn [nodeToBlock]. cbn [Dom.nodeType Nat.eqb orb] in H. specialize (IH n H).
    destruct (pushBlocks _ cs n) as [bs n2]. exact IH.
  - rewrite nodeToBlock_element.
    destruct (pushBlocks _ cs _) as [bs n2]. discriminate.
Qed.

(** The reverse transcoder writes the structure of a simple document. *)
Lemma nodeToBlock_written (nd : node) :
  Doc.simple Doc.kept_attribute nd ->
  forall n indent,
    mapJoin "" (fun b => blockToHTML textGt0 false b indent)
      (Block.as_list (fst (nodeToBlock innerHTML random16 nd n)))
    = Ok (Doc.write_forest (Doc.written_structure nd)).
Proof.
  induction nd as [d | d | tag attrs cs IH] using node_induction;
    intros Hsimple n indent; inversion Hsimple as [d' Hd | t a k Hc Hattrs Hnodup Hcs]; subst.
  - rewrite nodeToBlock_text, Hd. reflexivity.
  - assert (Hchildren : forall m i,
               mapJoin "" (fun b => blockToHTML textGt0 false b i)
                 (fst (pushBlocks (nodeToBlock innerHTML random16) cs m))
               = Ok (Doc.write_forest (List.flat_map Doc.written_structure cs))).
    { apply pushBlocks_written. rewrite Forall_forall in IH, Hcs |- *.
      intros c Hin. apply IH; auto. }
    destruct (container_facts _ Hc) as (Hvoid & Hsvg & Hcont & Hpolicy & _ & _ & Hlower).
    destruct (extractAttributes_kept attrs Hattrs Hnodup) as [Hg _].
    rewrite nodeToBlock_element. cbn [fst Block.as_list].
    rewrite detectContent_structural
      by (rewrite getTagConfig_lower, (getTagConfig_no_policy tag Hpolicy); discriminate).
    rewrite Hvoid, Hsvg, Hcont, andb_true_r.
    rewrite (simple_no_text _ tag attrs cs Hcs).
    rewrite mapJoin_cons. cbn [mapJoin mapM bind JsString.join].
    unfold blockObject. rewrite blockToHTML_JObj.
    cbn [Js.lookup String.eqb Ascii.eqb Bool.eqb Js.is_str].
    unfold finalSelfClosing.
    rewrite getTagConfig_lower, (getTagConfig_no_policy tag Hpolicy).
    rewrite ?Hvoid.
    destruct (hasChildElements (Element tag attrs cs)) eqn:Hel; cbn [fst snd].
    + rewrite (elementToHTML_container _ true _ _ _ _ _
                 (Doc.write_forest (List.flat_map Doc.written_structure cs)) Hc Hg).
      * cbn [bind Doc.written_structure List.map Doc.write_forest].
        rewrite append_nil_r. unfold Doc.write_forest.
        cbn [List.map Doc.write String.concat]. reflexivity.
      * split; [now apply (pushBlocks_nonempty cs tag attrs)|].
        apply Hchildren.
    + rewrite (elementToHTML_container _ false _ _ _ _ _ "" Hc Hg eq_refl).
      cbn [bind Doc.written_structure]. rewrite append_nil_r.
      rewrite (simple_no_elements _ tag attrs cs Hcs Hel).
      unfold Doc.write_forest. cbn [List.map Doc.write String.concat]. reflexivity.
Qed.

End RoundTrip.

(** ** The structure that is written is the structure of the document *)

Lemma readable_forest_app (f1 f2 : list Doc.shape) :
  Doc.readable_forest f1 -> Doc.readable_forest f2 -> Doc.readable_forest (f1 ++ f2)%list.
Proof. induction 1; intro H2; cbn [app]; [exact H2 | constructor; auto]. Qed.

Lemma kept_readable (attrs attrs' : list (string * string)) :
  Forall Doc.kept_attribute attrs ->
  Permutation attrs' attrs ->
  Forall (fun a => fst a <> "" /\ all_chars is_name_char (fst a) = true) attrs'.
Proof.
  intros H Hperm. apply (Permutation_Forall (Permutation_sym Hperm)).
  apply (Forall_impl _ (P := Doc.kept_attribute)); [|exact H].
  intros a [[Hne [Hchars _]] _]. auto.
Qed.

Lemma written_structure_spec (nd : node) :
  Doc.simple Doc.kept_attribute nd ->
  Doc.readable_forest (Doc.written_structure nd)
  /\ Forall2 Doc.same_structure (Doc.structure nd) (Doc.written_structure nd).
Proof.
  induction nd as [d | d | tag attrs cs IH] using node_induction;
    intro Hsimple; inversion Hsimple as [d' Hd | t a k Hc Hattrs Hnodup Hcs]; subst.
  - split; constructor.
  - destruct (container_facts _ Hc) as (_ & _ & _ & _ & Hne & Hchars & _).
    destruct (extractAttributes_kept attrs Hattrs Hnodup) as [_ Hperm].
    assert (Hchildren :
              Doc.readable_forest (List.flat_map Doc.written_structure cs)
              /\ Forall2 Doc.same_structure (List.flat_map Doc.structure cs)
                   (List.flat_map Doc.written_structure cs)).
    { clear Hsimple. induction Hcs as [|c cs Hsc Hcs IHcs]; [split; constructor|].
      inversion IH as [|? ? IHc IHrest]; subst.
      destruct (IHc Hsc) as [Hr Hs]. destruct (IHcs IHrest) as [Hrs Hss].
      cbn [List.flat_map]. split.
      - now apply readable_forest_app.
      - now apply Forall2_app. }
    destruct Hchildren as [Hr Hs]. cbn [Doc.structure Doc.written_structure]. split.
    + repeat constructor; auto. now apply (kept_readable attrs).
    + repeat constructor; auto. now symmetry.
Qed.

Lemma written_structures_spec (nodes : list node) :
  Forall (Doc.simple Doc.kept_attribute) nodes ->
  Doc.readable_forest (List.flat_map Doc.written_structure nodes)
  /\ Forall2 Doc.same_structure (Doc.structures nodes)
       (List.flat_map Doc.written_structure nodes).
Proof.
  unfold Doc.structures.
  induction 1 as [|c cs Hc _ [IH1 IH2]]; [split; constructor|].
  destruct (written_structure_spec c Hc) as [H1 H2]. cbn [List.flat_map]. split.
  - now apply readable_forest_app.
  - now apply Forall2_app.
Qed.

(** C1 as stated fails on an attribute with the empty value: the document
    [<button disabled></button>] is an element-only document of a container
    tag with an attribute of a plain name, and the text that comes back,
    [<button></button>], denotes a button without attributes. *)
Lemma C1_counterexample :
  Forall (Doc.simple (fun a => Doc.plain_name (fst a))) [Doc.disabled_button]
  /\ parseBlocksToHTML (fun _ => false) false
       (JArr (fst (parseHTMLToBlocks (fun _ => "") (fun _ => 0) Doc.disabled_button_parser
                     (JStr "<button disabled></button>") 0))) 0
     = Ok "<button></button>"
  /\ Doc.readHTML "<button></button>" = Some [Doc.Shape "button" [] []]
  /\ ~ Forall2 Doc.same_structure (Doc.structures [Doc.disabled_button])
         [Doc.Shape "button" [] []].
Proof.
  split.
  { constructor; [|constructor]. constructor.
    - vm_compute. do 15 right. left. reflexivity.
    - constructor; [|constructor]. repeat split; try reflexivity; discriminate.
    - constructor; [intros []|constructor].
    - constructor. }
  split; [reflexivity|]. split; [reflexivity|].
  intro H. inversion H as [|? ? ? ? Hs _]; subst.
  inversion Hs as [? ? ? ? ? Hperm _]; subst.
  apply Permutation_sym, Permutation_nil in Hperm. discriminate Hperm.
Qed.

(** C1, as the code has it.  Let a document be built from container
    elements, with white space between them at most, whose attributes have
    distinct names of the character class [[A-Za-z0-9_-]] other than [style]
    and [__proto__], and values that are not empty.  Then the compact text
    that [parseBlocksToHTML] returns for the blocks of [parseHTMLToBlocks]
    denotes a document with the same tag names, the same attribute sets and
    the same nesting. *)
Theorem C1_round_trip
    (textGt0 : jsval -> bool) (innerHTML : node -> string) (random16 : nat -> nat)
    (bodyFirstChild : string -> option node) (text : string) (n : nat)
    (container : node) :
  text <> "" ->
  bodyFirstChild ("<div>" ++ replaceSelfClosing 0 text ++ "</div>") = Some container ->
  Forall (Doc.simple Doc.kept_attribute) (Dom.childNodes container) ->
  exists out document,
    parseBlocksToHTML textGt0 false
      (JArr (fst (parseHTMLToBlocks innerHTML random16 bodyFirstChild (JStr text) n))) 0
    = Ok out
    /\ Doc.readHTML out = Some document
    /\ Forall2 Doc.same_structure (Doc.structures (Dom.childNodes container)) document.
Proof.
  intros Htext Hparse Hsimple.
  destruct (written_structures_spec _ Hsimple) as [Hreadable Hsame].
  exists (Doc.write_forest (List.flat_map Doc.written_structure (Dom.childNodes container))),
         (List.flat_map Doc.written_structure (Dom.childNodes container)).
  split; [|split; [now apply readHTML_written | exact Hsame]].
  unfold parseHTMLToBlocks. cbn [Js.truthy].
  destruct (String.eqb_spec text ""); [contradiction|]. cbn [negb].
  rewrite Hparse. unfold parseBlocksToHTML. cbn [separator].
  apply pushBlocks_written. apply Forall_forall. intros c Hin.
  apply nodeToBlock_written. rewrite Forall_forall in Hsimple. now apply Hsimple.
Qed.

Lemma nested_lists_simple : Doc.simple Doc.kept_attribute Doc.nested_lists.
Proof.
  assert (Hli : Doc.simple Doc.kept_attribute (Element "LI" [] [])).
  { constructor; [vm_compute; do 10 right; left; reflexivity | | |]; constructor. }
  constructor.
  - vm_compute. right. left. reflexivity.
  - repeat constructor; cbn [fst snd]; try reflexivity; discriminate.
  - repeat constructor; cbn [In]; intuition discriminate.
  - constructor; [constructor; reflexivity|].
    constructor; [|constructor; [|constructor]].
    + constructor.
      * vm_compute. do 8 right. left. reflexivity.
      * repeat constructor; cbn [fst snd]; try reflexivity; discriminate.
      * repeat constructor; cbn [In]; intuition discriminate.
      * repeat constructor; exact Hli.
    + constructor; [vm_compute; do 8 right; left; reflexivity | | |]; constructor.
Qed.

Lemma C1_witness :
  exists out document,
    parseBlocksToHTML (fun _ => false) false
      (JArr (fst (parseHTMLToBlocks (fun _ => "") (fun n => n) Doc.nested_lists_parser
                    (JStr Doc.nested_lists_text) 0))) 0
    = Ok out
    /\ Doc.readHTML out = Some document
    /\ Forall2 Doc.same_structure (Doc.structures [Doc.nested_lists]) document.
Proof.
  apply (C1_round_trip (fun _ => false) (fun _ => "") (fun n => n)
           Doc.nested_lists_parser Doc.nested_lists_text 0
           (Element "DIV" [] [Doc.nested_lists])).
  - discriminate.
  - reflexivity.
  - constructor; [exact nested_lists_simple | constructor].
Defined.

(* ===================================================================== *)
(** * Further properties of the transcoders *)
(* ===================================================================== *)

(** ** Assignment and lookup of properties *)

Lemma lookup_replace_prop_same (k : string) (v : jsval) (ps : list (string * jsval)) :
  Js.has_key k ps = true -> Js.lookup k (Js.replace_prop k v ps) = v.
Proof.
  induction ps as [|[k' v'] ps IH]; cbn [Js.has_key Js.replace_prop]; [discriminate|].
  destruct (k =? k') eqn:E; cbn [orb Js.lookup]; rewrite E; auto.
Qed.

Lemma lookup_replace_prop_other (k k' : string) (v : jsval) (ps : list (string * jsval)) :
  k' <> k -> Js.lookup k' (Js.replace_prop k v ps) = Js.lookup k' ps.
Proof.
  intro H. induction ps as [|[k0 v0] ps IH]; [reflexivity|].
  cbn [Js.replace_prop]. destruct (String.eqb_spec k k0) as [<-|Hk]; cbn [Js.lookup].
  - apply String.eqb_neq in H. now rewrite H.
  - now rewrite IH.
Qed.

Lemma lookup_insert_index_other (n : N) (k k' : string) (v : jsval)
    (ps : list (string * jsval)) :
  k' <> k -> Js.lookup k' (Js.insert_index n k v ps) = Js.lookup k' ps.
Proof.
  intro H. apply String.eqb_neq in H.
  induction ps as [|[k0 v0] ps IH]; cbn [Js.insert_index Js.lookup]; [now rewrite H|].
  destruct (Js.array_index k0) as [n0|]; [destruct (n0 <? n)%N|];
    cbn [Js.lookup]; rewrite ?H, ?IH; reflexivity.
Qed.

Lemma lookup_insert_index_same (n : N) (k : string) (v : jsval)
    (ps : list (string * jsval)) :
  Js.has_key k ps = false -> Js.lookup k (Js.insert_index n k v ps) = v.
Proof.
  induction ps as [|[k0 v0] ps IH]; cbn [Js.insert_index Js.lookup Js.has_key].
  - now rewrite String.eqb_refl.
  - intro H. apply orb_false_iff in H as [Hk H].
    destruct (Js.array_index k0) as [n0|]; [destruct (n0 <? n)%N|];
      cbn [Js.lookup]; rewrite ?String.eqb_refl, ?Hk; auto.
Qed.

Lemma lookup_app_last (k k' : string) (v : jsval) (ps : list (string * jsval)) :
  Js.lookup k' (ps ++ [(k, v)])%list =
  if Js.has_key k' ps then Js.lookup k' ps else if k' =? k then v else JUndefined.
Proof.
  induction ps as [|[k0 v0] ps IH]; cbn [app Js.lookup Js.has_key]; [reflexivity|].
  destruct (k' =? k0); [reflexivity | exact IH].
Qed.

Lemma lookup_missing (k : string) (ps : list (string * jsval)) :
  Js.has_key k ps = false -> Js.lookup k ps = JUndefined.
Proof.
  induction ps as [|[k0 v0] ps IH]; cbn [Js.lookup Js.has_key]; [reflexivity|].
  intro H. apply orb_false_iff in H as [Hk H]. rewrite Hk. auto.
Qed.

(** What was assigned is what is read. *)
Lemma lookup_set_same (k : string) (v : jsval) (ps : list (string * jsval)) :
  k <> "__proto__" -> Js.lookup k (Js.set k v ps) = v.
Proof.
  intro H. unfold Js.set. destruct (String.eqb_spec k "__proto__"); [contradiction|].
  destruct (Js.has_key k ps) eqn:E.
  - now apply lookup_replace_prop_same.
  - destruct (Js.array_index k).
    + now apply lookup_insert_index_same.
    + now rewrite lookup_app_last, E, String.eqb_refl.
Qed.

(** An assignment leaves the other properties as they are. *)
Lemma lookup_set_other (k k' : string) (v : jsval) (ps : list (string * jsval)) :
  k' <> k -> Js.lookup k' (Js.set k v ps) = Js.lookup k' ps.
Proof.
  intro H. unfold Js.set. destruct (k =? "__proto__"); [reflexivity|].
  destruct (Js.has_key k ps) eqn:E.
  - now apply lookup_replace_prop_other.
  - destruct (Js.array_index k).
    + now apply lookup_insert_index_other.
    + rewrite lookup_app_last. apply String.eqb_neq in H. rewrite H.
      destruct (Js.has_key k' ps) eqn:E'; [reflexivity|].
      symmetry. now apply lookup_missing.
Qed.

Lemma has_key_replace_prop (k k' : string) (v : jsval) (ps : list (string * jsval)) :
  Js.has_key k' (Js.replace_prop k v ps) = Js.has_key k' ps.
Proof.
  induction ps as [|[k0 v0] ps IH]; [reflexivity|].
  cbn [Js.replace_prop]. destruct (k =? k0); cbn [Js.has_key]; [reflexivity|].
  now rewrite IH.
Qed.

Lemma has_key_insert_index (n : N) (k k' : string) (v : jsval)
    (ps : list (string * jsval)) :
  Js.has_key k' (Js.insert_index n k v ps) = (k' =? k) || Js.has_key k' ps.
Proof.
  induction ps as [|[k0 v0] ps IH]; cbn [Js.insert_index Js.has_key]; [reflexivity|].
  destruct (Js.array_index k0) as [n0|]; [destruct (n0 <? n)%N|];
    cbn [Js.has_key]; rewrite ?IH; try reflexivity.
  destruct (k' =? k0), (k' =? k); reflexivity.
Qed.

Lemma has_key_app_last (k k' : string) (v : jsval) (ps : list (string * jsval)) :
  Js.has_key k' (ps ++ [(k, v)])%list = (k' =? k) || Js.has_key k' ps.
Proof.
  induction ps as [|[k0 v0] ps IH]; cbn [app Js.has_key].
  - now rewrite orb_false_r.
  - rewrite IH. destruct (k' =? k0), (k' =? k); reflexivity.
Qed.

(** The properties after an assignment: the old ones, and the assigned
    one unless it is [__proto__]. *)
Lemma has_key_set (k k' : string) (v : jsval) (ps : list (string * jsval)) :
  Js.has_key k' (Js.set k v ps) =
  Js.has_key k' ps || ((k' =? k) && negb (k =? "__proto__")).
Proof.
  unfold Js.set. destruct (k =? "__proto__") eqn:Ep.
  - now rewrite andb_false_r, orb_false_r.
  - rewrite andb_true_r. destruct (Js.has_key k ps) eqn:E.
    + rewrite has_key_replace_prop.
      destruct (String.eqb_spec k' k) as [->|]; [now rewrite E | now rewrite orb_false_r].
    + destruct (Js.array_index k).
      * rewrite has_key_insert_index. apply orb_comm.
      * rewrite has_key_app_last. apply orb_comm.
Qed.

(** ** The attributes of an element in its block *)

Lemma extractStep_snd_lookup (acc : string * list (string * jsval))
    (attr : string * string) (name : string) :
  fst attr <> name ->
  (name = "data-style" -> fst attr <> "style") ->
  Js.lookup name (snd (extractStep acc attr)) = Js.lookup name (snd acc).
Proof.
  destruct acc as [cls g], attr as [k v]. cbn [fst snd extractStep]. intros Hk Hs.
  destruct (k =? "class"); [reflexivity|].
  destruct (String.eqb_spec k "style") as [->|_]; cbn [snd].
  - apply lookup_set_other. intro E. now apply Hs.
  - apply lookup_set_other. congruence.
Qed.

Lemma extract_lookup_untouched (attrs : list (string * string)) (name : string) :
  forall acc,
    (forall a, In a attrs -> fst a <> name /\ (name = "data-style" -> fst a <> "style")) ->
    Js.lookup name (snd (fold_left extractStep attrs acc)) = Js.lookup name (snd acc).
Proof.
  induction attrs as [|a attrs IH]; intros acc H; [reflexivity|].
  cbn [fold_left]. rewrite IH by (intros b Hb; apply H; now right).
  destruct (H a (or_introl eq_refl)) as [H1 H2].
  now apply extractStep_snd_lookup.
Qed.

Lemma extract_lookup_passed (attrs : list (string * string)) (name value : string) :
  forall acc,
    NoDup (List.map fst attrs) ->
    In (name, value) attrs ->
    ~ In name ["class"; "style"; "data-style"; "__proto__"] ->
    Js.lookup name (snd (fold_left extractStep attrs acc)) = JStr value.
Proof.
  induction attrs as [|[k v] attrs IH]; intros acc Hnodup Hin Hname; [contradiction|].
  inversion Hnodup as [|? ? Hhead Hnodup']; subst. cbn [fold_left].
  destruct Hin as [E | Hin].
  - injection E as -> ->.
    rewrite extract_lookup_untouched.
    + destruct acc as [cls g]. cbn [extractStep].
      destruct (String.eqb_spec name "class") as [->|_];
        [exfalso; apply Hname; cbn; auto|].
      destruct (String.eqb_spec name "style") as [->|_];
        [exfalso; apply Hname; cbn; auto|].
      cbn [snd]. apply lookup_set_same. intros ->. apply Hname. cbn. auto.
    + intros a Ha. split.
      * intros E. apply Hhead. rewrite <- E. now apply in_map.
      * intros ->. exfalso. apply Hname. cbn. auto.
  - now apply IH.
Qed.

Lemma extract_style_remapped (attrs : list (string * string)) (value : string) :
  forall acc,
    NoDup (List.map fst attrs) ->
    In ("style", value) attrs ->
    ~ In "data-style" (List.map fst attrs) ->
    Js.lookup "data-style" (snd (fold_left extractStep attrs acc)) = JStr value.
Proof.
  induction attrs as [|[k v] attrs IH]; intros acc Hnodup Hin Hds; [contradiction|].
  inversion Hnodup as [|? ? Hhead Hnodup']; subst. cbn [fold_left].
  cbn [List.map fst In] in Hds.
  destruct Hin as [E | Hin].
  - injection E as -> ->.
    rewrite extract_lookup_untouched.
    + destruct acc as [cls g]. cbn [extractStep String.eqb Ascii.eqb Bool.eqb snd].
      now apply lookup_set_same.
    + intros a Ha. split.
      * intros E. apply Hds. right. rewrite <- E. now apply in_map.
      * intros _ E. apply Hhead. rewrite <- E. now apply in_map.
  - apply IH; auto.
Qed.

Lemma extract_keys (attrs : list (string * string)) (k : string) :
  forall acc,
    Js.has_key k (snd (fold_left extractStep attrs acc)) = true ->
    Js.has_key k (snd acc) = true
    \/ (k = "data-style" /\ In "style" (List.map fst attrs))
    \/ (In k (List.map fst attrs) /\ ~ In k ["class"; "style"; "__proto__"]).
Proof.
  induction attrs as [|[name v] attrs IH]; intros acc H; [now left|].
  cbn [fold_left] in H. apply IH in H. cbn [List.map fst In].
  destruct H as [H | [[-> H] | [H1 H2]]]; [|right; left; auto | right; right; auto].
  destruct acc as [cls g]. cbn [extractStep snd] in H |- *.
  destruct (String.eqb_spec name "class") as [->|Hc]; [now left|].
  destruct (String.eqb_spec name "style") as [->|Hs]; cbn [snd] in H;
    rewrite has_key_set in H; apply orb_true_iff in H as [H | H]; auto;
    apply andb_true_iff in H as [Hk Hp]; apply String.eqb_eq in Hk; subst k.
  - right. left. auto.
  - right. right. split; [now left|].
    apply negb_true_iff, String.eqb_neq in Hp.
    cbn [In]. intuition congruence.
Qed.

Lemma extract_className (attrs : list (string * string)) (value : string) :
  forall acc,
    NoDup (List.map fst attrs) ->
    In ("class", value) attrs ->
    fst (fold_left extractStep attrs acc) = value.
Proof.
  assert (Hkeep : forall l acc, ~ In "class" (List.map fst l) ->
                    fst (fold_left extractStep l acc) = fst acc).
  { induction l as [|[k v] l IH]; intros acc H; [reflexivity|].
    cbn [fold_left]. cbn [List.map fst In] in H.
    rewrite IH by tauto. destruct acc as [cls g]. cbn [extractStep].
    destruct (String.eqb_spec k "class") as [->|_]; [tauto|].
    destruct (k =? "style"); reflexivity. }
  induction attrs as [|[k v] attrs IH]; intros acc Hnodup Hin; [contradiction|].
  inversion Hnodup as [|? ? Hhead Hnodup']; subst. cbn [fold_left].
  destruct Hin as [E | Hin]; [|now apply IH].
  injection E as -> ->. rewrite Hkeep by exact Hhead.
  destruct acc. reflexivity.
Qed.

Section ElementFields.

Variable innerHTML : node -> string.
Variable random16 : nat -> nat.

(** The block of an element and its attribute fields. *)
Lemma element_block_fields (tag : string) (attrs : list (string * string))
    (cs : list node) (n : nat) :
  exists block n',
    nodeToBlock innerHTML random16 (Element tag attrs cs) n = (Some block, n')
    /\ Block.tagName block = JStr (JsString.toLowerCase tag)
    /\ Block.globalAttrs block = JObj (snd (extractAttributes attrs))
    /\ Block.className block =
       (if fst (extractAttributes attrs) =? "" then JUndefined
        else JStr (fst (extractAttributes attrs)))
    /\ Block.selfClosing block =
       finalSelfClosing (getTagConfig (JsString.toLowerCase tag))
         (includes voidElements (JsString.toLowerCase tag)).
Proof.
  eexists. eexists. split; [apply nodeToBlock_element|].
  unfold Block.tagName, Block.globalAttrs, Block.className, Block.selfClosing.
  rewrite !Block_attributes_blockObject.
  rewrite blockAttributes_tagName, blockAttributes_globalAttrs,
    blockAttributes_className, blockAttributes_selfClosing.
  repeat split; reflexivity.
Qed.

End ElementFields.

(** X1. An attribute of an element other than [class], [style], [data-style]
    and [__proto__] passes into [globalAttrs] of the block under its name,
    with its value as it is. *)
Theorem forward_attribute_passes_through
    (innerHTML : node -> string) (random16 : nat -> nat)
    (tag : string) (attrs : list (string * string)) (cs : list node) (n : nat)
    (name value : string) :
  NoDup (List.map fst attrs) ->
  In (name, value) attrs ->
  ~ In name ["class"; "style"; "data-style"; "__proto__"] ->
  exists block n' globalAttrs,
    nodeToBlock innerHTML random16 (Element tag attrs cs) n = (Some block, n')
    /\ Block.globalAttrs block = JObj globalAttrs
    /\ Js.lookup name globalAttrs = JStr value.
Proof.
  intros Hnodup Hin Hname.
  destruct (element_block_fields innerHTML random16 tag attrs cs n)
    as (block & n' & Hrun & _ & Hg & _).
  exists block, n', (snd (extractAttributes attrs)).
  split; [exact Hrun|]. split; [exact Hg|].
  now apply extract_lookup_passed.
Qed.

Lemma forward_attribute_passes_through_witness :
  exists block n' globalAttrs,
    nodeToBlock (fun _ => "") (fun _ => 0)
      (Element "A" [("class", "btn"); ("href", "/x?a=1&b=2"); ("7", "seven")] []) 0
    = (Some block, n')
    /\ Block.globalAttrs block = JObj globalAttrs
    /\ Js.lookup "href" globalAttrs = JStr "/x?a=1&b=2".
Proof.
  apply forward_attribute_passes_through.
  - repeat constructor; cbn [In]; intuition discriminate.
  - right. left. reflexivity.
  - cbn [In]. intuition discriminate.
Defined.

Lemma extract_never_keys (attrs : list (string * string)) (k : string) :
  In k ["class"; "style"; "__proto__"] ->
  Js.has_key k (snd (extractAttributes attrs)) = false.
Proof.
  intro Hk. destruct (Js.has_key k (snd (extractAttributes attrs))) eqn:E;
    [|reflexivity].
  apply extract_keys in E. destruct E as [E | [[-> _] | [_ E]]].
  - discriminate E.
  - cbn [In] in Hk. intuition discriminate.
  - contradiction.
Qed.

(** X2. [globalAttrs] of the block of an element never has a [style], a
    [class] or a [__proto__] property: each of its properties is
    [data-style], for an element with a [style] attribute, or is named after
    another attribute of the element. *)
Theorem forward_globalAttrs_keys
    (innerHTML : node -> string) (random16 : nat -> nat)
    (tag : string) (attrs : list (string * string)) (cs : list node) (n : nat) :
  exists block n' globalAttrs,
    nodeToBlock innerHTML random16 (Element tag attrs cs) n = (Some block, n')
    /\ Block.globalAttrs block = JObj globalAttrs
    /\ Js.has_key "style" globalAttrs = false
    /\ Js.has_key "class" globalAttrs = false
    /\ Js.has_key "__proto__" globalAttrs = false
    /\ forall k, Js.has_key k globalAttrs = true ->
                 (k = "data-style" /\ In "style" (List.map fst attrs))
                 \/ In k (List.map fst attrs).
Proof.
  destruct (element_block_fields innerHTML random16 tag attrs cs n)
    as (block & n' & Hrun & _ & Hg & _).
  exists block, n', (snd (extractAttributes attrs)).
  split; [exact Hrun|]. split; [exact Hg|].
  split; [apply extract_never_keys; cbn; auto|].
  split; [apply extract_never_keys; cbn; auto|].
  split; [apply extract_never_keys; cbn; auto|].
  intros k Hk. apply extract_keys in Hk.
  destruct Hk as [Hk | [Hk | [Hk _]]]; [discriminate Hk | now left | now right].
Qed.

(** X3. The [style] attribute of an element is stored in [globalAttrs] under
    the name [data-style], with its value as it is. *)
Theorem forward_style_becomes_data_style
    (innerHTML : node -> string) (random16 : nat -> nat)
    (tag : string) (attrs : list (string * string)) (cs : list node) (n : nat)
    (value : string) :
  NoDup (List.map fst attrs) ->
  In ("style", value) attrs ->
  ~ In "data-style" (List.map fst attrs) ->
  exists block n' globalAttrs,
    nodeToBlock innerHTML random16 (Element tag attrs cs) n = (Some block, n')
    /\ Block.globalAttrs block = JObj globalAttrs
    /\ Js.lookup "data-style" globalAttrs = JStr value
    /\ Js.lookup "style" globalAttrs = JUndefined.
Proof.
  intros Hnodup Hin Hds.
  destruct (element_block_fields innerHTML random16 tag attrs cs n)
    as (block & n' & Hrun & _ & Hg & _).
  exists block, n', (snd (extractAttributes attrs)).
  split; [exact Hrun|]. split; [exact Hg|].
  split; [now apply extract_style_remapped|].
  apply lookup_missing. apply extract_never_keys. cbn. auto.
Qed.

Lemma forward_style_becomes_data_style_witness :
  exists block n' globalAttrs,
    nodeToBlock (fun _ => "") (fun _ => 0)
      (Element "DIV" [("id", "x"); ("style", "color: red")] []) 0 = (Some block, n')
    /\ Block.globalAttrs block = JObj globalAttrs
    /\ Js.lookup "data-style" globalAttrs = JStr "color: red"
    /\ Js.lookup "style" globalAttrs = JUndefined.
Proof.
  apply forward_style_becomes_data_style.
  - repeat constructor; cbn [In]; intuition discriminate.
  - right. left. reflexivity.
  - cbn [List.map fst In]. intuition discriminate.
Defined.

(** X4. The [class] attribute of an element becomes the [className] of the
    block, as it is; a block has no [className] when the class is empty. *)
Theorem forward_class_becomes_className
    (innerHTML : node -> string) (random16 : nat -> nat)
    (tag : string) (attrs : list (string * string)) (cs : list node) (n : nat)
    (value : string) :
  NoDup (List.map fst attrs) ->
  In ("class", value) attrs ->
  exists block n',
    nodeToBlock innerHTML random16 (Element tag attrs cs) n = (Some block, n')
    /\ Block.className block = (if value =? "" then JUndefined else JStr value).
Proof.
  intros Hnodup Hin.
  destruct (element_block_fields innerHTML random16 tag attrs cs n)
    as (block & n' & Hrun & _ & _ & Hc & _).
  exists block, n'. split; [exact Hrun|].
  rewrite Hc. unfold extractAttributes.
  now rewrite (extract_className attrs value ("", []) Hnodup Hin).
Qed.

Lemma forward_class_becomes_className_witness :
  exists block n',
    nodeToBlock (fun _ => "") (fun _ => 0)
      (Element "SECTION" [("id", "top"); ("class", "hero  wide")] []) 0 = (Some block, n')
    /\ Block.className block = JStr "hero  wide".
Proof.
  apply (forward_class_becomes_className (fun _ => "") (fun _ => 0) "SECTION"
           [("id", "top"); ("class", "hero  wide")] [] 0 "hero  wide").
  - repeat constructor; cbn [In]; intuition discriminate.
  - right. left. reflexivity.
Defined.

(** ** The client identifiers *)

Lemma hexDigit_hex (v : nat) :
  v < 16 -> exists c, hexDigit v = String c "" /\ Uuid.is_hex c = true.
Proof.
  intro H.
  do 16 (destruct v as [|v]; [eexists; split; reflexivity|]). lia.
Qed.

Lemma hexDigit_variant (r : nat) :
  r < 16 ->
  exists c, hexDigit (Nat.lor (Nat.land r 3) 8) = String c "" /\ Uuid.is_variant c = true.
Proof.
  intro H.
  do 16 (destruct r as [|r]; [eexists; split; reflexivity|]). lia.
Qed.

Lemma replaceXY_fits (random16 : nat -> nat) (template : string) :
  forall n,
    Uuid.fits template (fst (replaceXY random16 template n)) = true
    /\ snd (replaceXY random16 template n) = n + Uuid.draws template.
Proof.
  induction template as [|t template IH]; intro n; [split; [reflexivity | cbn; lia]|].
  cbn [replaceXY Uuid.draws].
  assert (Hr : random16 n mod 16 < 16) by (apply Nat.mod_upper_bound; discriminate).
  destruct (Ascii.eqb t "x") eqn:Ex.
  - cbn [orb]. destruct (IH (S n)) as [IH1 IH2].
    destruct (replaceXY random16 template (S n)) as [out n'].
    destruct (hexDigit_hex _ Hr) as (c & -> & Hc).
    cbn [fst snd append Uuid.fits] in *. rewrite Ex, Hc, IH1. split; [reflexivity | lia].
  - destruct (Ascii.eqb t "y") eqn:Ey; cbn [orb].
    + destruct (IH (S n)) as [IH1 IH2].
      destruct (replaceXY random16 template (S n)) as [out n'].
      destruct (hexDigit_variant _ Hr) as (c & -> & Hc).
      cbn [fst snd append Uuid.fits] in *. rewrite Ex, Ey, Hc, IH1.
      split; [reflexivity | lia].
    + destruct (IH n) as [IH1 IH2].
      destruct (replaceXY random16 template n) as [out n'].
      cbn [fst snd Uuid.fits] in *. rewrite Ex, Ey, Ascii.eqb_refl, IH1.
      split; [reflexivity | lia].
Qed.

Lemma fits_length (template out : string) :
  Uuid.fits template out = true -> String.length out = String.length template.
Proof.
  revert out. induction template as [|t template IH]; intros [|o out] H;
    try discriminate H; [reflexivity|].
  cbn [Uuid.fits] in H. apply andb_true_iff in H as [_ H].
  cbn [String.length]. now rewrite (IH out H).
Qed.

(** X5. Whatever [Math.random] returns, a client identifier has the form of
    a version 4 UUID: 36 characters, hyphens after the 8th, 13th, 18th and
    23rd, the digit 4 at the head of the third group, one of 8, 9, a, b at
    the head of the fourth, and lower-case hexadecimal digits elsewhere.
    Generating it takes 31 draws. *)
Theorem generateClientId_is_uuid_v4 (random16 : nat -> nat) (n : nat) :
  Uuid.fits "xxxxxxxx-xxxx-4xxx-yxxx-xxxxxxxxxxxx" (fst (generateClientId random16 n)) = true
  /\ String.length (fst (generateClientId random16 n)) = 36
  /\ snd (generateClientId random16 n) = n + 31.
Proof.
  unfold generateClientId.
  destruct (replaceXY_fits random16 "xxxxxxxx-xxxx-4xxx-yxxx-xxxxxxxxxxxx" n) as [H1 H2].
  split; [exact H1|]. split; [|exact H2].
  now rewrite (fits_length _ _ H1).
Qed.

(** ** The blocks of a sequence of nodes *)

Section BlockTags.

Variable innerHTML : node -> string.
Variable random16 : nat -> nat.

Lemma pushBlocks_tags (nodes : list node) :
  forall n,
    List.map Block.tagName (fst (pushBlocks (nodeToBlock innerHTML random16) nodes n))
    = Outline.block_tags nodes.
Proof.
  induction nodes as [|c nodes IH]; intro n; [reflexivity|].
  cbn [pushBlocks]. unfold Outline.block_tags. cbn [List.flat_map].
  fold (Outline.block_tags nodes).
  destruct c as [d | d | tag attrs cs].
  - rewrite nodeToBlock_text. destruct (JsString.trim d =? "").
    + specialize (IH n). destruct (pushBlocks _ nodes n) as [bs n2]. exact IH.
    + specialize (IH (snd (generateClientId random16 n))).
      destruct (pushBlocks _ nodes _) as [bs n2]. cbn [fst List.map app] in *.
      now rewrite IH.
  - cbn [nodeToBlock]. specialize (IH n).
    destruct (pushBlocks _ nodes n) as [bs n2]. exact IH.
  - destruct (element_block_fields innerHTML random16 tag attrs cs n)
      as (block & n' & -> & Htag & _).
    specialize (IH n'). destruct (pushBlocks _ nodes n') as [bs n2].
    cbn [fst List.map app] in *. now rewrite IH, Htag.
Qed.

End BlockTags.

(** X6. The forward transcoder returns one block for each element and for
    each text that is not white space among the children of the parsed
    fragment, in document order: a block with the lower-case name of the
    element, or a [p] block; white space and comments give no block. *)
Theorem parseHTMLToBlocks_in_document_order
    (innerHTML : node -> string) (random16 : nat -> nat)
    (bodyFirstChild : string -> option node) (text : string) (n : nat)
    (container : node) :
  text <> "" ->
  bodyFirstChild ("<div>" ++ replaceSelfClosing 0 text ++ "</div>") = Some container ->
  List.map Block.tagName
    (fst (parseHTMLToBlocks innerHTML random16 bodyFirstChild (JStr text) n))
  = Outline.block_tags (Dom.childNodes container).
Proof.
  intros Htext Hparse. unfold parseHTMLToBlocks. cbn [Js.truthy].
  destruct (String.eqb_spec text ""); [contradiction|]. cbn [negb].
  rewrite Hparse. apply pushBlocks_tags.
Qed.

Lemma parseHTMLToBlocks_in_document_order_witness :
  List.map Block.tagName
    (fst (parseHTMLToBlocks (fun _ => "") (fun _ => 0)
            (fun _ => Some (Element "DIV" []
                              [Text " "; Element "H1" [] [Text "Hi"]; Comment "c";
                               Text " stray "; Element "IMG" [] []]))
            (JStr "<h1>Hi</h1><!--c--> stray <img>") 0))
  = [JStr "h1"; JStr "p"; JStr "img"].
Proof.
  rewrite (parseHTMLToBlocks_in_document_order (fun _ => "") (fun _ => 0) _
             "<h1>Hi</h1><!--c--> stray <img>" 0
             (Element "DIV" []
                [Text " "; Element "H1" [] [Text "Hi"]; Comment "c";
                 Text " stray "; Element "IMG" [] []])).
  - reflexivity.
  - discriminate.
  - reflexivity.
Defined.

(** ** The compact text of a document after both transcoders *)

Lemma policy_selfClosing (tagName : string) :
  Js.get_opt (getTagConfig tagName) "selfClosing" =
  if JsString.toLowerCase tagName =? "set" then JBool true
  else if (JsString.toLowerCase tagName =? "loop") || (JsString.toLowerCase tagName =? "if")
       then JBool false
       else JUndefined.
Proof.
  unfold getTagConfig. set (k := JsString.toLowerCase tagName).
  unfold tagConfigs. cbn [Js.has_key Js.lookup].
  destruct (k =? "set"); [reflexivity|].
  destruct (k =? "loop"); [reflexivity|].
  destruct (k =? "if"); [reflexivity|].
  cbn [orb]. destruct ((k =? "constructor") || (k =? "__proto__")); reflexivity.
Qed.

Lemma policy_contentType_set (tagName : string) :
  JsString.toLowerCase tagName = "set" ->
  Js.get_opt (getTagConfig tagName) "contentType" = JStr "empty".
Proof. intro H. unfold getTagConfig. rewrite H. reflexivity. Qed.

Lemma bind_Ok_r {A} (m : result A) : bind m Ok = m.
Proof. destruct m; reflexivity. Qed.

Section Composition.

Variable textGt0 : jsval -> bool.
Variable innerHTML : node -> string.
Variable random16 : nat -> nat.

(** [blockToHTML], in compact mode, on the attributes that the forward
    transcoder builds. *)
Lemma elementToHTML_blockAttributes (t : string) (ct : jsval) (stored : bool)
    (g : list (string * jsval)) (cls content : string) (inner : list jsval)
    (parseInner : nat -> result string) (indent : nat) :
  elementToHTML textGt0 false (blockAttributes t ct (JBool stored) g cls content)
    (JArr inner) parseInner indent
  = let written :=
      Emission.emitted_entries (if cls =? "" then JUndefined else JStr cls) g in
    let* innerContent :=
      if Js.is_str "text" ct || Js.is_str "html" ct then Ok content
      else if Js.is_str "blocks" ct then
             if hasInnerBlocks textGt0 (JArr inner) then parseInner (indent + 1)
             else Ok ""
           else Ok "" in
    if Js.truthy (match Js.get_opt (getTagConfig t) "selfClosing" with
                  | JUndefined => JBool (stored || isVoidElement t)
                  | sc => sc
                  end)
    then Ok ("<" ++ t ++ written ++ " />")
    else Ok ("<" ++ t ++ written ++ ">" ++ innerContent ++ "</" ++ t ++ ">").
Proof.
  unfold elementToHTML.
  rewrite (get_of_object _ _ (blockAttributes_is_object _ _ _ _ _ _)).
  rewrite blockAttributes_tagName, blockAttributes_contentType, blockAttributes_content,
    blockAttributes_selfClosing, blockAttributes_globalAttrs, blockAttributes_className.
  cbn [bind Js.default Js.entries Js.own_props].
  rewrite classAttribute_written
    by (destruct (cls =? ""); [now left | right; eexists; reflexivity]).
  rewrite globalAttributes_emitted.
  fold (Emission.every_entry (if cls =? "" then JUndefined else JStr cls)
          (List.filter Emission.emitted g)).
  fold (Emission.emitted_entries (if cls =? "" then JUndefined else JStr cls) g).
  assert (Hinner :
    (if Js.is_str "text"
          (Js.default (JStr "text") ct)
        || Js.is_str "html" (Js.default (JStr "text") ct)
     then Ok (if Js.truthy
                   (Js.default (JStr "")
                      (if Js.is_str "text" ct || Js.is_str "html" ct
                       then JStr content else JUndefined))
              then Js.ToString
                     (Js.default (JStr "")
                        (if Js.is_str "text" ct || Js.is_str "html" ct
                         then JStr content else JUndefined))
              else "")
     else if Js.is_str "blocks" (Js.default (JStr "text") ct)
          then if hasInnerBlocks textGt0 (JArr inner)
               then let* childHtml := parseInner (indent + 1) in
                    (if false && Js.truthy (JStr childHtml)
                     then Ok (JsString.newline ++ JsString.repeat "  " (indent + 1)
                              ++ JsString.join
                                   (JsString.newline ++ JsString.repeat "  " (indent + 1))
                                   (JsString.split JsString.LF childHtml)
                              ++ JsString.newline ++ JsString.repeat "  " indent)
                     else Ok childHtml)
               else Ok ""
          else Ok "")
    = (if Js.is_str "text" ct || Js.is_str "html" ct then Ok content
       else if Js.is_str "blocks" ct then
              if hasInnerBlocks textGt0 (JArr inner) then parseInner (indent + 1)
              else Ok ""
            else Ok "")).
  { destruct ct as [| | | |s| |]; cbn [Js.default Js.is_str orb]; try reflexivity.
    destruct ((s =? "text") || (s =? "html")).
    - destruct content; reflexivity.
    - destruct (s =? "blocks"); [|reflexivity].
      destruct (hasInnerBlocks textGt0 (JArr inner)); [|reflexivity].
      cbn [andb]. apply bind_Ok_r. }
  rewrite Hinner. clear Hinner.
  match goal with
  | |- bind ?m _ = bind ?m _ => destruct m as [innerContent|e]; [|reflexivity]
  end.
  cbn [bind].
  destruct (Js.get_opt (getTagConfig t) "selfClosing") as [| |b| | | |];
    try reflexivity.
  destruct stored; reflexivity.
Qed.

Lemma pushBlocks_serialized (f : node -> Rand (option jsval)) (cs : list node) :
  Forall (fun c => forall n indent,
            mapJoin "" (fun b => blockToHTML textGt0 false b indent)
              (Block.as_list (fst (f c n)))
            = Ok (Serial.serialize innerHTML c)) cs ->
  forall n indent,
    mapJoin "" (fun b => blockToHTML textGt0 false b indent) (fst (pushBlocks f cs n))
    = Ok (String.concat "" (List.map (Serial.serialize innerHTML) cs)).
Proof.
  induction 1 as [|c cs Hc _ IH]; intros n indent; [reflexivity|].
  cbn [pushBlocks List.map]. specialize (Hc n indent).
  destruct (f c n) as [o n1]. specialize (IH n1 indent).
  destruct (pushBlocks f cs n1) as [bs n2]. cbn [fst] in *.
  rewrite concat_empty_cons. now apply mapJoin_as_list_app.
Qed.

Lemma blockToHTML_blockObject (id : string) (attributes : jsval) (inner : list jsval)
    (indent : nat) :
  blockToHTML textGt0 false (blockObject id "universal/element" attributes inner) indent
  = elementToHTML textGt0 false attributes (JArr inner)
      (parseBlocksToHTML textGt0 false (JArr inner)) indent.
Proof. unfold blockObject. rewrite blockToHTML_JObj. reflexivity. Qed.

Lemma nodeToBlock_serialized (nd : node) :
  forall n indent,
    mapJoin "" (fun b => blockToHTML textGt0 false b indent)
      (Block.as_list (fst (nodeToBlock innerHTML random16 nd n)))
    = Ok (Serial.serialize innerHTML nd).
Proof.
  induction nd as [d | d | tag attrs cs IH] using node_induction; intros n indent.
  - rewrite nodeToBlock_text. cbn [Serial.serialize].
    destruct (JsString.trim d =? "") eqn:E; [reflexivity|].
    cbn [fst Block.as_list]. rewrite mapJoin_cons, blockToHTML_blockObject.
    unfold elementToHTML, textBlockAttributes.
    cbn [Js.get Js.get_opt Js.lookup String.eqb Ascii.eqb Bool.eqb bind Js.default
         Js.entries Js.own_props List.map String.concat classAttribute Js.truthy
         Js.is_str orb negb].
    rewrite E.
    change (Js.get_opt (getTagConfig "p") "selfClosing") with JUndefined.
    change (isVoidElement "p") with false.
    cbn [Js.truthy negb Js.ToString bind mapJoin mapM JsString.join append].
    now rewrite append_nil_r.
  - reflexivity.
  - assert (Hchildren : forall m i,
               mapJoin "" (fun b => blockToHTML textGt0 false b i)
                 (fst (pushBlocks (nodeToBlock innerHTML random16) cs m))
               = Ok (String.concat "" (List.map (Serial.serialize innerHTML) cs)))
      by (now apply pushBlocks_serialized).
    rewrite nodeToBlock_element. cbn [fst Block.as_list Serial.serialize].
    rewrite mapJoin_cons, blockToHTML_blockObject.
    pose proof (policy_selfClosing (JsString.toLowerCase tag)) as Hsc.
    rewrite toLowerCase_idem in Hsc.
    assert (Hvoid : isVoidElement (JsString.toLowerCase tag)
                    = includes voidElements (JsString.toLowerCase tag))
      by (unfold isVoidElement; now rewrite toLowerCase_idem).
    pose proof (toLowerCase_idem tag) as Hidem.
    set (t := JsString.toLowerCase tag) in *. clearbody t.
    unfold finalSelfClosing, Serial.self_closing_tag.
    destruct (String.eqb_spec t "set") as [Hset|Hset].
    + (* the policy of [set] *)
      unfold detectContent. rewrite Hsc.
      rewrite (policy_contentType_set t) by (now rewrite Hidem).
      cbn [Js.truthy negb String.eqb fst snd].
      rewrite elementToHTML_blockAttributes, Hsc.
      cbn [Js.is_str String.eqb Ascii.eqb Bool.eqb orb bind Js.truthy mapJoin mapM
           JsString.join]. now rewrite append_nil_r.
    + rewrite detectContent_structural
        by (rewrite Hsc; destruct ((t =? "loop") || (t =? "if")); discriminate).
      assert (Hresolved :
                Js.truthy
                  (match Js.get_opt (getTagConfig t) "selfClosing" with
                   | JUndefined =>
                       JBool (includes voidElements t || isVoidElement t)
                   | sc => sc
                   end) = includes voidElements t
                /\ match Js.get_opt (getTagConfig t) "selfClosing" with
                   | JUndefined => JBool (includes voidElements t)
                   | sc => sc
                   end = JBool (includes voidElements t)).
      { rewrite Hsc, Hvoid.
        destruct (t =? "loop") eqn:El;
          [apply String.eqb_eq in El; rewrite El; split; reflexivity|].
        destruct (t =? "if") eqn:Ei;
          [apply String.eqb_eq in Ei; rewrite Ei; split; reflexivity|].
        cbn [orb Js.truthy]. now rewrite orb_diag. }
      destruct Hresolved as [Hr1 Hr2]. rewrite Hr2. cbn [orb].
      destruct (includes voidElements t) eqn:Ev.
      { cbn [fst snd]. rewrite elementToHTML_blockAttributes, Hr1.
        cbn [Js.is_str String.eqb Ascii.eqb Bool.eqb orb bind mapJoin mapM JsString.join].
        now rewrite append_nil_r. }
      destruct (t =? "svg").
      { cbn [fst snd]. rewrite elementToHTML_blockAttributes, Hr1.
        cbn [Js.is_str String.eqb Ascii.eqb Bool.eqb orb bind mapJoin mapM JsString.join].
        now rewrite append_nil_r. }
      destruct (hasChildElements (Element tag attrs cs)) eqn:Hel.
      * destruct (includes containerElements t); cbn [andb fst snd];
          rewrite elementToHTML_blockAttributes, Hr1;
          cbn [Js.is_str String.eqb Ascii.eqb Bool.eqb orb].
        -- assert (Hhas : hasInnerBlocks textGt0
                            (JArr (fst (pushBlocks (nodeToBlock innerHTML random16) cs n)))
                          = true).
           { pose proof (pushBlocks_nonempty innerHTML random16 cs tag attrs n Hel) as Hne.
             destruct (fst (pushBlocks _ cs n)); [contradiction Hne|]; reflexivity. }
           rewrite Hhas. unfold parseBlocksToHTML. cbn [separator].
           rewrite Hchildren.
           cbn [bind mapJoin mapM JsString.join]. now rewrite append_nil_r.
        -- cbn [bind mapJoin mapM JsString.join]. now rewrite append_nil_r.
      * cbn [andb]. destruct (hasTextContent (Element tag attrs cs)); cbn [fst snd];
          rewrite elementToHTML_blockAttributes, Hr1;
          cbn [Js.is_str String.eqb Ascii.eqb Bool.eqb orb bind mapJoin mapM JsString.join];
          now rewrite append_nil_r.
Qed.

End Composition.

(** X7. The reverse transcoder, in compact mode, applied to the blocks of
    the forward transcoder never raises, and writes each node of the parsed
    fragment as follows.  A text that is not white space comes back as a
    paragraph around the trimmed text.  An element comes back under its
    lower-case name with the attributes as [blockToHTML] emits them; in
    self-closing form for [set] and the void elements, whatever their
    children; otherwise around the inner markup for [svg] and for an element
    with element children that is not a container, around the text of its
    children, transcoded in turn, for a container with element children,
    around its unescaped text content when it only has text, and around
    nothing otherwise.  White space and comments between the nodes are
    dropped. *)
Theorem compact_html_of_forward_blocks
    (textGt0 : jsval -> bool) (innerHTML : node -> string) (random16 : nat -> nat)
    (bodyFirstChild : string -> option node) (html : jsval) (n indent : nat) :
  parseBlocksToHTML textGt0 false
    (JArr (fst (parseHTMLToBlocks innerHTML random16 bodyFirstChild html n))) indent
  = Ok (match html with
        | JStr text =>
            if text =? "" then ""
            else match bodyFirstChild ("<div>" ++ replaceSelfClosing 0 text ++ "</div>") with
                 | Some container =>
                     String.concat ""
                       (List.map (Serial.serialize innerHTML) (Dom.childNodes container))
                 | None => ""
                 end
        | _ => ""
        end).
Proof.
  unfold parseHTMLToBlocks.
  destruct html as [| | | |text| |]; try reflexivity.
  cbn [Js.truthy]. destruct (text =? ""); [reflexivity|]. cbn [negb].
  destruct (bodyFirstChild _) as [container|]; [|reflexivity].
  unfold parseBlocksToHTML. cbn [separator].
  apply pushBlocks_serialized. apply Forall_forall. intros c _.
  apply nodeToBlock_serialized.
Qed.

(** ** Escaping *)

Lemma html_entity_no_delimiter (x c : ascii) :
  In x Chars.delimiters -> no_char x (Spec.html_entity c) = true.
Proof.
  intro Hx. unfold Spec.html_entity, no_char.
  destruct (Ascii.eqb c "&") eqn:E1;
    [destruct Hx as [<-|[<-|[<-|[<-|[]]]]]; reflexivity|].
  destruct (Ascii.eqb c JsString.DQUOTE) eqn:E2;
    [destruct Hx as [<-|[<-|[<-|[<-|[]]]]]; reflexivity|].
  destruct (Ascii.eqb c "'") eqn:E3;
    [destruct Hx as [<-|[<-|[<-|[<-|[]]]]]; reflexivity|].
  destruct (Ascii.eqb c "<") eqn:E4;
    [destruct Hx as [<-|[<-|[<-|[<-|[]]]]]; reflexivity|].
  destruct (Ascii.eqb c ">") eqn:E5;
    [destruct Hx as [<-|[<-|[<-|[<-|[]]]]]; reflexivity|].
  cbn [all_chars]. rewrite andb_true_r.
  destruct Hx as [<-|[<-|[<-|[<-|[]]]]]; [now rewrite E2 | now rewrite E3
                                          | now rewrite E4 | now rewrite E5].
Qed.

Lemma escaped_no_delimiter (x : ascii) (s : string) :
  In x Chars.delimiters -> no_char x (Spec.escaped s) = true.
Proof.
  intro Hx. induction s as [|c s IH]; [reflexivity|].
  cbn [Spec.escaped]. unfold no_char in *.
  rewrite all_chars_app, IH, andb_true_r. now apply html_entity_no_delimiter.
Qed.

(** X8. Whatever value [escapeAttribute] is given, the text it returns
    holds no double quote, no single quote, no less-than and no
    greater-than sign: written between double quotes, it can neither end
    the attribute value nor open or close a tag. *)
Theorem escapeAttribute_leaves_no_delimiter (value : jsval) (x : ascii) :
  In x Chars.delimiters -> no_char x (escapeAttribute value) = true.
Proof.
  intro Hx. rewrite escapeAttribute_escaped. now apply escaped_no_delimiter.
Qed.

Lemma escapeAttribute_leaves_no_delimiter_witness :
  In "<"%char Chars.delimiters
  /\ no_char "<" (escapeAttribute (JStr "a<b>c")) = true.
Proof.
  split; [cbn; auto|].
  apply (escapeAttribute_leaves_no_delimiter (JStr "a<b>c") "<"%char). cbn. auto.
Defined.

(** X9. [escapeAttribute] loses nothing: replacing the five entities it
    writes by their characters gives back the text of the value, so two
    values with different texts are never escaped to the same text. *)
Theorem escapeAttribute_is_lossless (value other : jsval) :
  Doc.decode 0 (escapeAttribute value) = Js.ToString value
  /\ (escapeAttribute value = escapeAttribute other <->
      Js.ToString value = Js.ToString other).
Proof.
  assert (H : forall v, Doc.decode 0 (escapeAttribute v) = Js.ToString v)
    by (intro v; rewrite escapeAttribute_escaped; apply decode_escaped).
  split; [apply H|]. split.
  - intro E. rewrite <- (H value), <- (H other). now rewrite E.
  - intro E. rewrite !escapeAttribute_escaped. now rewrite E.
Qed.

Lemma keep_all_chars (p : ascii -> bool) (s : string) :
  all_chars p (JsString.keep p s) = true.
Proof.
  induction s as [|c s IH]; [reflexivity|]. cbn [JsString.keep].
  destruct (p c) eqn:E; [|exact IH]. cbn [all_chars]. now rewrite E, IH.
Qed.

Lemma keep_length (p : ascii -> bool) (s : string) :
  (String.length (JsString.keep p s) <= String.length s)%nat.
Proof.
  induction s as [|c s IH]; [apply le_n|]. cbn [JsString.keep].
  destruct (p c); cbn [String.length]; lia.
Qed.

Lemma keep_fixed (p : ascii -> bool) (s : string) :
  JsString.keep p s = s -> all_chars p s = true.
Proof.
  intro H. rewrite <- H. apply keep_all_chars.
Qed.

(** X10. [escapeAttributeName] returns letters, digits, hyphens and
    underscores only; it returns the name itself exactly when the name is
    made of such characters, so that escaping twice is escaping once; and
    it never makes a name longer. *)
Theorem escapeAttributeName_keeps_name_characters (name : string) :
  all_chars is_name_char (escapeAttributeName name) = true
  /\ (escapeAttributeName name = name <-> all_chars is_name_char name = true)
  /\ escapeAttributeName (escapeAttributeName name) = escapeAttributeName name
  /\ (String.length (escapeAttributeName name) <= String.length name)%nat.
Proof.
  unfold escapeAttributeName.
  split; [apply keep_all_chars|].
  split; [split; [apply keep_fixed | apply keep_all]|].
  split; [apply keep_all, keep_all_chars | apply keep_length].
Qed.

(** ** Texts without self-closing tags *)

Lemma contains2_app_r (a b : ascii) (w s : string) :
  Chars.contains2 a b (w ++ s) = false -> Chars.contains2 a b s = false.
Proof.
  induction w as [|c w IH]; [trivial|].
  change (String c w ++ s) with (String c (w ++ s)).
  cbn [Chars.contains2]. intro H. apply orb_false_iff in H as [_ H]. now apply IH.
Qed.

Lemma takeWord_split (s : string) : s = fst (takeWord s) ++ snd (takeWord s).
Proof.
  induction s as [|c s IH]; [reflexivity|]. cbn [takeWord].
  destruct (JsString.is_word c); [|reflexivity].
  destruct (takeWord s) as [w rest]. cbn [fst snd] in *.
  change (String c w ++ rest) with (String c (w ++ rest)). now rewrite <- IH.
Qed.

Lemma lazyUntilSlashGt_none (s : string) :
  Chars.contains2 "/" ">" s = false -> lazyUntilSlashGt s = None.
Proof.
  induction s as [|c s IH]; [reflexivity|].
  cbn [Chars.contains2 lazyUntilSlashGt]. intro H.
  apply orb_false_iff in H as [Hhere H]. rewrite (IH H).
  destruct (Ascii.eqb c "/").
  - destruct s as [|d s']; [destruct (Ascii.eqb c ">"); reflexivity|].
    cbn [andb] in Hhere. rewrite Hhere.
    destruct (Ascii.eqb c ">"); reflexivity.
  - destruct (Ascii.eqb c ">"); reflexivity.
Qed.

Lemma matchSelfClosing_none (s : string) :
  Chars.contains2 "/" ">" s = false -> matchSelfClosing s = None.
Proof.
  destruct s as [|c r]; [reflexivity|]. intro H. cbn [matchSelfClosing].
  destruct (Ascii.eqb c "<"); [|reflexivity].
  cbn [Chars.contains2] in H. apply orb_false_iff in H as [_ H].
  pose proof (takeWord_split r) as Hr. destruct (takeWord r) as [w rest].
  cbn [fst snd] in Hr. rewrite Hr in H. apply contains2_app_r in H.
  destruct (w =? ""); [reflexivity|]. now rewrite (lazyUntilSlashGt_none rest H).
Qed.

(** X11. The rewriting of self-closing tags that [parseHTMLToBlocks] runs
    before parsing leaves a text alone in which no slash is followed by a
    greater-than sign: such a text reaches the HTML parser as it is. *)
Theorem replaceSelfClosing_without_slash_gt (html : string) :
  Chars.contains2 "/" ">" html = false -> replaceSelfClosing 0 html = html.
Proof.
  induction html as [|c r IH]; [reflexivity|]. intro H.
  cbn [replaceSelfClosing]. rewrite (matchSelfClosing_none _ H).
  cbn [Chars.contains2] in H. apply orb_false_iff in H as [_ H].
  now rewrite (IH H).
Qed.

Lemma replaceSelfClosing_without_slash_gt_witness :
  Chars.contains2 "/" ">" "<ul><li>a / b</li><set x></set></ul>" = false
  /\ replaceSelfClosing 0 "<ul><li>a / b</li><set x></set></ul>"
     = "<ul><li>a / b</li><set x></set></ul>".
Proof.
  split; [reflexivity|].
  apply (replaceSelfClosing_without_slash_gt "<ul><li>a / b</li><set x></set></ul>").
  reflexivity.
Defined.

(** ** The tag configurations *)

(** X12. [getTagConfig] does not look at the case of the tag name.  It
    gives a self-closing policy and a content type for [set], [loop] and
    [if] only: self-closing and [empty] for [set], not self-closing and
    [blocks] for the other two.  It returns [null] for every other name
    but [constructor] and [__proto__], which the object literal inherits. *)
Theorem getTagConfig_policies (tagName : string) :
  let name := JsString.toLowerCase tagName in
  getTagConfig name = getTagConfig tagName
  /\ Js.get_opt (getTagConfig tagName) "selfClosing" =
     (if name =? "set" then JBool true
      else if (name =? "loop") || (name =? "if") then JBool false
      else JUndefined)
  /\ Js.get_opt (getTagConfig tagName) "contentType" =
     (if name =? "set" then JStr "empty"
      else if (name =? "loop") || (name =? "if") then JStr "blocks"
      else JUndefined)
  /\ (getTagConfig tagName = JNull <->
      ~ In name ("constructor" :: "__proto__" :: policyTags)).
Proof.
  intro name. split; [apply getTagConfig_lower|].
  split; [apply policy_selfClosing|].
  unfold getTagConfig. fold name. unfold tagConfigs. cbn [Js.has_key Js.lookup].
  destruct (String.eqb_spec name "set") as [E1|E1]; cbn [orb].
  { split; [reflexivity|]. split; [discriminate|].
    intro H. exfalso. apply H. do 2 right; left. symmetry. exact E1. }
  destruct (String.eqb_spec name "loop") as [E2|E2]; cbn [orb].
  { split; [reflexivity|]. split; [discriminate|].
    intro H. exfalso. apply H. do 3 right; left. symmetry. exact E2. }
  destruct (String.eqb_spec name "if") as [E3|E3]; cbn [orb].
  { split; [reflexivity|]. split; [discriminate|].
    intro H. exfalso. apply H. do 4 right; left. symmetry. exact E3. }
  destruct (String.eqb_spec name "constructor") as [E4|E4]; cbn [orb].
  { split; [reflexivity|]. split; [discriminate|].
    intro H. exfalso. apply H. left. symmetry. exact E4. }
  destruct (String.eqb_spec name "__proto__") as [E5|E5]; cbn [orb].
  { split; [reflexivity|]. split; [discriminate|].
    intro H. exfalso. apply H. do 1 right; left. symmetry. exact E5. }
  split; [reflexivity|]. split; [|reflexivity].
  intros _ [H|[H|[H|[H|[H|[]]]]]]; congruence.
Qed.

(** ** The attributes of a block comment *)

(** X13. The object that [blockToWPMarkup] serializes into the block
    comment is a copy of the attributes in which [isDynamic] is [false] and
    [elementType] is [text] unless the attributes hold a truthy value for
    them; every other property is the one of the attributes. *)
Theorem blockAttrs_defaults (props : list (string * jsval)) (key : string) :
  exists out,
    blockAttrs (JObj props) = JObj out
    /\ Js.lookup "isDynamic" out =
       (if Js.truthy (Js.lookup "isDynamic" props) then Js.lookup "isDynamic" props
        else JBool false)
    /\ Js.lookup "elementType" out =
       (if Js.truthy (Js.lookup "elementType" props) then Js.lookup "elementType" props
        else JStr "text")
    /\ (key <> "isDynamic" -> key <> "elementType" ->
        Js.lookup key out = Js.lookup key props).
Proof.
  unfold blockAttrs. cbn [Js.own_props]. eexists. split; [reflexivity|].
  unfold setIfFalsy.
  assert (H1 : forall d ps,
             Js.lookup "isDynamic"
               (if Js.truthy (Js.lookup "isDynamic" ps) then ps
                else Js.set "isDynamic" d ps)
             = if Js.truthy (Js.lookup "isDynamic" ps) then Js.lookup "isDynamic" ps
               else d).
  { intros d ps. destruct (Js.truthy (Js.lookup "isDynamic" ps)); [reflexivity|].
    apply lookup_set_same. discriminate. }
  assert (H2 : forall d ps,
             Js.lookup "elementType"
               (if Js.truthy (Js.lookup "elementType" ps) then ps
                else Js.set "elementType" d ps)
             = if Js.truthy (Js.lookup "elementType" ps) then Js.lookup "elementType" ps
               else d).
  { intros d ps. destruct (Js.truthy (Js.lookup "elementType" ps)); [reflexivity|].
    apply lookup_set_same. discriminate. }
  assert (H3 : forall k k' d ps,
             k' <> k ->
             Js.lookup k' (if Js.truthy (Js.lookup k ps) then ps else Js.set k d ps)
             = Js.lookup k' ps).
  { intros k k' d ps Hk. destruct (Js.truthy (Js.lookup k ps)); [reflexivity|].
    now apply lookup_set_other. }
  split; [|split].
  - rewrite H3 by discriminate. apply H1.
  - rewrite H2. rewrite !H3 by discriminate. reflexivity.
  - intros Hd He. rewrite H3 by exact He. now apply H3.
Qed.

(** ** What every block of the forward transcoder carries *)

Lemma blockAttributes_fixed_fields (t : string) (ct sc : jsval)
    (g : list (string * jsval)) (cls content : string) :
  let attrs := blockAttributes t ct sc g cls content in
  Js.get_opt attrs "blockName"
  = JStr (JsString.toUpperCase (JsString.charAt0 t) ++ JsString.slice1 t)
  /\ Js.get_opt attrs "category" = JStr "custom"
  /\ Js.get_opt attrs "uiState" = uiState t ct.
Proof.
  unfold blockAttributes.
  destruct (Js.truthy (JStr cls));
    destruct (Js.is_str "text" ct || Js.is_str "html" ct);
    repeat split; reflexivity.
Qed.

Section WellFormed.

Variable innerHTML : node -> string.
Variable random16 : nat -> nat.

Lemma generateClientId_fits (n : nat) :
  Uuid.fits "xxxxxxxx-xxxx-4xxx-yxxx-xxxxxxxxxxxx" (fst (generateClientId random16 n)) = true.
Proof.
  unfold generateClientId.
  exact (proj1 (replaceXY_fits random16 "xxxxxxxx-xxxx-4xxx-yxxx-xxxxxxxxxxxx" n)).
Qed.

Lemma detectContent_type (nd : node) (t : string) (isVoid : bool)
    (childBlocks : Rand (list jsval)) (n : nat) :
  JsString.toLowerCase t = t ->
  In (fst (fst (fst (detectContent innerHTML nd t (getTagConfig t) isVoid childBlocks n))))
     Stamp.content_types.
Proof.
  intro Ht. unfold detectContent, Stamp.content_types.
  rewrite policy_selfClosing, Ht.
  destruct (String.eqb_spec t "set") as [E|_].
  { rewrite (policy_contentType_set t) by (now rewrite Ht). cbn. auto. }
  assert (Hno : match (if (t =? "loop") || (t =? "if") then JBool false else JUndefined) with
                | JBool true => true
                | _ => false
                end = false)
    by (destruct ((t =? "loop") || (t =? "if")); reflexivity).
  rewrite Hno.
  destruct isVoid; [cbn; auto|].
  destruct (t =? "svg"); [cbn; auto|].
  destruct (hasChildElements nd && includes containerElements t).
  { destruct (childBlocks n). cbn. auto. }
  destruct (hasChildElements nd); [cbn; auto|].
  destruct (hasTextContent nd); cbn; auto.
Qed.

Lemma finalSelfClosing_bool (t : string) (isVoid : bool) :
  exists b, finalSelfClosing (getTagConfig t) isVoid = JBool b.
Proof.
  unfold finalSelfClosing. rewrite policy_selfClosing.
  destruct (JsString.toLowerCase t =? "set"); [now exists true|].
  destruct ((JsString.toLowerCase t =? "loop") || (JsString.toLowerCase t =? "if"));
    [now exists false | now exists isVoid].
Qed.

Lemma well_formed_element (n : nat) (t : string) (ct : jsval) (b : bool)
    (g : list (string * jsval)) (cls content : string) (inner : list jsval) :
  JsString.toLowerCase t = t ->
  In ct Stamp.content_types ->
  Stamp.well_formed
    (blockObject (fst (generateClientId random16 n)) "universal/element"
       (blockAttributes t ct (JBool b) g cls content) inner).
Proof.
  intros Ht Hct.
  destruct (blockAttributes_fixed_fields t ct (JBool b) g cls content) as (H1 & H2 & H3).
  unfold Stamp.well_formed, Stamp.uiState, Block.tagName, Block.contentType,
    Block.selfClosing.
  rewrite Block_attributes_blockObject, H1, H2, H3, blockAttributes_tagName,
    blockAttributes_contentType, blockAttributes_selfClosing.
  split; [reflexivity|]. split; [reflexivity|].
  split; [eexists; split; [reflexivity | apply generateClientId_fits]|].
  split; [exists t; repeat split; assumption|].
  repeat split; try assumption. now exists b.
Qed.

Lemma well_formed_text (n : nat) (text : string) :
  Stamp.well_formed
    (blockObject (fst (generateClientId random16 n)) "universal/element"
       (textBlockAttributes text) []).
Proof.
  unfold Stamp.well_formed.
  split; [reflexivity|]. split; [reflexivity|].
  split; [eexists; split; [reflexivity | apply generateClientId_fits]|].
  split; [exists "p"; repeat split; reflexivity|].
  split; [reflexivity|]. split; [reflexivity|].
  split; [cbn; auto|]. split; [reflexivity|]. now exists false.
Qed.

Lemma nodeToBlock_well_formed (nd : node) :
  forall n b, fst (nodeToBlock innerHTML random16 nd n) = Some b ->
              Block.every_node Stamp.well_formed b.
Proof.
  induction nd as [d | d | tag attrs cs IH] using node_induction; intros n b Hb.
  - rewrite nodeToBlock_text in Hb.
    destruct (JsString.trim d =? ""); [discriminate Hb|].
    injection Hb as <-. apply Block.every_node_intro with (inner := []).
    + apply well_formed_text.
    + reflexivity.
    + constructor.
  - discriminate Hb.
  - rewrite nodeToBlock_element in Hb.
    match type of Hb with
    | fst (Some ?x, _) = Some b =>
        assert (Hx : b = x) by (change (Some x = Some b) in Hb; congruence)
    end.
    clear Hb. subst b.
    pose proof (detectContent_type (Element tag attrs cs) (JsString.toLowerCase tag)
                  (includes voidElements (JsString.toLowerCase tag))
                  (pushBlocks (nodeToBlock innerHTML random16) cs) n
                  (toLowerCase_idem tag)) as Hct.
    destruct (finalSelfClosing_bool (JsString.toLowerCase tag)
                (includes voidElements (JsString.toLowerCase tag))) as [sc Hsc].
    rewrite Hsc.
    destruct (detectContent_shape innerHTML (Element tag attrs cs)
                (JsString.toLowerCase tag) (getTagConfig (JsString.toLowerCase tag))
                (includes voidElements (JsString.toLowerCase tag)))
      as (isBlocks & ct & content & Hshape & Hd).
    rewrite Hd in Hct |- *. cbn [fst snd] in Hct |- *.
    eapply Block.every_node_intro.
    + apply well_formed_element; [apply toLowerCase_idem | exact Hct].
    + apply Block_innerBlocks_blockObject.
    + destruct isBlocks; [|constructor].
      apply pushBlocks_Forall. exact IH.
Qed.

End WellFormed.

(** X14. Every block of every tree that the forward transcoder produces,
    at any depth, has the name [universal/element], is marked valid, and has
    a client identifier of the form of a version 4 UUID.  Its attributes
    hold a lower-case tag name, the block name made of the tag name with
    its first letter in upper case, the category [custom], one of the four
    content types, and a boolean self-closing flag; the UI state repeats
    the tag name and the content type. *)
Theorem forward_blocks_well_formed
    (innerHTML : node -> string) (random16 : nat -> nat)
    (bodyFirstChild : string -> option node) (html : jsval) (n : nat) :
  Forall (Block.every_node Stamp.well_formed)
    (fst (parseHTMLToBlocks innerHTML random16 bodyFirstChild html n)).
Proof.
  unfold parseHTMLToBlocks.
  destruct html as [| | | |text| |]; try constructor.
  destruct (negb (Js.truthy (JStr text))); [constructor|].
  destruct (bodyFirstChild _) as [container|]; [|constructor].
  apply pushBlocks_Forall. apply Forall_forall. intros c _.
  apply nodeToBlock_well_formed.
Qed.

(** ** Rendering a list of blocks piece by piece *)

Lemma join_app (sep : string) (a b : list string) :
  a <> [] -> b <> [] ->
  JsString.join sep (a ++ b)%list = JsString.join sep a ++ sep ++ JsString.join sep b.
Proof.
  intros Ha Hb. induction a as [|x a IH]; [contradiction Ha; reflexivity|].
  destruct a as [|y a].
  - destruct b as [|z b]; [contradiction Hb; reflexivity|]. reflexivity.
  - change (JsString.join sep ((x :: y :: a) ++ b)%list)
      with (x ++ sep ++ JsString.join sep ((y :: a) ++ b)%list).
    rewrite IH by discriminate.
    change (JsString.join sep (x :: y :: a)) with (x ++ sep ++ JsString.join sep (y :: a)).
    now rewrite !append_assoc.
Qed.

Lemma mapM_nonempty {A B} (f : A -> result B) (l : list A) (r : list B) :
  mapM f l = Ok r -> l <> [] -> r <> [].
Proof.
  destruct l as [|x l]; [intros _ H; contradiction H; reflexivity|].
  intros H _. cbn [mapM] in H. destruct (f x); [|discriminate H]. cbn [bind] in H.
  destruct (mapM f l); [|discriminate H]. cbn [bind] in H.
  injection H as <-. discriminate.
Qed.

Lemma mapJoin_app (sep : string) (f : jsval -> result string) (l1 l2 : list jsval)
    (r1 r2 : string) :
  l1 <> [] -> l2 <> [] ->
  mapJoin sep f l1 = Ok r1 ->
  mapJoin sep f l2 = Ok r2 ->
  mapJoin sep f (l1 ++ l2)%list = Ok (r1 ++ sep ++ r2).
Proof.
  unfold mapJoin. intros H1 H2 E1 E2. rewrite mapM_app.
  destruct (mapM f l1) as [p1|] eqn:M1; [|discriminate E1].
  destruct (mapM f l2) as [p2|] eqn:M2; [|discriminate E2].
  cbn [bind] in *. injection E1 as <-. injection E2 as <-.
  rewrite join_app; [reflexivity | |].
  - exact (mapM_nonempty f l1 p1 M1 H1).
  - exact (mapM_nonempty f l2 p2 M2 H2).
Qed.

(** X15. [parseBlocksToHTML] renders a list piece by piece: the text of
    two lists of blocks put end to end is the text of the first, the
    separator of the mode (a line feed in pretty mode, nothing in compact
    mode) and the text of the second, when neither list is empty and both
    are rendered without an exception. *)
Theorem parseBlocksToHTML_app
    (textGt0 : jsval -> bool) (pretty : bool) (indent : nat)
    (first second : list jsval) (text1 text2 : string) :
  first <> [] -> second <> [] ->
  parseBlocksToHTML textGt0 pretty (JArr first) indent = Ok text1 ->
  parseBlocksToHTML textGt0 pretty (JArr second) indent = Ok text2 ->
  parseBlocksToHTML textGt0 pretty (JArr (first ++ second)%list) indent
  = Ok (text1 ++ (if pretty then JsString.newline else "") ++ text2).
Proof.
  unfold parseBlocksToHTML. intros. now apply mapJoin_app.
Qed.

Lemma parseBlocksToHTML_app_witness :
  parseBlocksToHTML (fun _ => false) true
    (JArr ([Sample.heading] ++ [Sample.heading; Sample.heading])%list) 0
  = Ok ("<h1>Hi</h1>" ++ JsString.newline
        ++ "<h1>Hi</h1>" ++ JsString.newline ++ "<h1>Hi</h1>").
Proof.
  apply (parseBlocksToHTML_app (fun _ => false) true 0
           [Sample.heading] [Sample.heading; Sample.heading]);
    [discriminate | discriminate | reflexivity | reflexivity].
Defined.

(** X16. [parseBlocksToWPMarkup] renders a list piece by piece: the
    markup of two lists of blocks put end to end is the markup of the
    first, a line feed and the markup of the second, when neither list is
    empty and both are rendered without an exception. *)
Theorem parseBlocksToWPMarkup_app
    (textGt0 : jsval -> bool) (JSON_stringify : jsval -> string) (indent : nat)
    (first second : list jsval) (text1 text2 : string) :
  first <> [] -> second <> [] ->
  parseBlocksToWPMarkup textGt0 JSON_stringify (JArr first) indent = Ok text1 ->
  parseBlocksToWPMarkup textGt0 JSON_stringify (JArr second) indent = Ok text2 ->
  parseBlocksToWPMarkup textGt0 JSON_stringify (JArr (first ++ second)%list) indent
  = Ok (text1 ++ JsString.newline ++ text2).
Proof.
  unfold parseBlocksToWPMarkup. intros. now apply mapJoin_app.
Qed.

Lemma parseBlocksToWPMarkup_app_witness :
  parseBlocksToWPMarkup (fun _ => false) (fun _ => "{}")
    (JArr ([Sample.heading] ++ [Sample.heading])%list) 0
  = Ok (("<!-- wp:universal/element {} -->" ++ "<!-- /wp:universal/element -->")
        ++ JsString.newline
        ++ ("<!-- wp:universal/element {} -->" ++ "<!-- /wp:universal/element -->")).
Proof.
  apply (parseBlocksToWPMarkup_app (fun _ => false) (fun _ => "{}") 0
           [Sample.heading] [Sample.heading]);
    [discriminate | discriminate | reflexivity | reflexivity].
Defined.

(** ** The names of the files that the command line writes *)

Lemma eqb_longer (c : ascii) (stem suffix : string) :
  (String c stem ++ suffix =? suffix) = false.
Proof.
  apply String.eqb_neq. intro E.
  apply (f_equal String.length) in E.
  change (String c stem ++ suffix) with (String c (stem ++ suffix)) in E.
  cbn [String.length] in E. rewrite append_length in E. lia.
Qed.

Lemma replaceAtEnd_suffix (suffix by_ stem : string) :
  replaceAtEnd suffix by_ (stem ++ suffix) = stem ++ by_.
Proof.
  induction stem as [|c stem IH].
  - cbn [append]. destruct suffix; cbn [replaceAtEnd]; now rewrite String.eqb_refl.
  - pose proof (eqb_longer c stem suffix) as E.
    change (String c stem ++ suffix) with (String c (stem ++ suffix)) in *.
    cbn [replaceAtEnd]. rewrite E, IH. reflexivity.
Qed.

Lemma replaceAtEnd_same (suffix name : string) :
  replaceAtEnd suffix suffix name = name.
Proof.
  induction name as [|c name IH]; cbn [replaceAtEnd].
  - destruct (String.eqb_spec "" suffix) as [<-|_]; reflexivity.
  - destruct (String.eqb_spec (String c name) suffix) as [<-|_]; [reflexivity|].
    now rewrite IH.
Qed.

Lemma replaceAtEnd_other (suffix by_ name : string) :
  (forall stem, name <> stem ++ suffix) -> replaceAtEnd suffix by_ name = name.
Proof.
  induction name as [|c name IH]; intro H; cbn [replaceAtEnd].
  - destruct (String.eqb_spec "" suffix) as [E|_]; [|reflexivity].
    exfalso. apply (H ""). exact E.
  - destruct (String.eqb_spec (String c name) suffix) as [E|_].
    + exfalso. apply (H ""). exact E.
    + rewrite IH; [reflexivity|]. intros stem E. apply (H (String c stem)).
      rewrite E. reflexivity.
Qed.

(** X17. The file names of the command line.  In the [json] format,
    [html-to-blocks] writes [stem.json] for [stem.html], and [blocks-to-html]
    writes [stem.html] for that file again.  In any other format, the
    default [wp] included, the file written has the name of the file read;
    so has, in every format, the file written for a name that does not end
    in [.html]. *)
Theorem output_file_names (format stem name : string) :
  htmlToBlocksOutputFile "json" (stem ++ ".html") = stem ++ ".json"
  /\ blocksToHtmlOutputFile (htmlToBlocksOutputFile "json" (stem ++ ".html"))
     = stem ++ ".html"
  /\ (format <> "json" -> htmlToBlocksOutputFile format name = name)
  /\ ((forall s, name <> s ++ ".html") -> htmlToBlocksOutputFile format name = name).
Proof.
  unfold htmlToBlocksOutputFile, blocksToHtmlOutputFile, outputExt.
  change ("json" =? "json") with true. cbv iota.
  rewrite !replaceAtEnd_suffix.
  split; [reflexivity|]. split; [reflexivity|]. split.
  - intro H. apply String.eqb_neq in H. rewrite H. apply replaceAtEnd_same.
  - apply replaceAtEnd_other.
Qed.

(** ** The form of an element in the HTML written *)

Lemma resolved_self_closing (tag : string) (stored : jsval) :
  Js.truthy
    (match Js.get_opt (getTagConfig tag) "selfClosing" with
     | JUndefined =>
         if Js.truthy (Js.default (JBool false) stored)
         then Js.default (JBool false) stored
         else JBool (isVoidElement tag)
     | sc => sc
     end)
  = Resolve.self_closing tag stored.
Proof.
  rewrite policy_selfClosing. unfold Resolve.self_closing, isVoidElement.
  destruct (JsString.toLowerCase tag =? "set"); [reflexivity|].
  destruct ((JsString.toLowerCase tag =? "loop") || (JsString.toLowerCase tag =? "if"));
    [reflexivity|].
  destruct stored as [| |b| | | |]; cbn [Js.default Js.truthy orb]; try reflexivity.
  - destruct b; reflexivity.
  - destruct (negb (n =? 0)%Z) eqn:E; cbn [orb]; [|reflexivity].
    cbn [Js.truthy]. now rewrite E.
  - destruct (negb (s =? "")) eqn:E; cbn [orb]; [|reflexivity].
    cbn [Js.truthy]. now rewrite E.
Qed.

(** X18. The form in which [blockToHTML] writes an element block, unless
    it raises: the self-closing form for a [set] tag, whatever the block
    stores; an opening and a closing tag for [loop] and [if], also when the
    block is stored as self-closing; for any other tag the self-closing
    form exactly when the stored flag is truthy or the tag is a void
    element.  The tag name is compared without regard to case and written
    as stored. *)
Theorem blockToHTML_self_closing_resolution
    (textGt0 : jsval -> bool) (pretty : bool) (indent : nat)
    (block innerBlocks : jsval)
    (attrs globalAttrs : list (string * jsval)) (tag : string) :
  Spec.element_block block (JObj attrs) innerBlocks ->
  Js.lookup "tagName" attrs = JStr tag ->
  Js.lookup "globalAttrs" attrs = JObj globalAttrs ->
  (Js.lookup "className" attrs = JUndefined
   \/ exists s, Js.lookup "className" attrs = JStr s) ->
  (exists e, blockToHTML textGt0 pretty block indent = Throw e)
  \/ exists inner,
       blockToHTML textGt0 pretty block indent =
       Ok ((if pretty then JsString.repeat "  " indent else "")
           ++ "<" ++ tag
           ++ Emission.emitted_entries (Js.lookup "className" attrs) globalAttrs
           ++ (if Resolve.self_closing tag (Js.lookup "selfClosing" attrs)
               then " />"
               else ">" ++ inner ++ "</" ++ tag ++ ">")).
Proof.
  intros (props & -> & Hname & Hattrs & Hinner) Htag Hglobal Hclass.
  rewrite blockToHTML_JObj, Hname. cbn [Js.is_str]. rewrite String.eqb_refl.
  rewrite Hattrs, Hinner. unfold elementToHTML.
  cbn [Js.get Js.get_opt bind]. rewrite Htag, Hglobal.
  cbn [Js.default Js.entries Js.own_props bind].
  rewrite (classAttribute_written _ Hclass), globalAttributes_emitted.
  fold (Emission.every_entry (Js.lookup "className" attrs)
          (List.filter Emission.emitted globalAttrs)).
  fold (Emission.emitted_entries (Js.lookup "className" attrs) globalAttrs).
  match goal with
  | |- context [bind ?m _] => destruct m as [innerContent | e]
  end; [|left; now exists e].
  right. exists innerContent. cbn [bind].
  pose proof (resolved_self_closing tag (Js.lookup "selfClosing" attrs)) as Hr.
  cbn [Js.default] in Hr. rewrite Hr.
  destruct (Resolve.self_closing tag (Js.lookup "selfClosing" attrs)); reflexivity.
Qed.

Lemma blockToHTML_self_closing_resolution_witness :
  (exists e, blockToHTML (fun _ => false) false Resolve.flagged_loop 0 = Throw e)
  \/ exists inner,
       blockToHTML (fun _ => false) false Resolve.flagged_loop 0 =
       Ok ("" ++ "<" ++ "Loop"
           ++ Emission.emitted_entries JUndefined [("source", JStr "posts")]
           ++ (if Resolve.self_closing "Loop" (JBool true)
               then " />"
               else ">" ++ inner ++ "</" ++ "Loop" ++ ">")).
Proof.
  apply (blockToHTML_self_closing_resolution (fun _ => false) false 0
           Resolve.flagged_loop (JArr [])
           [ ("tagName", JStr "Loop"); ("contentType", JStr "text");
             ("content", JStr "x"); ("selfClosing", JBool true);
             ("globalAttrs", JObj [("source", JStr "posts")]) ]
           [("source", JStr "posts")] "Loop").
  - eexists. repeat split; reflexivity.
  - reflexivity.
  - reflexivity.
  - left. reflexivity.
Defined.

(** ** Pretty mode on a block without rendered children *)

(** X19. For an element block whose content type is not [blocks], or that
    has no inner blocks, pretty mode only indents: the text is the text of
    compact mode after two spaces for each level of indentation, and an
    exception of one mode is the exception of the other. *)
Theorem pretty_indents_leaf
    (textGt0 : jsval -> bool) (indent : nat) (block attributes innerBlocks : jsval) :
  Spec.element_block block attributes innerBlocks ->
  Js.is_str "blocks" (Js.get_opt attributes "contentType") = false
  \/ hasInnerBlocks textGt0 innerBlocks = false ->
  blockToHTML textGt0 true block indent =
  let* compact := blockToHTML textGt0 false block indent in
  Ok (JsString.repeat "  " indent ++ compact).
Proof.
  intros (props & -> & Hname & Hattrs & Hinner) Hleaf.
  rewrite !blockToHTML_JObj, Hname. cbn [Js.is_str]. rewrite String.eqb_refl.
  rewrite Hattrs, Hinner. unfold elementToHTML.
  destruct (Js.get attributes "tagName") as [tagName|e]; [|reflexivity].
  cbn [bind].
  destruct (Js.entries (Js.default (JObj []) (Js.get_opt attributes "globalAttrs")))
    as [entries|e]; [|reflexivity].
  cbn [bind].
  set (contentType := Js.default (JStr "text") (Js.get_opt attributes "contentType")).
  assert (Hblocks : Js.is_str "blocks" contentType = true ->
                    hasInnerBlocks textGt0 innerBlocks = false).
  { intro H. destruct Hleaf as [Hleaf|Hleaf]; [|exact Hleaf].
    unfold contentType in H.
    destruct (Js.get_opt attributes "contentType"); cbn [Js.default] in H;
      try discriminate H; congruence. }
  destruct (Js.is_str "text" contentType || Js.is_str "html" contentType).
  - cbn [bind].
    destruct (Js.default (JStr "div") tagName) as [| | | |t| |]; try reflexivity. cbn [bind].
    match goal with
    | |- context [if Js.truthy ?sc then _ else _] => destruct (Js.truthy sc)
    end; reflexivity.
  - destruct (Js.is_str "blocks" contentType).
    + rewrite (Hblocks eq_refl). cbn [bind].
      destruct (Js.default (JStr "div") tagName) as [| | | |t| |]; try reflexivity. cbn [bind].
      match goal with
      | |- context [if Js.truthy ?sc then _ else _] => destruct (Js.truthy sc)
      end; reflexivity.
    + cbn [bind].
      destruct (Js.default (JStr "div") tagName) as [| | | |t| |]; try reflexivity. cbn [bind].
      match goal with
      | |- context [if Js.truthy ?sc then _ else _] => destruct (Js.truthy sc)
      end; reflexivity.
Qed.

Lemma pretty_indents_leaf_witness :
  blockToHTML (fun _ => false) true Sample.heading 2 =
  let* compact := blockToHTML (fun _ => false) false Sample.heading 2 in
  Ok (JsString.repeat "  " 2 ++ compact).
Proof.
  apply (pretty_indents_leaf (fun _ => false) 2 Sample.heading
           (JObj Sample.heading_attrs) (JArr [])).
  - eexists. repeat split; reflexivity.
  - left. reflexivity.
Defined.

(** ** The block of an element, in closed form *)

Section ClosedForm.

Variable innerHTML : node -> string.
Variable random16 : nat -> nat.

Lemma detectContent_closed (nd : node) (t : string) (childBlocks : Rand (list jsval))
    (n : nat) :
  JsString.toLowerCase t = t ->
  let is_blocks := Normal.content_type nd t =? "blocks" in
  detectContent innerHTML nd t (getTagConfig t) (includes voidElements t) childBlocks n
  = (JStr (Normal.content_type nd t), Normal.content innerHTML nd t,
     if is_blocks then fst (childBlocks n) else [],
     if is_blocks then snd (childBlocks n) else n)
  /\ finalSelfClosing (getTagConfig t) (includes voidElements t)
     = JBool (Serial.self_closing_tag t).
Proof.
  intro Ht. unfold detectContent, finalSelfClosing, Normal.content_type, Normal.content,
    Serial.self_closing_tag.
  rewrite policy_selfClosing, Ht.
  destruct (String.eqb_spec t "set") as [E|_].
  { rewrite (policy_contentType_set t) by (now rewrite Ht). split; reflexivity. }
  cbn [orb].
  assert (Hno : match (if (t =? "loop") || (t =? "if") then JBool false else JUndefined) with
                | JBool true => true
                | _ => false
                end = false)
    by (destruct ((t =? "loop") || (t =? "if")); reflexivity).
  rewrite Hno.
  assert (Hfinal : match (if (t =? "loop") || (t =? "if") then JBool false else JUndefined) with
                   | JUndefined => JBool (includes voidElements t)
                   | sc => sc
                   end = JBool (includes voidElements t)).
  { destruct (String.eqb_spec t "loop") as [->|_]; [reflexivity|].
    destruct (String.eqb_spec t "if") as [->|_]; reflexivity. }
  rewrite Hfinal. split; [|reflexivity].
  destruct (includes voidElements t); [reflexivity|].
  destruct (t =? "svg"); [reflexivity|].
  destruct (hasChildElements nd); cbn [andb].
  - destruct (includes containerElements t); [|reflexivity].
    destruct (childBlocks n). reflexivity.
  - destruct (hasTextContent nd); reflexivity.
Qed.

Lemma nodeToBlock_closed (tag : string) (attrs : list (string * string))
    (cs : list node) (n : nat) :
  let nd := Element tag attrs cs in
  let is_blocks := Normal.content_type nd (JsString.toLowerCase tag) =? "blocks" in
  let children := pushBlocks (nodeToBlock innerHTML random16) cs n in
  let n1 := if is_blocks then snd children else n in
  nodeToBlock innerHTML random16 nd n =
  (Some (blockObject (fst (generateClientId random16 n1)) "universal/element"
           (Normal.attributes innerHTML nd)
           (if is_blocks then fst children else [])),
   snd (generateClientId random16 n1)).
Proof.
  intros nd is_blocks children n1.
  unfold nd. rewrite nodeToBlock_element.
  destruct (detectContent_closed nd (JsString.toLowerCase tag)
              (pushBlocks (nodeToBlock innerHTML random16) cs) n
              (toLowerCase_idem tag)) as [Hd Hf].
  fold nd. rewrite Hd, Hf. reflexivity.
Qed.

End ClosedForm.


(** ** The block markup of a document after both transcoders *)

Section MarkupComposition.

Variable textGt0 : jsval -> bool.
Variable JSON_stringify : jsval -> string.
Variable innerHTML : node -> string.
Variable random16 : nat -> nat.

(** [blockToWPMarkup] on the attributes that the forward transcoder builds. *)
Lemma elementToWPMarkup_blockAttributes (t ct : string) (sc : jsval)
    (g : list (string * jsval)) (cls content : string) (inner : list jsval)
    (parseInner : nat -> result string) (indent : nat) :
  let attributes := blockAttributes t (JStr ct) sc g cls content in
  let json := JSON_stringify (blockAttrs attributes) in
  let indentStr := JsString.repeat "    " indent in
  elementToWPMarkup textGt0 JSON_stringify attributes (JArr inner) parseInner indent
  = match inner with
    | [] =>
        if (ct =? "empty") || (((ct =? "text") || (ct =? "html")) && (content =? ""))
        then Ok (indentStr ++ wpSelfClosing json)
        else Ok (indentStr ++ wpOpen json ++ wpClose)
    | _ :: _ =>
        let* children := parseInner (indent + 1) in
        Ok (indentStr ++ wpOpen json ++ JsString.newline ++ children
            ++ JsString.newline ++ indentStr ++ wpClose)
    end.
Proof.
  intros attributes json indentStr. unfold elementToWPMarkup.
  fold attributes. fold json. fold indentStr.
  destruct inner as [|b inner].
  - change (noInnerBlocks (JArr [])) with true. cbv iota.
    unfold emptyPayload, attributes.
    rewrite (get_of_object _ _ (blockAttributes_is_object _ _ _ _ _ _)).
    rewrite blockAttributes_contentType, blockAttributes_content.
    cbn [bind Js.is_str].
    change (hasInnerBlocks textGt0 (JArr [])) with false.
    destruct (ct =? "empty"); [reflexivity|]. cbn [orb].
    destruct (ct =? "text"); cbn [orb andb Js.truthy].
    + rewrite negb_involutive. destruct (content =? ""); [reflexivity|].
      destruct (ct =? "html"); cbn [orb andb]; now rewrite append_assoc.
    + destruct (ct =? "html"); cbn [andb Js.truthy]; [|now rewrite append_assoc].
      rewrite negb_involutive.
      destruct (content =? ""); [reflexivity | now rewrite append_assoc].
  - assert (Hno : noInnerBlocks (JArr (b :: inner)) = false).
    { unfold noInnerBlocks. cbn [Js.truthy negb orb Js.get_opt Js.get String.eqb].
      rewrite ?String.eqb_refl. cbn [List.length].
      destruct (Z.of_nat (S (List.length inner))) eqn:E; try reflexivity. lia. }
    assert (Hhas : hasInnerBlocks textGt0 (JArr (b :: inner)) = true).
    { unfold hasInnerBlocks, gt0. cbn [Js.truthy andb Js.get_opt Js.get].
      rewrite ?String.eqb_refl. apply Z.ltb_lt. cbn [List.length]. lia. }
    rewrite Hno, Hhas. cbn [bind].
    destruct (parseInner (indent + 1)); [|reflexivity].
    cbn [bind]. now rewrite append_assoc.
Qed.

Lemma blockToWPMarkup_blockObject (id : string) (attributes : jsval)
    (inner : list jsval) (indent : nat) :
  blockToWPMarkup textGt0 JSON_stringify
    (blockObject id "universal/element" attributes inner) indent
  = elementToWPMarkup textGt0 JSON_stringify attributes (JArr inner)
      (parseBlocksToWPMarkup textGt0 JSON_stringify (JArr inner)) indent.
Proof. unfold blockObject. rewrite blockToWPMarkup_JObj. reflexivity. Qed.

Lemma pushBlocks_marked (f : node -> Rand (option jsval)) (cs : list node) :
  Forall (fun c => forall n indent,
            mapM (fun b => blockToWPMarkup textGt0 JSON_stringify b indent)
              (Block.as_list (fst (f c n)))
            = Ok (Normal.markup innerHTML JSON_stringify indent c)) cs ->
  forall n indent,
    mapM (fun b => blockToWPMarkup textGt0 JSON_stringify b indent)
      (fst (pushBlocks f cs n))
    = Ok (List.flat_map (Normal.markup innerHTML JSON_stringify indent) cs).
Proof.
  induction 1 as [|c cs Hc _ IH]; intros n indent; [reflexivity|].
  cbn [pushBlocks List.flat_map]. specialize (Hc n indent).
  destruct (f c n) as [o n1]. specialize (IH n1 indent).
  destruct (pushBlocks f cs n1) as [bs n2]. cbn [fst] in *.
  destruct o as [b|]; cbn [Block.as_list] in Hc.
  - change (b :: bs) with ([b] ++ bs)%list.
    rewrite mapM_app, Hc, IH. reflexivity.
  - cbn [mapM] in Hc. injection Hc as <-. exact IH.
Qed.

Lemma nodeToBlock_marked (nd : node) :
  forall n indent,
    mapM (fun b => blockToWPMarkup textGt0 JSON_stringify b indent)
      (Block.as_list (fst (nodeToBlock innerHTML random16 nd n)))
    = Ok (Normal.markup innerHTML JSON_stringify indent nd).
Proof.
  induction nd as [d | d | tag attrs cs IH] using node_induction; intros n indent.
  - rewrite nodeToBlock_text. cbn [Normal.markup Normal.attributes].
    destruct (JsString.trim d =? "") eqn:E; [reflexivity|].
    cbn [fst Block.as_list mapM]. rewrite blockToWPMarkup_blockObject.
    unfold elementToWPMarkup.
    change (noInnerBlocks (JArr [])) with true. cbv iota.
    change (hasInnerBlocks textGt0 (JArr [])) with false.
    unfold emptyPayload, textBlockAttributes.
    cbn [Js.get Js.get_opt Js.lookup String.eqb Ascii.eqb Bool.eqb bind Js.is_str
         orb andb Js.truthy].
    rewrite E. cbn [negb andb orb]. now rewrite append_assoc.
  - reflexivity.
  - assert (Hchildren : forall m i,
               mapM (fun b => blockToWPMarkup textGt0 JSON_stringify b i)
                 (fst (pushBlocks (nodeToBlock innerHTML random16) cs m))
               = Ok (List.flat_map (Normal.markup innerHTML JSON_stringify i) cs))
      by (now apply pushBlocks_marked).
    rewrite nodeToBlock_closed. cbn [fst Block.as_list mapM Normal.markup].
    rewrite blockToWPMarkup_blockObject.
    cbn [Normal.attributes]. rewrite elementToWPMarkup_blockAttributes.
    set (t := JsString.toLowerCase tag).
    set (nd := Element tag attrs cs).
    destruct (Normal.content_type nd t =? "blocks") eqn:Eb.
    + assert (Hel : hasChildElements nd = true).
      { unfold Normal.content_type in Eb.
        destruct (Serial.self_closing_tag t); [discriminate Eb|].
        destruct (t =? "svg"); [discriminate Eb|].
        destruct (hasChildElements nd); [reflexivity|].
        destruct (hasTextContent nd); discriminate Eb. }
      pose proof (pushBlocks_nonempty innerHTML random16 cs tag attrs n Hel) as Hne.
      destruct (fst (pushBlocks (nodeToBlock innerHTML random16) cs n)) as [|b bs] eqn:Ep;
        [contradiction Hne; reflexivity|].
      unfold parseBlocksToWPMarkup, mapJoin. rewrite <- Ep, Hchildren.
      cbn [bind]. reflexivity.
    + assert (Hsame :
                (Normal.content_type nd t =? "empty")
                || (((Normal.content_type nd t =? "text")
                     || (Normal.content_type nd t =? "html"))
                    && (Normal.content innerHTML nd t =? ""))
                = (Normal.content_type nd t =? "empty")
                  || (Normal.content innerHTML nd t =? "")).
      { revert Eb. unfold Normal.content_type, Normal.content.
        destruct (Serial.self_closing_tag t); [reflexivity|].
        destruct (t =? "svg"); [reflexivity|].
        destruct (hasChildElements nd).
        - destruct (includes containerElements t); [discriminate | reflexivity].
        - destruct (hasTextContent nd); reflexivity. }
      rewrite Hsame.
      destruct ((Normal.content_type nd t =? "empty")
                || (Normal.content innerHTML nd t =? "")); reflexivity.
Qed.

End MarkupComposition.

(** X21. The markup serializer applied to the blocks of the forward
    transcoder never raises, and writes the block comments of the nodes of
    the parsed fragment, one per line group, as follows.  A text that is not
    white space and an element with non-empty inner markup or text content
    give an opening comment directly followed by the closing comment: their
    content is in the JSON of the comment only.  A container with element
    children gives an opening comment, the comments of its child nodes, one
    level deeper, and the closing comment on lines of their own.  Any other
    element gives one self-closing comment.  White space and comments of the
    document give nothing. *)
Theorem wp_markup_of_forward_blocks
    (textGt0 : jsval -> bool) (JSON_stringify : jsval -> string)
    (innerHTML : node -> string) (random16 : nat -> nat)
    (bodyFirstChild : string -> option node) (html : jsval) (n indent : nat) :
  parseBlocksToWPMarkup textGt0 JSON_stringify
    (JArr (fst (parseHTMLToBlocks innerHTML random16 bodyFirstChild html n))) indent
  = Ok (match html with
        | JStr text =>
            if text =? "" then ""
            else match bodyFirstChild ("<div>" ++ replaceSelfClosing 0 text ++ "</div>") with
                 | Some container =>
                     JsString.join JsString.newline
                       (List.flat_map (Normal.markup innerHTML JSON_stringify indent)
                          (Dom.childNodes container))
                 | None => ""
                 end
        | _ => ""
        end).
Proof.
  unfold parseHTMLToBlocks.
  destruct html as [| | | |text| |]; try reflexivity.
  cbn [Js.truthy]. destruct (text =? ""); [reflexivity|]. cbn [negb].
  destruct (bodyFirstChild _) as [container|]; [|reflexivity].
  unfold parseBlocksToWPMarkup, mapJoin.
  rewrite (pushBlocks_marked textGt0 JSON_stringify innerHTML
             (nodeToBlock innerHTML random16) (Dom.childNodes container));
    [reflexivity|].
  apply Forall_forall. intros c _. apply nodeToBlock_marked.
Qed.
